(** * RightCodes dashboard mini extension: the background service worker

    A shallow embedding of the service worker of the extension (constants,
    preference reading, the two retry drivers, the refresh orchestrator, the
    message and alarm listeners) and of the DOM extractor that it injects
    into the dashboard page, together with the properties that the design
    document states about them.

    Conventions of the embedding.
    - A JavaScript string is a [string]: the bytes of its UTF-8 encoding
      (strings with a lone surrogate have none and are left aside).  Since
      no encoding of a character occurs inside another, searching for the
      bytes of a text is searching for the text.  White space ([\s],
      [trim]) is the full class of the language.  [toLowerCase] maps the
      ASCII letters.  The characters outside ASCII that the language also
      maps give no occurrence of the patterns that the lower-cased texts are
      searched for: two of them give an ASCII letter, the Kelvin sign a
      [k], which is in no pattern, and the dotted capital I an [i] followed
      by a combining dot, where the patterns have an [i] followed by [n].
    - The numbers that the popup computes with are integers below 2^53 in
      absolute value, on which the arithmetic of doubles is exact, or [NaN].
    - A millisecond time stamp ([Date.now()], [new Date()]) is a [Z]; the
      ISO rendering of a date is not modelled, the record keeps the reading.
    - A call to the browser platform ([chrome.*]) is answered by an oracle,
      the [world]: every awaited call either returns or rejects.  The calls
      that the code performs are recorded, in order, in a trace.
    - Global variables of the worker and the contents of
      [chrome.storage.local] are threaded explicitly. *)

From stdpp Require Import base option list strings gmap.
From Stdlib Require Import ZArith Ascii String List Bool Lia.
Import ListNotations.
Local Open Scope string_scope.
Local Open Scope Z_scope.

(* ===================================================================== *)
(** * JavaScript values used by the worker *)
(* ===================================================================== *)

Module Js.

(** The values that a stored preference field can hold. *)
Inductive value :=
| VUndefined
| VNull
| VBool (b : bool)
| VNumber (n : Z)
| VString (s : string).

(** Truthiness, as in [if (!x)] and [x || y]. *)
Definition truthy (v : value) : bool :=
  match v with
  | VUndefined | VNull => false
  | VBool b => b
  | VNumber n => negb (Z.eqb n 0)
  | VString s => negb (String.eqb s "")
  end.

(** [String.prototype.includes]. *)
Definition includes (s needle : string) : bool :=
  match String.index 0 needle s with
  | Some _ => true
  | None => false
  end.

Definition is_upper (c : ascii) : bool :=
  let n := nat_of_ascii c in (Nat.leb 65 n && Nat.leb n 90)%bool.

Definition lower_ascii (c : ascii) : ascii :=
  if is_upper c then ascii_of_nat (nat_of_ascii c + 32) else c.

(** [String.prototype.toLowerCase] on the ASCII letters (see the
    conventions at the head of the file). *)
Fixpoint toLowerCase (s : string) : string :=
  match s with
  | EmptyString => EmptyString
  | String c r => String (lower_ascii c) (toLowerCase r)
  end.

(** A thrown [Error] object: its [name] and its [message]. *)
Record exn := Error_ { ename : string; emessage : string }.

Definition Error (msg : string) : exn := Error_ "Error" msg.

(** [String(err)] for an [Error] object, i.e. [Error.prototype.toString]. *)
Definition string_of_exn (e : exn) : string :=
  if String.eqb (ename e) "" then emessage e
  else if String.eqb (emessage e) "" then ename e
  else String.append (ename e) (String.append ": " (emessage e)).

(** [String(err?.message || err)] (every thrown object is truthy). *)
Definition message_or_string (e : exn) : string :=
  if String.eqb (emessage e) "" then string_of_exn e else emessage e.

End Js.

(* ===================================================================== *)
(** * Constants of the worker *)
(* ===================================================================== *)

Definition DASHBOARD_URL : string := "https://www.right.codes/dashboard".
Definition TEMP_TAB_BLOCK_RULE_ID : Z := 30001.
Definition MIN_REFRESH_GAP_MS : Z := 2500.
Definition REMOTE_RATE_LIMIT_COOLDOWN_MS : Z := 65000.

(* ===================================================================== *)
(** * Preferences *)
(* ===================================================================== *)

(** The merged preference object: every key is present. *)
Record prefs := Prefs {
  autoRefresh : Js.value;
  autoRefreshExplicit : Js.value;
  refreshMinutes : Js.value;
  closeTempTab : Js.value
}.

(** An object found under [rcdm_prefs]: each key may be missing. *)
Record stored_prefs := StoredPrefs {
  s_autoRefresh : option Js.value;
  s_autoRefreshExplicit : option Js.value;
  s_refreshMinutes : option Js.value;
  s_closeTempTab : option Js.value
}.

(** What [chrome.storage.sync] holds under the key [rcdm_prefs]. *)
Inductive sync_slot :=
| SlotMissing                      (* the key was never written *)
| SlotFalsy                        (* a falsy value, e.g. [null] *)
| SlotObject (o : stored_prefs).

Definition DEFAULT_PREFS : prefs :=
  Prefs (Js.VBool false) (Js.VBool false) (Js.VNumber 5) (Js.VBool true).

Definition empty_object : stored_prefs := StoredPrefs None None None None.

Definition object_of_prefs (p : prefs) : stored_prefs :=
  StoredPrefs (Some (autoRefresh p)) (Some (autoRefreshExplicit p))
              (Some (refreshMinutes p)) (Some (closeTempTab p)).

(** [chrome.storage.sync.get({ [PREFS_KEY]: DEFAULT_PREFS })[PREFS_KEY]]
    followed by [|| {}]: the default fills in a missing key, a falsy value
    becomes the empty object. *)
Definition stored_object (slot : sync_slot) : stored_prefs :=
  match slot with
  | SlotMissing => object_of_prefs DEFAULT_PREFS
  | SlotFalsy => empty_object
  | SlotObject o => o
  end.

(** [{ ...DEFAULT_PREFS, ...o }]: a key of [o] overrides the default. *)
Definition spread_over_defaults (o : stored_prefs) : prefs :=
  Prefs (default (autoRefresh DEFAULT_PREFS) (s_autoRefresh o))
        (default (autoRefreshExplicit DEFAULT_PREFS) (s_autoRefreshExplicit o))
        (default (refreshMinutes DEFAULT_PREFS) (s_refreshMinutes o))
        (default (closeTempTab DEFAULT_PREFS) (s_closeTempTab o)).

(** The part of [getPrefs] after the storage read, in the worker. *)
Module Background.
Definition getPrefs (slot : sync_slot) : prefs :=
  let p := spread_over_defaults (stored_object slot) in
  if negb (Js.truthy (autoRefreshExplicit p))
  then Prefs (Js.VBool false) (autoRefreshExplicit p) (refreshMinutes p) (closeTempTab p)
  else p.
End Background.

(** The same function of [ui/app.js]. *)
Module UI.
Definition getPrefs (slot : sync_slot) : prefs :=
  let p := spread_over_defaults (stored_object slot) in
  if negb (Js.truthy (autoRefreshExplicit p))
  then Prefs (Js.VBool false) (autoRefreshExplicit p) (refreshMinutes p) (closeTempTab p)
  else p.
End UI.

(* ===================================================================== *)
(** * Text helpers of the extractor *)
(* ===================================================================== *)

Module Text.

(** The ASCII members of the class [\s]. *)
Definition is_space (c : ascii) : bool :=
  let n := nat_of_ascii c in
  (Nat.eqb n 32 || (Nat.leb 9 n && Nat.leb n 13))%bool.

(** The class [[0-9.]]. *)
Definition is_numdot (c : ascii) : bool :=
  let n := nat_of_ascii c in
  ((Nat.leb 48 n && Nat.leb n 57) || Nat.eqb n 46)%bool.

Definition nonempty (s : string) : bool := negb (String.eqb s "").

(** [replace(/\s+/g, " ")]: [after_space] tells that the previous character
    already belonged to the run of white space being replaced. *)
Fixpoint collapse_spaces (after_space : bool) (s : string) : string :=
  match s with
  | EmptyString => EmptyString
  | String c r =>
      if is_space c
      then if after_space then collapse_spaces true r
           else String " "%char (collapse_spaces true r)
      else String c (collapse_spaces false r)
  end.

(** [\s*] at the head of the text. *)
Fixpoint skip_spaces (s : string) : string :=
  match s with
  | EmptyString => EmptyString
  | String c r => if is_space c then skip_spaces r else s
  end.

Fixpoint trim_end (s : string) : string :=
  match s with
  | EmptyString => EmptyString
  | String c r =>
      let r' := trim_end r in
      if (is_space c && String.eqb r' "")%bool then EmptyString else String c r'
  end.

Definition trim (s : string) : string := trim_end (skip_spaces s).

(** The members of [\s] outside ASCII, which are also the characters that
    [trim] removes: U+00A0 in two bytes, and in three bytes U+1680,
    U+2000 to U+200A, U+2028, U+2029, U+202F, U+205F, U+3000 and U+FEFF.
    A text is the UTF-8 encoding of the JavaScript string, so these are
    looked for as byte sequences; their first bytes are lead bytes and the
    others continuation bytes, so that they are found at the boundaries of
    characters only. *)
Definition wide2 (a b : nat) : bool := (Nat.eqb a 194 && Nat.eqb b 160)%bool.

Definition wide3 (a b c : nat) : bool :=
  ((Nat.eqb a 225 && Nat.eqb b 154 && Nat.eqb c 128) ||
   (Nat.eqb a 226 && Nat.eqb b 128 &&
      ((Nat.leb 128 c && Nat.leb c 138) || Nat.eqb c 168 || Nat.eqb c 169 ||
       Nat.eqb c 175)) ||
   (Nat.eqb a 226 && Nat.eqb b 129 && Nat.eqb c 159) ||
   (Nat.eqb a 227 && Nat.eqb b 128 && Nat.eqb c 128) ||
   (Nat.eqb a 239 && Nat.eqb b 187 && Nat.eqb c 191))%bool.

(** The bytes that follow the first byte of the wide white space character
    at the head of the text; [0] when there is no such character. *)
Definition wide_width (s : string) : nat :=
  match s with
  | String a (String b r) =>
      if wide2 (nat_of_ascii a) (nat_of_ascii b) then 1%nat
      else
        match r with
        | String c _ =>
            if wide3 (nat_of_ascii a) (nat_of_ascii b) (nat_of_ascii c) then 2%nat
            else 0%nat
        | EmptyString => 0%nat
        end
  | _ => 0%nat
  end.

(** Every wide white space character becomes a blank; [skip] counts the
    bytes of the character that are still to be dropped. *)
Fixpoint narrow_from (skip : nat) (s : string) : string :=
  match s with
  | EmptyString => EmptyString
  | String c r =>
      match skip with
      | S k => narrow_from k r
      | O =>
          match wide_width s with
          | O => String c (narrow_from 0 r)
          | S k => String " "%char (narrow_from (S k) r)
          end
      end
  end.

Definition narrow (s : string) : string := narrow_from 0 s.

(** [normalize = (s) => String(s ?? "").replace(/\s+/g, " ").trim()];
    a missing text is [None].  A run of white space is a run of ASCII white
    space once the wide characters are blanks, and after the replacement
    the only white space left for [trim] is the blank. *)
Definition normalize (s : option string) : string :=
  trim (collapse_spaces false (narrow (default "" s))).

(** A literal at the head of the text; the rest of the text on success. *)
Fixpoint strip_prefix (p s : string) : option string :=
  match p, s with
  | EmptyString, _ => Some s
  | String a p', String b s' => if Ascii.eqb a b then strip_prefix p' s' else None
  | String _ _, EmptyString => None
  end.

(** [[0-9.]*] at the head of the text (greedy): the run and the rest. *)
Fixpoint take_numdot (s : string) : string * string :=
  match s with
  | EmptyString => (EmptyString, EmptyString)
  | String c r =>
      if is_numdot c
      then let '(run, rest) := take_numdot r in (String c run, rest)
      else (EmptyString, s)
  end.

(** [([0-9.]+)]: the captured group and the rest. *)
Definition capture_numdot (s : string) : option (string * string) :=
  let '(run, rest) := take_numdot s in
  if nonempty run then Some (run, rest) else None.

(** [replace(/[^0-9.]/g, "")]. *)
Fixpoint keep_numdot (s : string) : string :=
  match s with
  | EmptyString => EmptyString
  | String c r => if is_numdot c then String c (keep_numdot r) else keep_numdot r
  end.

(** [replace("%", "")]: only the first occurrence goes. *)
Fixpoint drop_first_percent (s : string) : string :=
  match s with
  | EmptyString => EmptyString
  | String c r => if Ascii.eqb c "%"%char then r else String c (drop_first_percent r)
  end.

(** The first position of the text where [here] matches. *)
Fixpoint search {A} (here : string -> option A) (s : string) : option A :=
  match here s with
  | Some m => Some m
  | None =>
      match s with
      | EmptyString => None
      | String _ r => search here r
      end
  end.

(** [/余额\s*[:：]\s*\$\s*([0-9.]+)/] anchored at the head of the text: the
    captured group.  No quantifier of this expression can give back a
    character to the token that follows it, so one pass decides.  The
    extractor matches normalized texts only, in which the white space is
    the blank. *)
Definition balance_here (s : string) : option string :=
  r1 ← strip_prefix "余额" s;
  let r2 := skip_spaces r1 in
  r3 ← match strip_prefix ":" r2 with
       | Some r => Some r
       | None => strip_prefix "：" r2
       end;
  r4 ← strip_prefix "$" (skip_spaces r3);
  fst <$> capture_numdot (skip_spaces r4).

Definition balance_match (s : string) : option string := search balance_here s.

(** [/\$\s*([0-9.]+)\s*\/\s*\$\s*([0-9.]+)/] anchored at the head of the
    text: the two captured groups. *)
Definition quota_here (s : string) : option (string * string) :=
  r1 ← strip_prefix "$" s;
  '(m1, r2) ← capture_numdot (skip_spaces r1);
  r3 ← strip_prefix "/" (skip_spaces r2);
  r4 ← strip_prefix "$" (skip_spaces r3);
  '(m2, _) ← capture_numdot (skip_spaces r4);
  Some (m1, m2).

Definition quota_match (s : string) : option (string * string) := search quota_here s.

End Text.

(* ===================================================================== *)
(** * The DOM extractor, [extractRightCodesDashboard] *)
(* ===================================================================== *)

(** The page is described by what the selectors of the extractor find in
    it.  It is taken at one instant: an element that is absent stays absent
    until [waitFor] gives up, so [waitFor(getEl)] is [getEl()]. *)

Module Dom.

(** The second child of a row: its text and, in document order, the
    [title] attribute of its [span[title]] descendants. *)
Record value_el := ValueEl {
  ve_text : string;
  ve_titles : list string
}.

(** A [div.flex.items-center.justify-between] row of a card:
    [children[0]?.textContent] and [children[1]]. *)
Record row := Row {
  row_label : option string;
  row_value : option value_el
}.

(** A child of the subscription grid. *)
Record card := Card {
  c_purple : option string;            (* [.text-purple-500] *)
  c_semibold : option string;          (* [.font-semibold] *)
  c_rows : list row;                   (* [.space-y-1.text-sm > div...] *)
  c_used_text : option string;         (* [.mt-2 span.tabular-nums] *)
  c_progress : option (option string)  (* [[role=progressbar]] and its
                                          [aria-valuenow] attribute *)
}.

(** A child of the totals grid. *)
Record total_card := TotalCard {
  t_label : option string;             (* [.text-default-500.text-sm] *)
  t_value : option string              (* [[class*="text-"]:not(...)] *)
}.

Record body := Body {
  innerText : string;
  b_textContent : string
}.

(** What one run of the extractor reads from the page, read by read: the
    page changes while the extractor waits, so what is read again after a
    wait has a field of its own. *)
Record page := Page {
  pathname : string;                   (* [location.pathname] at the start *)
  href : string;                       (* [location.href] at the end *)
  title : string;                      (* [document.title] at the end *)
  document_body : option body;         (* [document.body] at the start *)
  main_el : option string;             (* [<main>] and its text, and *)
  root_el : option string;             (* [#root] and its text, when the wait
                                          for [main, #root] ends *)
  settled_body : option body;          (* [document.body] when that wait has
                                          found an element *)
  late_pathname : string;              (* [location.pathname] and *)
  late_body : option body;             (* [document.body] when that wait has
                                          found nothing *)
  sub_grid : option (list card);
  totals_grid : option (list total_card);
  fault : option Js.exn                (* the exception thrown by a read
                                          that the run performed, if any:
                                          the run then ends in [catch] *)
}.

End Dom.

Module Extractor.
Import Dom.

(** The double that [Number(s)] denotes; the conversion itself (floating
    point) is not part of the model. *)
Inductive number := NumberOf (s : string).

Record endpoint := Endpoint { ep_title : string }.

(** A value of the [byLabel] map: a text, or the endpoint list that the
    label 可用端点 gets. *)
Inductive label_value :=
| LText (s : string)
| LEndpoints (l : list endpoint).

Inductive quota :=
| QuotaParsed (remaining total : number) (currency raw : string)
| QuotaRaw (raw : string).

Record balance := Balance {
  bal_raw : option string;
  bal_amount : option number
}.

Record subscription := Subscription {
  name : option string;
  remainingDaysRaw : option label_value;
  remainingDays : option number;
  acquiredAt : option label_value;
  expiresAt : option label_value;
  resetStatus : option label_value;
  endpoints : list endpoint;
  sub_quota : option quota;
  usedPercentText : option string;
  usedPercent : option number
}.

Record snapshot := Snapshot {
  snap_fetchedAt : Z;
  snap_url : string;
  snap_title : string;
  snap_balance : balance;
  subscriptions : list subscription;
  totals : gmap string (option string)
}.

(** What the extractor returns: [{ ok: false, error, fetchedAt }] or the
    snapshot with [ok: true]. *)
Inductive result :=
| Failure (error : string) (fetchedAt : Z)
| Success (data : snapshot).

Definition ok (r : result) : bool :=
  match r with Success _ => true | Failure _ _ => false end.

(** [x || null] for a text. *)
Definition text_or_null (s : string) : option string :=
  if Text.nonempty s then Some s else None.

(** Truthiness of a map value: a text unless empty, an array always. *)
Definition lv_truthy (v : label_value) : bool :=
  match v with LText s => Text.nonempty s | LEndpoints _ => true end.

(** [byLabel.get(k) || null]. *)
Definition get_or_null (m : gmap string label_value) (k : string) : option label_value :=
  match m !! k with
  | Some v => if lv_truthy v then Some v else None
  | None => None
  end.

(** [String(v)] for a map value; an array of objects prints each object as
    [[object Object]]. *)
Definition lv_string (v : label_value) : string :=
  match v with
  | LText s => s
  | LEndpoints l => String.concat "," (List.map (fun _ => "[object Object]") l)
  end.

(** [document.body?.innerText || document.body?.textContent || ""],
    normalized and lower-cased. *)
Definition text_of_body (b : option body) : string :=
  let raw :=
    match b with
    | None => ""
    | Some b => if Text.nonempty (innerText b) then innerText b else b_textContent b
    end in
  Js.toLowerCase (Text.normalize (Some raw)).

Definition body_text (p : page) : string := text_of_body (document_body p).

Definition late_body_text (p : page) : string := text_of_body (late_body p).

Definition says_too_many_requests (t : string) : bool :=
  (Js.includes t "too many requests" ||
   Js.includes t "查询请求过于频繁" ||
   Js.includes t "每分钟最多30次")%bool.

Definition starts_with (s p : string) : bool := String.prefix p s.

(** [document.querySelector("main, #root")]. *)
Definition main_or_root (p : page) : option string :=
  match main_el p with
  | Some t => Some t
  | None => root_el p
  end.

(** [(document.querySelector("main") || document.body || main).textContent]
    where [main] is the element found by [main_or_root]. *)
Definition main_text_source (p : page) (main : string) : string :=
  match main_el p with
  | Some t => t
  | None =>
      match settled_body p with
      | Some b => b_textContent b
      | None => main
      end
  end.

(** One turn of the loop over the rows of a card. *)
Definition add_row (byLabel : gmap string label_value) (r : row) : gmap string label_value :=
  let label := Text.normalize (row_label r) in
  if negb (Text.nonempty label) then byLabel
  else
    match row_value r with
    | None => byLabel
    | Some valueEl =>
        if String.eqb label "可用端点"
        then <[label := LEndpoints
                 (List.map (fun t => Endpoint (Text.normalize (Some t))) (ve_titles valueEl))]> byLabel
        else <[label := LText (Text.normalize (Some (ve_text valueEl)))]> byLabel
    end.

Definition label_map (rows : list row) : gmap string label_value :=
  fold_left add_row rows ∅.

(** The quota of a card from [byLabel.get("剩余额度")]. *)
Definition parse_quota (quotaRaw : option label_value) : option quota :=
  match quotaRaw with
  | Some (LText raw) =>
      match Text.quota_match raw with
      | Some (m1, m2) => Some (QuotaParsed (NumberOf m1) (NumberOf m2) "$" raw)
      | None => Some (QuotaRaw raw)
      end
  | _ => None
  end.

(** The body of the loop over the cards: [None] is [continue]. *)
Definition parse_card (c : card) : option subscription :=
  let name :=
    let n1 := Text.normalize (c_purple c) in
    if Text.nonempty n1 then n1 else Text.normalize (c_semibold c) in
  match c_rows c with
  | [] => None
  | rows =>
      let byLabel := label_map rows in
      let usedPercentText := Text.normalize (c_used_text c) in
      let usedPercent :=
        match c_progress c with
        | Some (Some valuenow) => Some (NumberOf valuenow)
        | _ =>
            if Text.nonempty usedPercentText
            then Some (NumberOf (Text.drop_first_percent usedPercentText))
            else None
        end in
      let remainingDaysRaw := byLabel !! "剩余天数" in
      let remainingDays :=
        match remainingDaysRaw with
        | Some v =>
            if lv_truthy v
            then Some (NumberOf (Text.keep_numdot (Text.normalize (Some (lv_string v)))))
            else None
        | None => None
        end in
      let quotaRaw := byLabel !! "剩余额度" in
      Some {| name := text_or_null name;
              remainingDaysRaw := get_or_null byLabel "剩余天数";
              remainingDays := remainingDays;
              acquiredAt := get_or_null byLabel "获得时间";
              expiresAt := get_or_null byLabel "到期时间";
              resetStatus := get_or_null byLabel "今日重置";
              endpoints :=
                match get_or_null byLabel "可用端点" with
                | Some (LEndpoints l) => l
                | _ => []
                end;
              sub_quota := parse_quota quotaRaw;
              usedPercentText := text_or_null usedPercentText;
              usedPercent := usedPercent |}
  end.

Definition parse_subscriptions (grid : option (list card)) : list subscription :=
  match grid with
  | None => []
  | Some cards => omap parse_card cards
  end.

(** The object [totals] while it is filled: its own keys, and whether its
    prototype is still [Object.prototype]. *)
Record totals_object := TotalsObject {
  own : gmap string (option string);
  has_prototype : bool
}.

(** [totals[label] = v].  With the prototype in place, the key [__proto__]
    is the accessor of [Object.prototype]: assigning [null] takes the
    prototype away, assigning a text does nothing, and no own key is made;
    without the prototype it is a key like the others. *)
Definition assign_total (o : totals_object) (label : string) (v : option string)
  : totals_object :=
  if (String.eqb label "__proto__" && has_prototype o)%bool
  then match v with
       | None => TotalsObject (own o) false
       | Some _ => o
       end
  else TotalsObject (<[label := v]> (own o)) (has_prototype o).

(** One turn of the loop over the total cards. *)
Definition add_total (totals : totals_object) (c : total_card) : totals_object :=
  let label := Text.normalize (t_label c) in
  let value := Text.normalize (t_value c) in
  if negb (Text.nonempty label) then totals
  else assign_total totals label (text_or_null value).

(** The own keys of [totals] after the loop: what [Object.keys] counts and
    what is stored with the snapshot. *)
Definition parse_totals (grid : option (list total_card)) : gmap string (option string) :=
  match grid with
  | None => ∅
  | Some cards => own (fold_left add_total cards (TotalsObject ∅ true))
  end.

Definition parse_balance (mainText : string) : balance :=
  match Text.balance_match mainText with
  | Some m => Balance (Some (String "$"%char m)) (Some (NumberOf m))
  | None => Balance None None
  end.

(** [!balance?.raw]. *)
Definition balance_missing (b : balance) : bool :=
  match bal_raw b with
  | Some s => negb (Text.nonempty s)
  | None => true
  end.

(** The [try] block of the extractor. *)
Definition extract (fetchedAt : Z) (p : page) : result :=
  if starts_with (pathname p) "/login" then Failure "auth_required" fetchedAt
  else
    let bodyTextEarly := body_text p in
    if says_too_many_requests bodyTextEarly then Failure "too_many_requests" fetchedAt
    else
      match main_or_root p with
      | None =>
          let bodyTextLate := late_body_text p in
          if says_too_many_requests bodyTextLate then Failure "too_many_requests" fetchedAt
          else if (starts_with (late_pathname p) "/login" ||
                   Js.includes bodyTextLate "使用 linux do 登录" ||
                   Js.includes bodyTextLate "还没有账号")%bool
          then Failure "auth_required" fetchedAt
          else Failure "main_not_found" fetchedAt
      | Some main =>
          let mainText := Text.normalize (Some (main_text_source p main)) in
          let balance := parse_balance mainText in
          let subscriptions := parse_subscriptions (sub_grid p) in
          let totals := parse_totals (totals_grid p) in
          if (balance_missing balance &&
              Nat.eqb (List.length subscriptions) 0 &&
              Nat.eqb (size totals) 0)%bool
          then Failure "dashboard_data_not_ready" fetchedAt
          else Success {| snap_fetchedAt := fetchedAt;
                          snap_url := href p;
                          snap_title := title p;
                          snap_balance := balance;
                          subscriptions := subscriptions;
                          totals := totals |}
      end.

(** The extractor; [fetchedAt] is the reading of the clock at its start.
    When a read of the page throws, the [catch] clause answers with the
    message of the exception, whatever had been read before. *)
Definition extractRightCodesDashboard (fetchedAt : Z) (p : page) : result :=
  match fault p with
  | Some err => Failure (Js.message_or_string err) fetchedAt
  | None => extract fetchedAt p
  end.

End Extractor.

(* ===================================================================== *)
(** * The platform seen from the worker *)
(* ===================================================================== *)

Module Platform.

(** An awaited platform call resolves or rejects. *)
Inductive outcome (A : Type) :=
| Returned (a : A)
| Thrown (e : Js.exn).
Arguments Returned {A} a.
Arguments Thrown {A} e.

Record tab := Tab { tab_id : option Z; tab_url : string }.

(** The [detail] field of an error record. *)
Inductive detail :=
| DAbsent                                    (* no [detail] key *)
| DCooldownUntil (t : Z)                     (* [cooldown_until_<ISO of t>] *)
| DString (s : string)
| DValue (r : option Extractor.result).      (* [undefined] or the result object *)

Record error_record := ErrorRecord {
  err_at : Z;
  err_reason : string;
  err_code : string;
  err_detail : detail
}.

(** The value that [refreshDashboardData] resolves to. *)
Inductive refresh_result :=
| RefreshOk (data : Extractor.snapshot)      (* [{ ok: true, data }] *)
| RefreshFailed (error : error_record).      (* [{ ok: false, error }] *)

(** The two shapes of [chrome.storage.local.set] in the worker. *)
Inductive local_write :=
| WriteLastError (e : error_record)
| WriteDataAndClearError (d : Extractor.snapshot).

(** [chrome.storage.local]: the keys [rcdm_data] and [rcdm_last_error]. *)
Record local_storage := LocalStorage {
  rcdm_data : option Extractor.snapshot;
  rcdm_last_error : option error_record
}.

Definition apply_write (wr : local_write) (st : local_storage) : local_storage :=
  match wr with
  | WriteLastError e => LocalStorage (rcdm_data st) (Some e)
  | WriteDataAndClearError d => LocalStorage (Some d) None
  end.

(** The platform calls (and the assignments to the rate-limit floor) that
    a run performs, in order. *)
Inductive event :=
| PermissionsContains
| StorageSyncGet
| TabsQuery
| TabsCreate
| InstallRule (tabId : Z)
| WaitForTabUrl (tabId : Z)
| Sleep (ms : Z)
| TabsGet (tabId : Z)
| ExecuteScript (tabId : Z)
| LocalSet (wr : local_write) (stored : bool)
| ClearRule
| TabsRemove (tabId : Z)
| AssignNextAllowed (old new : Z).

(** The answers of the platform during one run of the refresh.  The calls
    that can happen several times are answered by position. *)
Record world := World {
  clock : nat -> Z;                                    (* successive readings *)
  permissions_contains : outcome bool;
  storage_sync_get : outcome sync_slot;
  tabs_query : outcome (list tab);
  tabs_create : outcome (option tab);
  install_rule : outcome unit;
  tab_reaches_dashboard : bool;                        (* within the timeout *)
  tabs_get : nat -> outcome (option tab);
  execute_script : nat -> outcome (option Extractor.result);
  storage_local_set : nat -> outcome unit;
  clear_rule : outcome unit;
  tabs_remove : outcome unit
}.

(** The state that survives a run. *)
Record globals := Globals {
  nextAllowedRefreshAt : Z;
  storage_local : local_storage
}.

(** The state of a run: the globals and the positions in the answers. *)
Record state := State {
  g : globals;
  ticks : nat;
  injections : nat;
  local_sets : nat
}.

Definition start (gl : globals) : state := State gl 0 0 0.

(** The result of running a piece of code: how it ended, the state it left
    and the calls it made. *)
Record res (A : Type) := Res {
  out : outcome A;
  final : state;
  calls : list event
}.
Arguments Res {A} out final calls.
Arguments out {A} r.
Arguments final {A} r.
Arguments calls {A} r.

Definition M (A : Type) : Type := state -> res A.

Definition ret {A} (a : A) : M A := fun s => Res (Returned a) s [].

Definition throw {A} (e : Js.exn) : M A := fun s => Res (Thrown e) s [].

Definition bind {A B} (m : M A) (k : A -> M B) : M B :=
  fun s =>
    let r := m s in
    match out r with
    | Returned a => let r' := k a (final r) in Res (out r') (final r') (calls r ++ calls r')
    | Thrown e => Res (Thrown e) (final r) (calls r)
    end.

(** [try { m } catch (err) { h err }]. *)
Definition try_catch {A} (m : M A) (h : Js.exn -> M A) : M A :=
  fun s =>
    let r := m s in
    match out r with
    | Returned a => r
    | Thrown e => let r' := h e (final r) in Res (out r') (final r') (calls r ++ calls r')
    end.

(** [try { m } finally { f }]: [f] runs however [m] ended; when [f] itself
    throws, its exception replaces the outcome of [m]. *)
Definition finally {A} (m : M A) (f : M unit) : M A :=
  fun s =>
    let r := m s in
    let r' := f (final r) in
    match out r' with
    | Returned _ => Res (out r) (final r') (calls r ++ calls r')
    | Thrown e => Res (Thrown e) (final r') (calls r ++ calls r')
    end.

Definition log (ev : event) : M unit := fun s => Res (Returned tt) s [ev].

(** An awaited call whose answer does not depend on the position. *)
Definition call {A} (ev : event) (answer : outcome A) : M A :=
  fun s => Res answer s [ev].

(** [Date.now()] and [new Date()]. *)
Definition date_now (w : world) : M Z :=
  fun s => Res (Returned (clock w (ticks s)))
               (State (g s) (S (ticks s)) (injections s) (local_sets s)) [].

Definition read_nextAllowedRefreshAt : M Z :=
  fun s => Res (Returned (nextAllowedRefreshAt (g s))) s [].

Definition assign_nextAllowedRefreshAt (v : Z) : M unit :=
  fun s =>
    Res (Returned tt)
        (State (Globals v (storage_local (g s))) (ticks s) (injections s) (local_sets s))
        [AssignNextAllowed (nextAllowedRefreshAt (g s)) v].

(** [await chrome.storage.local.set(...)]: a rejected write stores nothing. *)
Definition local_set (w : world) (wr : local_write) : M unit :=
  fun s =>
    match storage_local_set w (local_sets s) with
    | Returned _ =>
        Res (Returned tt)
            (State (Globals (nextAllowedRefreshAt (g s)) (apply_write wr (storage_local (g s))))
                   (ticks s) (injections s) (S (local_sets s)))
            [LocalSet wr true]
    | Thrown e =>
        Res (Thrown e)
            (State (g s) (ticks s) (injections s) (S (local_sets s)))
            [LocalSet wr false]
    end.

(** The position of the next injection attempt. *)
Definition next_injection : M nat :=
  fun s => Res (Returned (injections s))
               (State (g s) (ticks s) (S (injections s)) (local_sets s)) [].

End Platform.

(* ===================================================================== *)
(** * The service worker *)
(* ===================================================================== *)

Module Worker.
Import Platform.

Declare Scope worker_scope.
Delimit Scope worker_scope with worker.
Notation "x <- m ;; k" := (bind m (fun x => k))
  (at level 100, m at next level, k at level 200, right associativity) : worker_scope.
Notation "m ;; k" := (bind m (fun _ => k))
  (at level 100, k at level 200, right associativity) : worker_scope.
Local Open Scope worker_scope.

Section Run.

Variable w : world.

(** [sleep(ms)]. *)
Definition sleep (ms : Z) : M unit := log (Sleep ms).

(** [getPrefs()]: the storage read, then the merge. *)
Definition getPrefs : M prefs :=
  stored <- call StorageSyncGet (storage_sync_get w);;
  ret (Background.getPrefs stored).

Definition hasRightCodesPermission : M bool :=
  call PermissionsContains (permissions_contains w).

(** [tabs.find((t) => typeof t.id === "number") || null]. *)
Definition first_with_id (tabs : list tab) : option tab :=
  List.find (fun t => match tab_id t with Some _ => true | None => false end) tabs.

Definition findExistingDashboardTab : M (option tab) :=
  tabs <- call TabsQuery (tabs_query w);;
  ret (first_with_id tabs).

(** [waitForTabUrl(tabId, pattern)]: resolves once the tab shows the
    dashboard, rejects when the timeout fires first. *)
Definition waitForTabUrl (tabId : Z) : M unit :=
  log (WaitForTabUrl tabId);;
  if tab_reaches_dashboard w then ret tt
  else throw (Js.Error "timeout_waiting_for_tab_url").

Definition installTempTabLightModeRule (tabId : Z) : M unit :=
  call (InstallRule tabId) (install_rule w).

Definition clearTempTabLightModeRule : M unit :=
  call ClearRule (clear_rule w).

(** The [try] block of one attempt of [executeExtractWithRetry]. *)
Definition inject_once (tabId : Z) : M (option Extractor.result) :=
  i <- next_injection;;
  tab <- call (TabsGet tabId) (tabs_get w i);;
  match tab with
  | None => throw (Js.Error "tab_not_found")
  | Some _ => call (ExecuteScript tabId) (execute_script w i)
  end.

(** The transient frame-loss signatures. *)
Definition retryable (err : Js.exn) : bool :=
  let msg := Js.message_or_string err in
  (Js.includes msg "Frame with ID 0 was removed" ||
   Js.includes msg "No frame with id" ||
   Js.includes msg "The tab was closed" ||
   Js.includes msg "Cannot access contents of url")%bool.

(** [throw lastErr || new Error("extract_retry_failed")]. *)
Definition rethrow {A} (lastErr : option Js.exn) : M A :=
  throw (default (Js.Error "extract_retry_failed") lastErr).

(** The loop of [executeExtractWithRetry]; [left] bounds the turns that
    remain and is [maxAttempts] at the start. *)
Fixpoint extract_loop (left : nat) (tabId : Z) (maxAttempts attempt : nat)
    (lastErr : option Js.exn) : M (option Extractor.result) :=
  match left with
  | O => rethrow lastErr
  | S left' =>
      if (attempt <=? maxAttempts)%nat then
        try_catch (inject_once tabId)
          (fun err =>
             if (negb (retryable err) || (attempt =? maxAttempts)%nat)%bool
             then rethrow (Some err)
             else
               sleep (220 * Z.of_nat attempt);;
               extract_loop left' tabId maxAttempts (S attempt) (Some err))
      else rethrow lastErr
  end.

Definition executeExtractWithRetry (tabId : Z) (maxAttempts : nat)
  : M (option Extractor.result) :=
  extract_loop maxAttempts tabId maxAttempts 1 None.

(** [result?.ok]. *)
Definition result_ok (r : option Extractor.result) : bool :=
  match r with
  | Some r => Extractor.ok r
  | None => false
  end.

(** [String(result?.error || "")]. *)
Definition error_text (r : option Extractor.result) : string :=
  match r with
  | Some (Extractor.Failure e _) => e
  | _ => ""
  end.

Definition retryableResult (r : option Extractor.result) : bool :=
  let detail := Js.toLowerCase (error_text r) in
  (Js.includes detail "main_not_found" ||
   Js.includes detail "dashboard_data_not_ready")%bool.

(** The loop of [extractDashboardWithResultRetry]. *)
Fixpoint result_loop (left : nat) (tabId : Z) (maxAttempts attempt : nat)
    (lastResult : option Extractor.result) : M (option Extractor.result) :=
  match left with
  | O => ret lastResult
  | S left' =>
      if (attempt <=? maxAttempts)%nat then
        result <- executeExtractWithRetry tabId 4;;
        if result_ok result then ret result
        else if (negb (retryableResult result) || (attempt =? maxAttempts)%nat)%bool
        then ret result
        else
          sleep (300 * Z.of_nat attempt);;
          result_loop left' tabId maxAttempts (S attempt) result
      else ret lastResult
  end.

Definition extractDashboardWithResultRetry (tabId : Z) (maxAttempts : nat)
  : M (option Extractor.result) :=
  result_loop maxAttempts tabId maxAttempts 1 None.

(** [result?.error || result]. *)
Definition detail_of (r : option Extractor.result) : detail :=
  match r with
  | Some (Extractor.Failure e _) => if Text.nonempty e then DString e else DValue r
  | _ => DValue r
  end.

(** [String(detail || "").toLowerCase()]. *)
Definition detail_text (d : detail) : string :=
  match d with
  | DString s => Js.toLowerCase s
  | DValue (Some _) => Js.toLowerCase "[object Object]"
  | _ => ""
  end.

Definition says_remote_limit (detailText : string) : bool :=
  (Js.includes detailText "too_many_requests" ||
   Js.includes detailText "too many requests")%bool.

(** Persist an error record and resolve to the tagged failure. *)
Definition fail_with (reason code : string) (d : detail) : M refresh_result :=
  at_ <- date_now w;;
  let error := ErrorRecord at_ reason code d in
  local_set w (WriteLastError error);;
  ret (RefreshFailed error).

(** A usable tab handle: [tab?.id] is truthy. *)
Definition usable_id (t : option tab) : option Z :=
  match t with
  | Some t =>
      match tab_id t with
      | Some i => if Z.eqb i 0 then None else Some i
      | None => None
      end
  | None => None
  end.

Definition swallow (m : M unit) : M unit := try_catch m (fun _ => ret tt).

(** The [try] block of [refreshDashboardData]. *)
Definition refresh_try (reason : string) (tabId : Z) (createdTempTab : bool)
  : M refresh_result :=
  (if createdTempTab then swallow (installTempTabLightModeRule tabId) else ret tt);;
  waitForTabUrl tabId;;
  sleep 120;;
  result <- extractDashboardWithResultRetry tabId 3;;
  match result with
  | Some (Extractor.Success data) =>
      local_set w (WriteDataAndClearError data);;
      ret (RefreshOk data)
  | _ =>
      let detail := detail_of result in
      (if says_remote_limit (detail_text detail)
       then
         floor <- read_nextAllowedRefreshAt;;
         t <- date_now w;;
         assign_nextAllowedRefreshAt (Z.max floor (t + REMOTE_RATE_LIMIT_COOLDOWN_MS))
       else ret tt);;
      fail_with reason "extract_failed" detail
  end.

Definition refresh_catch (reason : string) (err : Js.exn) : M refresh_result :=
  fail_with reason "refresh_exception" (DString (Js.message_or_string err)).

Definition refresh_finally (tabId : Z) (createdTempTab : bool) (p : prefs) : M unit :=
  (if createdTempTab then swallow clearTempTabLightModeRule else ret tt);;
  if (createdTempTab && Js.truthy (closeTempTab p))%bool
  then swallow (call (TabsRemove tabId) (tabs_remove w))
  else ret tt.

Definition refreshDashboardData (reason : string) : M refresh_result :=
  now <- date_now w;;
  floor <- read_nextAllowedRefreshAt;;
  if now <? floor then
    fail_with reason "rate_limited_local" (DCooldownUntil floor)
  else
    assign_nextAllowedRefreshAt (now + MIN_REFRESH_GAP_MS);;
    hasPerm <- hasRightCodesPermission;;
    if negb hasPerm then fail_with reason "missing_host_permission" DAbsent
    else
      prefs <- getPrefs;;
      found <- findExistingDashboardTab;;
      acquired <-
        match found with
        | Some t => ret (Some t, false)
        | None =>
            t <- call TabsCreate (tabs_create w);;
            ret (t, true)
        end;;
      let '(tab, createdTempTab) := acquired in
      match usable_id tab with
      | None => fail_with reason "tab_create_failed" DAbsent
      | Some tabId =>
          finally
            (try_catch (refresh_try reason tabId createdTempTab) (refresh_catch reason))
            (refresh_finally tabId createdTempTab prefs)
      end.

End Run.

(** One invocation, from the globals it finds. *)
Definition run_refresh (w : world) (reason : string) (gl : globals) : res refresh_result :=
  refreshDashboardData w reason (start gl).

End Worker.

(* ===================================================================== *)
(** * The listeners of the worker *)
(* ===================================================================== *)

(** The worker is single threaded: a listener runs until its first
    [await], and so does the [refreshDashboardData] that it calls, whose
    first [await] comes after the test and the assignment of the rate-limit
    floor.  The rest of a refresh runs in later turns of the event loop and
    is seen here through the turn in which its promise settles. *)

Module Listeners.
Import Platform.

(** A refresh that was started and has not settled: [passed] tells that it
    went past the rate-limit test, towards the tab operations. *)
Record operation := Operation {
  op_id : nat;
  op_reason : string;
  op_passed : bool
}.

Record sw := Sw {
  inFlightRefreshPromise : option nat;     (* the operation behind the promise *)
  floor : Z;                               (* [nextAllowedRefreshAt] *)
  started : nat;                           (* operations started so far *)
  pending : list operation;
  waiting : list (nat * nat);              (* message, awaited operation *)
  responses : list (nat * nat * refresh_result)
                                           (* message, operation, [sendResponse] value *)
}.

Definition boot : sw := Sw None 0 0 [] [] [].

(** A turn of the event loop. *)
Inductive turn :=
| OnMessage (m : nat) (reason : string) (now : Z)   (* [rcdm_refresh] *)
| OnAlarm (now : Z)                                 (* [rcdm_auto_refresh] *)
| RemoteLimit (op : nat) (now : Z)                  (* the extension of the floor *)
| Settle (op : nat) (r : outcome refresh_result).

(** The call [refreshDashboardData({ reason })] up to its first [await]. *)
Definition start_refresh (reason : string) (now : Z) (s : sw) : sw :=
  let passed := negb (now <? floor s) in
  Sw (inFlightRefreshPromise s)
     (if passed then now + MIN_REFRESH_GAP_MS else floor s)
     (S (started s))
     (pending s ++ [Operation (started s) reason passed])
     (waiting s) (responses s).

Definition is_op (op : nat) (o : operation) : bool := Nat.eqb (op_id o) op.

Definition awaits (op : nat) (mw : nat * nat) : bool := Nat.eqb (snd mw) op.

(** The values sent back when the operation [op] resolves to [r]. *)
Definition answer (op : nat) (r : outcome refresh_result) (ws : list (nat * nat))
  : list (nat * nat * refresh_result) :=
  match r with
  | Returned v => List.map (fun mw => (fst mw, op, v)) (List.filter (awaits op) ws)
  | Thrown _ => []
  end.

Definition step (s : sw) (t : turn) : sw :=
  match t with
  | OnMessage m reason now =>
      match inFlightRefreshPromise s with
      | None =>
          let s' := start_refresh reason now s in
          Sw (Some (started s)) (floor s') (started s') (pending s')
             (waiting s' ++ [(m, started s)]) (responses s')
      | Some op =>
          Sw (Some op) (floor s) (started s) (pending s)
             (waiting s ++ [(m, op)]) (responses s)
      end
  | OnAlarm now => start_refresh "alarm" now s
  | RemoteLimit op now =>
      if existsb (fun o => (is_op op o && op_passed o)%bool) (pending s)
      then Sw (inFlightRefreshPromise s)
              (Z.max (floor s) (now + REMOTE_RATE_LIMIT_COOLDOWN_MS))
              (started s) (pending s) (waiting s) (responses s)
      else s
  | Settle op r =>
      if existsb (is_op op) (pending s)
      then Sw (match inFlightRefreshPromise s with
               | Some o => if Nat.eqb o op then None else Some o
               | None => None
               end)
              (floor s) (started s)
              (List.filter (fun o => negb (is_op op o)) (pending s))
              (List.filter (fun mw => negb (awaits op mw)) (waiting s))
              (responses s ++ answer op r (waiting s))
      else s
  end.

Definition run (s : sw) (ts : list turn) : sw := fold_left step ts s.

(** The refreshes that are past the rate-limit test and not settled: each
    of them runs, or is about to run, its tab operations. *)
Definition provisioning (s : sw) : list operation :=
  List.filter op_passed (pending s).

Definition is_alarm (t : turn) : bool :=
  match t with OnAlarm _ => true | _ => false end.

End Listeners.

(* ===================================================================== *)
(** * Properties of the preference reader *)
(* ===================================================================== *)

(** The flag that [getPrefs] tests: the stored [autoRefreshExplicit], or
    its default when the stored object lacks the key. *)
Definition explicit_flag (slot : sync_slot) : Js.value :=
  autoRefreshExplicit (spread_over_defaults (stored_object slot)).

Lemma readers_agree (slot : sync_slot) : UI.getPrefs slot = Background.getPrefs slot.
Proof. reflexivity. Qed.

Lemma getPrefs_keeps_explicit (slot : sync_slot) :
  autoRefreshExplicit (Background.getPrefs slot) = explicit_flag slot.
Proof.
  unfold Background.getPrefs, explicit_flag.
  destruct (negb _); reflexivity.
Qed.

(** C9.  Whenever the stored preferences do not carry a truthy
    [autoRefreshExplicit] (stored [false], or missing and therefore the
    default [false]), the preferences that [getPrefs] returns have
    [autoRefresh = false], whatever [autoRefresh] was stored; this holds for
    the reader of the worker, for the reader of the popup, and for the
    preferences that the worker's awaited [getPrefs()] resolves to. *)
Theorem getPrefs_forces_autoRefresh_off (slot : sync_slot) :
  Js.truthy (explicit_flag slot) = false ->
  autoRefresh (Background.getPrefs slot) = Js.VBool false /\
  autoRefresh (UI.getPrefs slot) = Js.VBool false /\
  forall w s p,
    Platform.storage_sync_get w = Platform.Returned slot ->
    Platform.out (Worker.getPrefs w s) = Platform.Returned p ->
    autoRefresh p = Js.VBool false.
Proof.
  intros Hflag.
  assert (Hbg : autoRefresh (Background.getPrefs slot) = Js.VBool false).
  { unfold Background.getPrefs. fold (explicit_flag slot). rewrite Hflag. reflexivity. }
  split; [exact Hbg|]. split; [rewrite readers_agree; exact Hbg|].
  intros w s p Hget Hout.
  unfold Worker.getPrefs, Platform.bind, Platform.call in Hout. simpl in Hout.
  rewrite Hget in Hout. simpl in Hout. inversion Hout; subst. exact Hbg.
Qed.

(** An older stored state: auto refresh on, never explicitly enabled. *)
Definition legacy_slot : sync_slot :=
  SlotObject (StoredPrefs (Some (Js.VBool true)) (Some (Js.VBool false))
                          (Some (Js.VNumber 10)) None).

Lemma getPrefs_forces_autoRefresh_off_witness :
  Js.truthy (explicit_flag legacy_slot) = false /\
  autoRefresh (Background.getPrefs legacy_slot) = Js.VBool false /\
  autoRefresh (UI.getPrefs legacy_slot) = Js.VBool false.
Proof.
  split; [reflexivity|].
  destruct (getPrefs_forces_autoRefresh_off legacy_slot eq_refl) as [H1 [H2 _]].
  split; [exact H1 | exact H2].
Defined.

(** With the explicit opt-in the stored choice is kept. *)
Example getPrefs_keeps_opt_in :
  autoRefresh (Background.getPrefs
    (SlotObject (StoredPrefs (Some (Js.VBool true)) (Some (Js.VBool true)) None None)))
  = Js.VBool true.
Proof. reflexivity. Qed.

(* ===================================================================== *)
(** * Properties of the DOM extractor *)
(* ===================================================================== *)

Section ExtractorFacts.
Import Dom Extractor.

(** A dashboard page that shows the balance and nothing else yet. *)
Definition page_balance_only : page :=
  {| pathname := "/dashboard";
     href := "https://www.right.codes/dashboard";
     title := "Right Code";
     document_body := Some (Body "余额: $12.50" "余额: $12.50");
     main_el := Some "
        余额:  $12.50 ";
     root_el := None;
     settled_body := Some (Body "余额: $12.50" "余额: $12.50");
     late_pathname := "/dashboard";
     late_body := Some (Body "余额: $12.50" "余额: $12.50");
     sub_grid := None;
     totals_grid := None;
     fault := None |}.

Definition empty_snapshot_with (fetchedAt : Z) (p : page) (m : string) : snapshot :=
  {| snap_fetchedAt := fetchedAt;
     snap_url := href p;
     snap_title := title p;
     snap_balance := Balance (Some (String "$"%char m)) (Some (NumberOf m));
     subscriptions := [];
     totals := ∅ |}.

Lemma extract_without_fault (t : Z) (p : page) :
  fault p = None -> extractRightCodesDashboard t p = extract t p.
Proof. intros H. unfold extractRightCodesDashboard. rewrite H. reflexivity. Qed.

(** The exit with [dashboard_data_not_ready] needs all three parts empty. *)
Lemma not_ready_needs_no_balance (t : Z) (p : page) :
  extract t p = Failure "dashboard_data_not_ready" t ->
  exists main,
    main_or_root p = Some main /\
    Text.balance_match (Text.normalize (Some (main_text_source p main))) = None /\
    parse_subscriptions (sub_grid p) = [] /\
    parse_totals (totals_grid p) = ∅.
Proof.
  unfold extract.
  destruct (starts_with (pathname p) "/login"); [discriminate|].
  destruct (says_too_many_requests (body_text p)); [discriminate|].
  destruct (main_or_root p) as [main|].
  2:{ destruct (says_too_many_requests (late_body_text p)); [discriminate|].
      destruct (_ || _ || _)%bool; discriminate. }
  intros H. exists main. split; [reflexivity|].
  unfold parse_balance in H.
  destruct (Text.balance_match _) as [m|] eqn:Hm.
  - simpl in H. discriminate.
  - simpl in H.
    destruct (parse_subscriptions (sub_grid p)) as [|x l] eqn:Hs; simpl in H; [|discriminate].
    destruct (Nat.eqb (size (parse_totals (totals_grid p))) 0) eqn:Hz; [|discriminate].
    apply Nat.eqb_eq in Hz. apply map_size_empty_inv in Hz.
    repeat split; assumption.
Qed.

(** C8, as the code has it.  A page that is read without an exception, past
    the login and rate-limit tests, whose main content matches the balance
    pattern, with no subscription grid and no totals grid, is extracted as a
    success: the snapshot holds the balance, no subscription and no total.
    Of the pages read without an exception, [dashboard_data_not_ready] is
    the answer only for those whose balance, subscriptions and totals are
    all missing. *)
Theorem balance_alone_is_a_snapshot (t : Z) (p : page) (main m : string) :
  fault p = None ->
  starts_with (pathname p) "/login" = false ->
  says_too_many_requests (body_text p) = false ->
  main_or_root p = Some main ->
  Text.balance_match (Text.normalize (Some (main_text_source p main))) = Some m ->
  sub_grid p = None ->
  totals_grid p = None ->
  extractRightCodesDashboard t p = Success (empty_snapshot_with t p m) /\
  extractRightCodesDashboard t p <> Failure "dashboard_data_not_ready" t /\
  forall p',
    fault p' = None ->
    extractRightCodesDashboard t p' = Failure "dashboard_data_not_ready" t ->
    exists main',
      main_or_root p' = Some main' /\
      Text.balance_match (Text.normalize (Some (main_text_source p' main'))) = None /\
      parse_subscriptions (sub_grid p') = [] /\
      parse_totals (totals_grid p') = ∅.
Proof.
  intros Hfault Hlogin Hlimit Hmain Hbal Hsub Htot.
  assert (Hrun : extractRightCodesDashboard t p = Success (empty_snapshot_with t p m)).
  { rewrite (extract_without_fault t p Hfault). unfold extract.
    rewrite Hlogin, Hlimit, Hmain. unfold parse_balance. rewrite Hbal, Hsub, Htot.
    reflexivity. }
  split; [exact Hrun|]. split.
  - rewrite Hrun. discriminate.
  - intros p' Hfault' Hnot. rewrite (extract_without_fault t p' Hfault') in Hnot.
    apply not_ready_needs_no_balance with (t := t). exact Hnot.
Qed.

Lemma balance_alone_is_a_snapshot_witness :
  extractRightCodesDashboard 1700000000000 page_balance_only
  = Success (empty_snapshot_with 1700000000000 page_balance_only "12.50").
Proof.
  apply (balance_alone_is_a_snapshot 1700000000000 page_balance_only "
        余额:  $12.50 " "12.50"); reflexivity.
Defined.

(** C8, as the claim has it, fails: the page exposes the balance "$12.50",
    has neither grid, and the extractor does not answer
    [dashboard_data_not_ready]. *)
Lemma balance_alone_is_not_not_ready :
  Text.balance_match (Text.normalize (main_el page_balance_only)) = Some "12.50" /\
  sub_grid page_balance_only = None /\
  totals_grid page_balance_only = None /\
  extractRightCodesDashboard 0 page_balance_only <> Failure "dashboard_data_not_ready" 0 /\
  exists d, extractRightCodesDashboard 0 page_balance_only = Success d /\
            bal_raw (snap_balance d) = Some "$12.50".
Proof.
  repeat split.
  - intros H. discriminate H.
  - eexists. split; reflexivity.
Qed.

(** The page loses its main element while the extractor waits for it, and
    by then shows the message of the rate limiter. *)
Definition page_limited_late : page :=
  {| pathname := "/dashboard";
     href := "https://www.right.codes/dashboard";
     title := "Right Code";
     document_body := Some (Body "Loading" "Loading");
     main_el := None;
     root_el := None;
     settled_body := None;
     late_pathname := "/dashboard";
     late_body := Some (Body "Too Many Requests" "Too Many Requests");
     sub_grid := None;
     totals_grid := None;
     fault := None |}.

(** The exits after the wait, and the [catch] clause. *)
Example late_exits :
  extractRightCodesDashboard 0 page_limited_late = Failure "too_many_requests" 0 /\
  extractRightCodesDashboard 0
    (Page "/dashboard" "" "" None None None None "/login" None None None None)
  = Failure "auth_required" 0 /\
  extractRightCodesDashboard 0
    (Page "/dashboard" "" "" None None None None "/dashboard" None None None
          (Some (Js.Error "Cannot read properties of null")))
  = Failure "Cannot read properties of null" 0.
Proof. split; [|split]; reflexivity. Qed.

(** The results of the extractor on a page read without an exception: a
    snapshot, or one of four codes. *)
Lemma extractor_results (t : Z) (p : page) :
  fault p = None ->
  (exists d, extractRightCodesDashboard t p = Success d) \/
  extractRightCodesDashboard t p = Failure "auth_required" t \/
  extractRightCodesDashboard t p = Failure "too_many_requests" t \/
  extractRightCodesDashboard t p = Failure "main_not_found" t \/
  extractRightCodesDashboard t p = Failure "dashboard_data_not_ready" t.
Proof.
  intros Hfault. rewrite (extract_without_fault t p Hfault). unfold extract.
  destruct (starts_with (pathname p) "/login"); [auto|].
  destruct (says_too_many_requests (body_text p)); [auto|].
  destruct (main_or_root p) as [main|].
  - destruct (_ && _ && _)%bool; [auto 6 | left; eauto].
  - destruct (says_too_many_requests (late_body_text p)); [auto|].
    destruct (_ || _ || _)%bool; auto 6.
Qed.

(** On these results, the test of the result-level retry holds exactly of
    the codes [main_not_found] and [dashboard_data_not_ready], and the test
    of the remote cooldown exactly of the code [too_many_requests]. *)
Lemma tests_on_extractor_results (t : Z) (p : page) :
  fault p = None ->
  let v := Some (extractRightCodesDashboard t p) in
  (Worker.retryableResult v = true <->
   extractRightCodesDashboard t p = Failure "main_not_found" t \/
   extractRightCodesDashboard t p = Failure "dashboard_data_not_ready" t) /\
  (Worker.says_remote_limit (Worker.detail_text (Worker.detail_of v)) = true <->
   extractRightCodesDashboard t p = Failure "too_many_requests" t).
Proof.
  intros Hfault. cbv zeta.
  destruct (extractor_results t p Hfault) as [[d H] | [H | [H | [H | H]]]]; rewrite H;
    (split; split; intros Hc;
     first [ reflexivity
           | left; reflexivity
           | right; reflexivity
           | discriminate Hc
           | destruct Hc as [Hc | Hc]; discriminate Hc
           | vm_compute in Hc; discriminate Hc ]).
Qed.

(** What a snapshot is made of. *)
Lemma success_parts (t : Z) (p : page) (d : snapshot) :
  extractRightCodesDashboard t p = Success d ->
  fault p = None /\
  starts_with (pathname p) "/login" = false /\
  says_too_many_requests (body_text p) = false /\
  subscriptions d = parse_subscriptions (sub_grid p) /\
  totals d = parse_totals (totals_grid p) /\
  snap_fetchedAt d = t /\ snap_url d = href p /\ snap_title d = title p /\
  (balance_missing (snap_balance d) &&
   Nat.eqb (List.length (subscriptions d)) 0 && Nat.eqb (size (totals d)) 0)%bool = false /\
  exists main,
    main_or_root p = Some main /\
    snap_balance d = parse_balance (Text.normalize (Some (main_text_source p main))).
Proof.
  unfold extractRightCodesDashboard.
  destruct (fault p) as [err|]; [discriminate|]. unfold extract.
  destruct (starts_with (pathname p) "/login"); [discriminate|].
  destruct (says_too_many_requests (body_text p)); [discriminate|].
  destruct (main_or_root p) as [main|].
  2:{ destruct (says_too_many_requests (late_body_text p)); [discriminate|].
      destruct (_ || _ || _)%bool; discriminate. }
  destruct (_ && _ && _)%bool eqn:Hempty; [discriminate|].
  intros H. inversion H; subst; clear H.
  cbn [snap_fetchedAt snap_url snap_title snap_balance subscriptions totals].
  do 8 (split; [reflexivity|]). split; [exact Hempty|].
  exists main. split; reflexivity.
Qed.

End ExtractorFacts.

Section QuotaShape.
Import Dom Extractor.

Definition quota_label : string := "剩余额度".

(** The row carries the label [l] and a value element. *)
Definition row_is (l : string) (r : row) : Prop :=
  Text.normalize (row_label r) = l /\ exists v, row_value r = Some v.

(** The row that the loop stores under the quota label, with its text. *)
Definition quota_row (r : row) (raw : string) : Prop :=
  Text.normalize (row_label r) = quota_label /\
  exists v, row_value r = Some v /\ Text.normalize (Some (ve_text v)) = raw.

Lemma add_row_other (m : gmap string label_value) (r : row) (k : string) :
  ~ row_is k r -> add_row m r !! k = m !! k.
Proof.
  intros Hno. unfold add_row.
  destruct (negb (Text.nonempty (Text.normalize (row_label r)))); [reflexivity|].
  destruct (row_value r) as [v|] eqn:Hv; [|reflexivity].
  assert (Hne : Text.normalize (row_label r) <> k).
  { intros Heq. apply Hno. split; [exact Heq | eauto]. }
  destruct (String.eqb _ _); rewrite lookup_insert_ne; auto.
Qed.

Lemma label_map_other (rows : list row) (m : gmap string label_value) (k : string) :
  Forall (fun r => ~ row_is k r) rows ->
  fold_left add_row rows m !! k = m !! k.
Proof.
  revert m. induction rows as [|r rows IH]; intros m Hall; simpl; [reflexivity|].
  inversion Hall as [|? ? Hr Hrest]; subst.
  rewrite IH by assumption. apply add_row_other. exact Hr.
Qed.

Lemma add_row_quota_text (m : gmap string label_value) (r : row) (raw : string) :
  add_row m r !! quota_label = Some (LText raw) ->
  m !! quota_label = Some (LText raw) \/ quota_row r raw.
Proof.
  unfold add_row.
  destruct (negb (Text.nonempty (Text.normalize (row_label r)))); [auto|].
  destruct (row_value r) as [v|] eqn:Hv; [|auto].
  destruct (String.eqb (Text.normalize (row_label r)) "可用端点") eqn:Hep.
  - apply String.eqb_eq in Hep.
    rewrite lookup_insert_ne; [auto|]. rewrite Hep. discriminate.
  - destruct (decide (Text.normalize (row_label r) = quota_label)) as [Heq|Hne].
    + rewrite Heq, lookup_insert_eq. intros H. inversion H; subst.
      right. split; [exact Heq|]. exists v. split; [exact Hv | reflexivity].
    + rewrite lookup_insert_ne by exact Hne. auto.
Qed.

Lemma label_map_quota_text (rows : list row) (m : gmap string label_value) (raw : string) :
  fold_left add_row rows m !! quota_label = Some (LText raw) ->
  m !! quota_label = Some (LText raw) \/ exists r, In r rows /\ quota_row r raw.
Proof.
  revert m. induction rows as [|r rows IH]; intros m H; simpl in *; [auto|].
  apply IH in H. destruct H as [H | [r' [Hin Hq]]].
  - apply add_row_quota_text in H. destruct H as [H | H]; [auto|].
    right. exists r. auto.
  - right. exists r'. auto.
Qed.

(** Under a label other than 可用端点 the map holds a text. *)
Lemma parse_quota_shapes (q : option label_value) :
  parse_quota q = None \/
  (exists raw, q = Some (LText raw) /\ Text.quota_match raw = None /\
               parse_quota q = Some (QuotaRaw raw)) \/
  (exists raw m1 m2, q = Some (LText raw) /\ Text.quota_match raw = Some (m1, m2) /\
               parse_quota q = Some (QuotaParsed (NumberOf m1) (NumberOf m2) "$" raw)).
Proof.
  destruct q as [[raw|l]|]; simpl; auto.
  destruct (Text.quota_match raw) as [[m1 m2]|] eqn:Hm.
  - right. right. exists raw, m1, m2. auto.
  - right. left. exists raw. auto.
Qed.

Lemma parse_card_quota (c : card) (s : subscription) :
  parse_card c = Some s ->
  c_rows c <> [] /\ sub_quota s = parse_quota (label_map (c_rows c) !! quota_label).
Proof.
  unfold parse_card. destruct (c_rows c) as [|r rows] eqn:Hrows; [discriminate|].
  intros H. inversion H; subst; clear H. split; [discriminate | reflexivity].
Qed.

Lemma parse_card_emits (c : card) :
  c_rows c <> [] -> exists s, parse_card c = Some s.
Proof.
  unfold parse_card. destruct (c_rows c) as [|r rows]; [congruence|]. eauto.
Qed.

Lemma omap_keeps {A B} (f : A -> option B) (l : list A) (a : A) (b : B) :
  In a l -> f a = Some b -> In b (omap f l).
Proof.
  intros Hin Hf. apply list_elem_of_In, list_elem_of_omap.
  exists a. split; [apply list_elem_of_In; exact Hin | exact Hf].
Qed.

(** C10.  A card with at least one row and no row stored under 剩余额度
    yields a subscription record, which the extractor puts into the
    snapshot, and the quota of that record is [null]: neither the parsed
    form nor the raw-only form.  A record has the raw-only form only when a
    row of the card is stored under 剩余额度 and its normalized text, the
    [raw] of the record, does not match the "$X / $Y" pattern. *)
Theorem quota_null_without_quota_row (c : card) :
  c_rows c <> [] ->
  Forall (fun r => ~ row_is quota_label r) (c_rows c) ->
  (exists s, parse_card c = Some s /\ sub_quota s = None /\
     forall t p cards d,
       sub_grid p = Some cards -> In c cards ->
       extractRightCodesDashboard t p = Success d ->
       In s (subscriptions d)) /\
  (forall c' s raw,
     parse_card c' = Some s -> sub_quota s = Some (QuotaRaw raw) ->
     Text.quota_match raw = None /\ exists r, In r (c_rows c') /\ quota_row r raw).
Proof.
  intros Hrows Hnone. split.
  - destruct (parse_card_emits c Hrows) as [s Hs].
    exists s. split; [exact Hs|]. split.
    + destruct (parse_card_quota c s Hs) as [_ Hq]. rewrite Hq. unfold label_map.
      rewrite (label_map_other (c_rows c) ∅ quota_label Hnone).
      rewrite lookup_empty. reflexivity.
    + intros t p cards d Hgrid Hin Hrun.
      apply success_parts in Hrun. destruct Hrun as [_ [_ [_ [Hsubs _]]]].
      rewrite Hsubs, Hgrid. simpl. eapply omap_keeps; eauto.
  - intros c' s raw Hs Hq.
    destruct (parse_card_quota c' s Hs) as [_ Hshape]. rewrite Hshape in Hq.
    destruct (parse_quota_shapes (label_map (c_rows c') !! quota_label))
      as [H | [[raw' [Hl [Hm H]]] | [raw' [m1 [m2 [Hl [Hm H]]]]]]];
      rewrite H in Hq; try discriminate.
    inversion Hq; subst. split; [exact Hm|].
    unfold label_map in Hl.
    apply label_map_quota_text in Hl. destruct Hl as [Hl | Hl]; [|exact Hl].
    rewrite lookup_empty in Hl. discriminate.
Qed.

(** A card with a name, a days row and an expiry row, and no quota row. *)
Definition card_without_quota : card :=
  {| c_purple := Some " Pro 套餐 ";
     c_semibold := None;
     c_rows := [Row (Some "剩余天数") (Some (ValueEl "12 天" []));
                Row (Some "到期时间") (Some (ValueEl "2026-01-01" []))];
     c_used_text := Some "40%";
     c_progress := None |}.

Lemma quota_null_without_quota_row_witness :
  exists s, parse_card card_without_quota = Some s /\ sub_quota s = None.
Proof.
  assert (Hrows : c_rows card_without_quota <> []) by discriminate.
  assert (Hnone : Forall (fun r => ~ row_is quota_label r) (c_rows card_without_quota)).
  { repeat constructor; intros [H _]; vm_compute in H; discriminate. }
  destruct (quota_null_without_quota_row card_without_quota Hrows Hnone)
    as [[s [Hs [Hq _]]] _].
  exists s. split; [exact Hs | exact Hq].
Defined.

Example quota_unparsed_is_raw_only :
  parse_quota (Some (LText "无限制")) = Some (QuotaRaw "无限制").
Proof. reflexivity. Qed.

Example quota_parsed :
  parse_quota (Some (LText "$3.20 / $10.00"))
  = Some (QuotaParsed (NumberOf "3.20") (NumberOf "10.00") "$" "$3.20 / $10.00").
Proof. reflexivity. Qed.

End QuotaShape.

(* ===================================================================== *)
(** * Properties of the retry drivers *)
(* ===================================================================== *)

Section Drivers.
Import Platform Worker.

Variable w : world.

(** How the injection attempt at position [i] ends: [chrome.tabs.get],
    the test of the tab, [chrome.scripting.executeScript]. *)
Definition attempt_answer (i : nat) : outcome (option Extractor.result) :=
  match tabs_get w i with
  | Thrown e => Thrown e
  | Returned None => Thrown (Js.Error "tab_not_found")
  | Returned (Some _) => execute_script w i
  end.

(** The attempt at position [i] throws a transient frame-loss failure. *)
Definition transient (i : nat) : bool :=
  match attempt_answer i with
  | Thrown e => retryable e
  | Returned _ => false
  end.

(** The delays of a run, in order. *)
Fixpoint sleeps (evs : list event) : list Z :=
  match evs with
  | [] => []
  | Sleep ms :: evs' => ms :: sleeps evs'
  | _ :: evs' => sleeps evs'
  end.

(** The number of injection attempts of a run. *)
Fixpoint attempts_in (evs : list event) : nat :=
  match evs with
  | [] => 0
  | TabsGet _ :: evs' => S (attempts_in evs')
  | _ :: evs' => attempts_in evs'
  end.

(** The calls that the drivers make. *)
Definition driver_event (ev : event) : Prop :=
  match ev with
  | Sleep _ | TabsGet _ | ExecuteScript _ => True
  | _ => False
  end.

Definition advance (s : state) (n : nat) : state :=
  State (g s) (ticks s) (injections s + n) (local_sets s).

Lemma sleeps_app (a b : list event) : sleeps (a ++ b) = (sleeps a ++ sleeps b)%list.
Proof.
  induction a as [|ev a IH]; [reflexivity|].
  destruct ev; simpl; rewrite ?IH; reflexivity.
Qed.

Lemma attempts_in_app (a b : list event) :
  attempts_in (a ++ b) = (attempts_in a + attempts_in b)%nat.
Proof.
  induction a as [|ev a IH]; [reflexivity|].
  destruct ev; simpl; rewrite ?IH; reflexivity.
Qed.

Lemma advance_advance (s : state) (n m : nat) :
  advance (advance s n) m = advance s (n + m).
Proof. unfold advance. simpl. f_equal. lia. Qed.

(** One attempt: a step forward in the answers, one [tabs.get], no delay. *)
Lemma inject_once_run (tabId : Z) (s : state) :
  let r := inject_once w tabId s in
  out r = attempt_answer (injections s) /\
  final r = advance s 1 /\
  sleeps (calls r) = [] /\
  attempts_in (calls r) = 1%nat /\
  Forall driver_event (calls r).
Proof.
  unfold inject_once, attempt_answer, bind, next_injection, call, throw, advance.
  simpl.
  assert (Hs : S (injections s) = (injections s + 1)%nat) by lia.
  destruct (tabs_get w (injections s)) as [[t|]|e]; simpl; rewrite Hs;
    repeat split; repeat constructor.
Qed.

Lemma seq_shift_sleeps (attempt n : nat) :
  (1 <= n)%nat ->
  220 * Z.of_nat attempt :: List.map (fun k => 220 * Z.of_nat k) (seq (S attempt) (n - 1))
  = List.map (fun k => 220 * Z.of_nat k) (seq attempt (S n - 1)).
Proof.
  intros Hn. replace (S n - 1)%nat with (S (n - 1)) by lia. reflexivity.
Qed.

(** The loop of [executeExtractWithRetry] from any turn [attempt] with
    [left] turns to go. *)
Lemma extract_loop_run (tabId : Z) (maxAttempts : nat) :
  forall (left attempt : nat) (lastErr : option Js.exn) (s : state),
    (1 <= left)%nat -> (attempt + left = S maxAttempts)%nat ->
    let r := extract_loop w left tabId maxAttempts attempt lastErr s in
    exists n,
      (1 <= n <= left)%nat /\
      final r = advance s n /\
      attempts_in (calls r) = n /\
      sleeps (calls r) = List.map (fun k => 220 * Z.of_nat k) (seq attempt (n - 1)) /\
      (forall k, (k < n - 1)%nat -> transient (injections s + k) = true) /\
      out r = attempt_answer (injections s + (n - 1)) /\
      ((n < left)%nat -> transient (injections s + (n - 1)) = false) /\
      Forall driver_event (calls r).
Proof.
  induction left as [|left IH]; intros attempt lastErr s Hleft Hsum; [lia|].
  cbn [extract_loop].
  assert (Hle : (attempt <=? maxAttempts)%nat = true) by (apply Nat.leb_le; lia).
  rewrite Hle. unfold try_catch.
  destruct (inject_once_run tabId s) as [Hout [Hfin [Hsl [Hat Hev]]]].
  destruct (inject_once w tabId s) as [o f c]. simpl in Hout, Hfin, Hsl, Hat, Hev.
  cbn [out final calls]. subst o f.
  destruct (attempt_answer (injections s)) as [v|e] eqn:Hans.
  - (* the attempt returned *)
    exists 1%nat. simpl. replace (injections s + 0)%nat with (injections s) by lia.
    repeat split; auto; try lia.
    unfold transient. rewrite Hans. reflexivity.
  - destruct (negb (retryable e) || (attempt =? maxAttempts)%nat)%bool eqn:Hstop.
    + (* the failure is re-raised *)
      exists 1%nat. unfold rethrow, throw. simpl.
      replace (injections s + 0)%nat with (injections s) by lia.
      rewrite app_nil_r.
      repeat split; auto; try lia.
      intros Hlt. unfold transient. rewrite Hans.
      apply orb_true_iff in Hstop. destruct Hstop as [Hstop | Hstop].
      * apply negb_true_iff in Hstop. exact Hstop.
      * apply Nat.eqb_eq in Hstop. lia.
    + (* a delay, then the next turn *)
      apply orb_false_iff in Hstop. destruct Hstop as [Hretry Hmore].
      apply negb_false_iff in Hretry. apply Nat.eqb_neq in Hmore.
      assert (Hleft' : (1 <= left)%nat) by lia.
      assert (Hsum' : (S attempt + left = S maxAttempts)%nat) by lia.
      specialize (IH (S attempt) (Some e) (advance s 1) Hleft' Hsum').
      destruct IH as [n [Hn [Hfin' [Hat' [Hsl' [Htr [Hout' [Hlast Hev']]]]]]]].
      exists (S n). unfold bind, sleep, log. cbn [out final calls].
      destruct (extract_loop w left tabId maxAttempts (S attempt) (Some e) (advance s 1))
        as [o' f' c']. cbn [out final calls] in *. subst f'.
      replace (injections (advance s 1) + (n - 1))%nat
        with (injections s + (S n - 1))%nat in * by (unfold advance; simpl; lia).
      repeat split; try lia.
      * rewrite advance_advance. reflexivity.
      * rewrite !attempts_in_app, Hat, Hat'. reflexivity.
      * rewrite !sleeps_app, Hsl, Hsl'. simpl. apply seq_shift_sleeps. lia.
      * intros k Hk. destruct k as [|k].
        -- replace (injections s + 0)%nat with (injections s) by lia.
           unfold transient. rewrite Hans. exact Hretry.
        -- replace (injections s + S k)%nat with (injections (advance s 1) + k)%nat
             by (unfold advance; simpl; lia).
           apply Htr. lia.
      * exact Hout'.
      * intros Hlt. apply Hlast. lia.
      * apply Forall_app. split; [exact Hev|]. constructor; [exact I | exact Hev'].
Qed.

(** The run of [executeExtractWithRetry] with its default cap. *)
Lemma executeExtractWithRetry_run (tabId : Z) (s : state) :
  let r := executeExtractWithRetry w tabId 4 s in
  exists n,
    (1 <= n <= 4)%nat /\
    final r = advance s n /\
    attempts_in (calls r) = n /\
    sleeps (calls r) = List.map (fun k => 220 * Z.of_nat k) (seq 1 (n - 1)) /\
    (forall k, (k < n - 1)%nat -> transient (injections s + k) = true) /\
    out r = attempt_answer (injections s + (n - 1)) /\
    ((n < 4)%nat -> transient (injections s + (n - 1)) = false).
Proof.
  intros r.
  destruct (extract_loop_run tabId 4 4 1 None s) as [n H]; [lia | lia |].
  fold (executeExtractWithRetry w tabId 4) in H. fold r in H.
  exists n. intuition.
Qed.

(** The driver leaves the globals, the clock and the storage alone. *)
Lemma executeExtractWithRetry_frame (tabId : Z) (s : state) :
  let r := executeExtractWithRetry w tabId 4 s in
  g (final r) = g s /\ ticks (final r) = ticks s /\
  local_sets (final r) = local_sets s /\
  (injections s <= injections (final r))%nat /\
  Forall driver_event (calls r).
Proof.
  intros r.
  destruct (extract_loop_run tabId 4 4 1 None s) as [n H]; [lia | lia |].
  fold (executeExtractWithRetry w tabId 4) in H. fold r in H.
  destruct H as [_ [Hfin [_ [_ [_ [_ [_ Hev]]]]]]].
  rewrite Hfin. unfold advance. simpl. repeat split; auto. lia.
Qed.

(** A non-matching failure at the first attempt: no second attempt. *)
Lemma executeExtractWithRetry_raises_at_once (tabId : Z) (s : state) (e : Js.exn) :
  attempt_answer (injections s) = Thrown e ->
  retryable e = false ->
  let r := executeExtractWithRetry w tabId 4 s in
  out r = Thrown e /\ attempts_in (calls r) = 1%nat /\ sleeps (calls r) = [].
Proof.
  intros Hans Hno r.
  destruct (executeExtractWithRetry_run tabId s)
    as [n [Hn [_ [Hat [Hsl [Htr [Hout _]]]]]]].
  fold r in Hat, Hsl, Hout.
  assert (Hone : n = 1%nat).
  { destruct (Nat.eq_dec n 1) as [|Hne]; [assumption|].
    assert (Hk : (0 < n - 1)%nat) by lia.
    specialize (Htr 0%nat Hk).
    replace (injections s + 0)%nat with (injections s) in Htr by lia.
    unfold transient in Htr. rewrite Hans in Htr. congruence. }
  rewrite Hone in Hat, Hsl, Hout. cbn [Nat.sub seq List.map] in Hsl, Hout.
  replace (injections s + 0)%nat with (injections s) in Hout by lia.
  rewrite Hout, Hat, Hsl. auto.
Qed.

(** Transient failures at all four attempts: the fourth error comes out. *)
Lemma executeExtractWithRetry_exhausted (tabId : Z) (s : state) (e : Js.exn) :
  (forall k, (k < 4)%nat -> transient (injections s + k) = true) ->
  attempt_answer (injections s + 3) = Thrown e ->
  let r := executeExtractWithRetry w tabId 4 s in
  out r = Thrown e /\ attempts_in (calls r) = 4%nat /\ sleeps (calls r) = [220; 440; 660].
Proof.
  intros Hall Hlast r.
  destruct (executeExtractWithRetry_run tabId s)
    as [n [Hn [_ [Hat [Hsl [_ [Hout Hstop]]]]]]].
  fold r in Hat, Hsl, Hout.
  assert (Hfour : n = 4%nat).
  { destruct (Nat.eq_dec n 4) as [|Hne]; [assumption|].
    assert (Hlt : (n < 4)%nat) by lia.
    specialize (Hstop Hlt). rewrite Hall in Hstop by lia. discriminate. }
  rewrite Hfour in Hat, Hsl, Hout. cbn [Nat.sub seq List.map] in Hsl, Hout.
  rewrite Hout, Hat, Hsl, Hlast. auto.
Qed.

(** C6.  [executeExtractWithRetry] with its default cap makes [n] injection
    attempts with [1 <= n <= 4]; every attempt that is followed by another
    threw a failure whose message carries a transient frame-loss signature;
    the delays between the attempts are 220ms, 440ms, 660ms in this order
    (220ms times the number of the attempt just failed); the driver ends as
    its last attempt ended, returning its value or re-raising its error; it
    stops before the fourth attempt only on an attempt that is not a
    transient failure.  So a failure without a signature is re-raised at
    once, with no delay and no further attempt, and a fourth transient
    failure is re-raised after the delays 220, 440, 660. *)
Theorem executeExtractWithRetry_bounded (tabId : Z) (s : state) :
  let r := executeExtractWithRetry w tabId 4 s in
  (exists n,
     (1 <= n <= 4)%nat /\
     final r = advance s n /\
     attempts_in (calls r) = n /\
     sleeps (calls r) = List.map (fun k => 220 * Z.of_nat k) (seq 1 (n - 1)) /\
     (forall k, (k < n - 1)%nat -> transient (injections s + k) = true) /\
     out r = attempt_answer (injections s + (n - 1)) /\
     ((n < 4)%nat -> transient (injections s + (n - 1)) = false)) /\
  (forall e,
     attempt_answer (injections s) = Thrown e -> retryable e = false ->
     out r = Thrown e /\ attempts_in (calls r) = 1%nat /\ sleeps (calls r) = []) /\
  (forall e,
     (forall k, (k < 4)%nat -> transient (injections s + k) = true) ->
     attempt_answer (injections s + 3) = Thrown e ->
     out r = Thrown e /\ attempts_in (calls r) = 4%nat /\
     sleeps (calls r) = [220; 440; 660]).
Proof.
  intros r. split; [|split].
  - apply executeExtractWithRetry_run.
  - intros e Hans Hno. apply executeExtractWithRetry_raises_at_once; assumption.
  - intros e Hall Hlast. apply executeExtractWithRetry_exhausted; assumption.
Qed.

(** What the injection at position [i] returned, when it returned. *)
Definition script_result (i : nat) : option Extractor.result :=
  match attempt_answer i with
  | Returned v => v
  | Thrown _ => None
  end.

(** From position [i] on, every injection attempt returns a result. *)
Definition injections_return_from (i : nat) : Prop :=
  forall j, (i <= j)%nat -> exists v, attempt_answer j = Returned v.

(** The result asks for another try. *)
Definition not_ready (i : nat) : bool :=
  (negb (result_ok (script_result i)) && retryableResult (script_result i))%bool.

Lemma executeExtractWithRetry_returns (tabId : Z) (s : state) (v : option Extractor.result) :
  attempt_answer (injections s) = Returned v ->
  let r := executeExtractWithRetry w tabId 4 s in
  out r = Returned v /\ final r = advance s 1 /\
  attempts_in (calls r) = 1%nat /\ sleeps (calls r) = [].
Proof.
  intros Hans r.
  destruct (executeExtractWithRetry_run tabId s)
    as [n [Hn [Hfin [Hat [Hsl [Htr [Hout _]]]]]]].
  fold r in Hfin, Hat, Hsl, Hout.
  assert (Hone : n = 1%nat).
  { destruct (Nat.eq_dec n 1) as [|Hne]; [assumption|].
    assert (Hk : (0 < n - 1)%nat) by lia.
    specialize (Htr 0%nat Hk).
    replace (injections s + 0)%nat with (injections s) in Htr by lia.
    unfold transient in Htr. rewrite Hans in Htr. discriminate. }
  rewrite Hone in Hfin, Hat, Hsl, Hout. cbn [Nat.sub seq List.map] in Hsl, Hout.
  replace (injections s + 0)%nat with (injections s) in Hout by lia.
  rewrite Hout, Hat, Hsl. auto.
Qed.

Lemma seq_shift_result_sleeps (attempt n : nat) :
  (1 <= n)%nat ->
  300 * Z.of_nat attempt :: List.map (fun k => 300 * Z.of_nat k) (seq (S attempt) (n - 1))
  = List.map (fun k => 300 * Z.of_nat k) (seq attempt (S n - 1)).
Proof.
  intros Hn. replace (S n - 1)%nat with (S (n - 1)) by lia. reflexivity.
Qed.

(** The loop of [extractDashboardWithResultRetry] when the injections
    return. *)
Lemma result_loop_run (tabId : Z) (maxAttempts : nat) :
  forall (left attempt : nat) (lastResult : option Extractor.result) (s : state),
    (1 <= left)%nat -> (attempt + left = S maxAttempts)%nat ->
    injections_return_from (injections s) ->
    let r := result_loop w left tabId maxAttempts attempt lastResult s in
    exists n,
      (1 <= n <= left)%nat /\
      final r = advance s n /\
      attempts_in (calls r) = n /\
      sleeps (calls r) = List.map (fun k => 300 * Z.of_nat k) (seq attempt (n - 1)) /\
      (forall k, (k < n - 1)%nat -> not_ready (injections s + k) = true) /\
      out r = Returned (script_result (injections s + (n - 1))) /\
      ((n < left)%nat -> not_ready (injections s + (n - 1)) = false).
Proof.
  induction left as [|left IH]; intros attempt lastResult s Hleft Hsum Hret; [lia|].
  cbn [result_loop].
  assert (Hle : (attempt <=? maxAttempts)%nat = true) by (apply Nat.leb_le; lia).
  rewrite Hle. unfold bind.
  destruct (Hret (injections s)) as [v Hans]; [lia|].
  destruct (executeExtractWithRetry_returns tabId s v Hans) as [Hout [Hfin [Hat Hsl]]].
  destruct (executeExtractWithRetry w tabId 4 s) as [o f c].
  cbn [out final calls] in *. subst o f.
  assert (Hres : script_result (injections s) = v).
  { unfold script_result. rewrite Hans. reflexivity. }
  destruct (result_ok v) eqn:Hok.
  - exists 1%nat. unfold ret. cbn [out final calls].
    replace (injections s + (1 - 1))%nat with (injections s) by lia.
    rewrite app_nil_r, Hres.
    repeat split; auto; try lia.
    intros _. unfold not_ready. rewrite Hres, Hok. reflexivity.
  - destruct (negb (retryableResult v) || (attempt =? maxAttempts)%nat)%bool eqn:Hstop.
    + exists 1%nat. unfold ret. cbn [out final calls].
      replace (injections s + (1 - 1))%nat with (injections s) by lia.
      rewrite app_nil_r, Hres.
      repeat split; auto; try lia.
      intros Hlt. unfold not_ready. rewrite Hres, Hok.
      apply orb_true_iff in Hstop. destruct Hstop as [Hstop | Hstop].
      * apply negb_true_iff in Hstop. rewrite Hstop. reflexivity.
      * apply Nat.eqb_eq in Hstop. lia.
    + apply orb_false_iff in Hstop. destruct Hstop as [Hretry Hmore].
      apply negb_false_iff in Hretry. apply Nat.eqb_neq in Hmore.
      assert (Hleft' : (1 <= left)%nat) by lia.
      assert (Hsum' : (S attempt + left = S maxAttempts)%nat) by lia.
      assert (Hret' : injections_return_from (injections (advance s 1))).
      { intros j Hj. apply Hret. unfold advance in Hj. simpl in Hj. lia. }
      specialize (IH (S attempt) v (advance s 1) Hleft' Hsum' Hret').
      destruct IH as [n [Hn [Hfin' [Hat' [Hsl' [Htr [Hout' Hlast]]]]]]].
      exists (S n). unfold sleep, log. cbn [out final calls].
      destruct (result_loop w left tabId maxAttempts (S attempt) v (advance s 1))
        as [o' f' c']. cbn [out final calls] in *. subst f'.
      replace (injections (advance s 1) + (n - 1))%nat
        with (injections s + (S n - 1))%nat in * by (unfold advance; simpl; lia).
      repeat split; try lia.
      * rewrite advance_advance. reflexivity.
      * rewrite !attempts_in_app, Hat, Hat'. reflexivity.
      * rewrite !sleeps_app, Hsl, Hsl'. simpl. apply seq_shift_result_sleeps. lia.
      * intros k Hk. destruct k as [|k].
        -- replace (injections s + 0)%nat with (injections s) by lia.
           unfold not_ready. rewrite Hres, Hok, Hretry. reflexivity.
        -- replace (injections s + S k)%nat with (injections (advance s 1) + k)%nat
             by (unfold advance; simpl; lia).
           apply Htr. lia.
      * exact Hout'.
      * intros Hlt. apply Hlast. lia.
Qed.

(** The calls of [executeExtractWithRetry] that the result-level loop
    makes: the state in which the call number [k] (from 0) starts, and the
    run of that call. *)
Fixpoint state_before (tabId : Z) (k : nat) (s : state) : state :=
  match k with
  | O => s
  | S k' => state_before tabId k' (final (executeExtractWithRetry w tabId 4 s))
  end.

Definition call_number (tabId : Z) (k : nat) (s : state) : res (option Extractor.result) :=
  executeExtractWithRetry w tabId 4 (state_before tabId k s).

(** The test that sends the loop into another turn: the call returned a
    result that is no success and whose error names one of the codes. *)
Definition asks_again (o : outcome (option Extractor.result)) : bool :=
  match o with
  | Returned v => (negb (result_ok v) && retryableResult v)%bool
  | Thrown _ => false
  end.

(** The trace of [n] calls in a row, the first being the turn [attempt]:
    between two calls, the delay of 300 ms times the turn just ended. *)
Fixpoint joined (tabId : Z) (attempt n : nat) (s : state) : list event :=
  match n with
  | O => []
  | S n' =>
      (calls (executeExtractWithRetry w tabId 4 s) ++
       match n' with
       | O => []
       | S _ =>
           Sleep (300 * Z.of_nat attempt)
           :: joined tabId (S attempt) n' (final (executeExtractWithRetry w tabId 4 s))
       end)%list
  end.

(** The loop of [extractDashboardWithResultRetry] whatever the calls do. *)
Lemma result_loop_calls (tabId : Z) (maxAttempts : nat) :
  forall (left attempt : nat) (lastResult : option Extractor.result) (s : state),
    (1 <= left)%nat -> (attempt + left = S maxAttempts)%nat ->
    let r := result_loop w left tabId maxAttempts attempt lastResult s in
    exists n,
      (1 <= n <= left)%nat /\
      (forall k, (k < n - 1)%nat -> asks_again (out (call_number tabId k s)) = true) /\
      out r = out (call_number tabId (n - 1) s) /\
      final r = final (call_number tabId (n - 1) s) /\
      calls r = joined tabId attempt n s /\
      ((n < left)%nat -> asks_again (out (call_number tabId (n - 1) s)) = false).
Proof.
  induction left as [|left IH]; intros attempt lastResult s Hleft Hsum; [lia|].
  cbn [result_loop].
  assert (Hle : (attempt <=? maxAttempts)%nat = true) by (apply Nat.leb_le; lia).
  rewrite Hle. unfold bind.
  assert (Hzero : call_number tabId 0 s = executeExtractWithRetry w tabId 4 s)
    by reflexivity.
  assert (Hshift : forall k, call_number tabId (S k) s
                   = call_number tabId k (final (executeExtractWithRetry w tabId 4 s)))
    by reflexivity.
  assert (Hone : joined tabId attempt 1 s = calls (executeExtractWithRetry w tabId 4 s)).
  { cbn [joined]. apply app_nil_r. }
  assert (Hmore : forall n, joined tabId attempt (S (S n)) s
            = (calls (executeExtractWithRetry w tabId 4 s) ++
               Sleep (300 * Z.of_nat attempt)
               :: joined tabId (S attempt) (S n)
                    (final (executeExtractWithRetry w tabId 4 s)))%list)
    by reflexivity.
  destruct (executeExtractWithRetry w tabId 4 s) as [o f c].
  cbn [out final calls] in *.
  destruct o as [v|e].
  - destruct (result_ok v) eqn:Hok.
    + exists 1%nat. unfold ret. cbn [out final calls Nat.sub].
      rewrite Hzero, Hone, app_nil_r. cbn [out final calls asks_again].
      rewrite Hok. repeat split; auto; try lia.
    + destruct (negb (retryableResult v) || (attempt =? maxAttempts)%nat)%bool eqn:Hstop.
      * exists 1%nat. unfold ret. cbn [out final calls Nat.sub].
        rewrite Hzero, Hone, app_nil_r. cbn [out final calls asks_again].
        rewrite Hok. cbn [negb andb].
        repeat split; auto; try lia.
        intros Hlt. apply orb_true_iff in Hstop. destruct Hstop as [Hstop | Hstop].
        -- apply negb_true_iff in Hstop. exact Hstop.
        -- apply Nat.eqb_eq in Hstop. lia.
      * apply orb_false_iff in Hstop. destruct Hstop as [Hretry Hcap].
        apply negb_false_iff in Hretry. apply Nat.eqb_neq in Hcap.
        assert (Hleft' : (1 <= left)%nat) by lia.
        assert (Hsum' : (S attempt + left = S maxAttempts)%nat) by lia.
        specialize (IH (S attempt) v f Hleft' Hsum').
        destruct IH as [n [Hn [Hagain [Hout [Hfin [Hcalls Hlast]]]]]].
        exists (S n). unfold sleep, log. cbn [out final calls].
        destruct (result_loop w left tabId maxAttempts (S attempt) v f) as [o' f' c'].
        cbn [out final calls] in *.
        replace (S n - 1)%nat with (S (n - 1)) by lia.
        rewrite Hshift.
        split; [lia|]. split; [|split; [exact Hout|split; [exact Hfin|split]]].
        -- intros k Hk. destruct k as [|k].
           ++ rewrite Hzero. cbn [out asks_again]. rewrite Hok, Hretry. reflexivity.
           ++ rewrite Hshift. apply Hagain. lia.
        -- destruct n as [|n]; [lia|]. rewrite Hmore, Hcalls. reflexivity.
        -- intros Hlt. apply Hlast. lia.
  - exists 1%nat. cbn [out final calls Nat.sub].
    rewrite Hzero, Hone. cbn [out final calls asks_again].
    repeat split; auto; try lia.
Qed.

(** The two codes that ask for another try, and the other results. *)
Lemma retryableResult_codes (t : Z) :
  retryableResult (Some (Extractor.Failure "main_not_found" t)) = true /\
  retryableResult (Some (Extractor.Failure "dashboard_data_not_ready" t)) = true /\
  retryableResult (Some (Extractor.Failure "auth_required" t)) = false /\
  retryableResult (Some (Extractor.Failure "too_many_requests" t)) = false /\
  retryableResult None = false /\
  forall d, retryableResult (Some (Extractor.Success d)) = false.
Proof. repeat split. Qed.

(** C7, as the code has it.  Whatever the calls of
    [executeExtractWithRetry] do, [extractDashboardWithResultRetry] with
    its default cap makes [n] of them with [1 <= n <= 3]; every call that
    is followed by another returned a result that is no success and whose
    lower-cased error text contains [main_not_found] or
    [dashboard_data_not_ready]; between two calls lies the delay of 300 ms
    times the number of the call just ended, and nothing else; the driver
    ends as its last call ended, so a result of that call comes back as a
    value; and before the third call it stops only on a call that threw or
    returned a success or a failure whose text contains neither code.  The
    test of the code holds of the two codes themselves and fails for the
    other codes of the extractor, for a missing result and for a success.
    When every injection returns a result, each call is one injection and
    the delays of the run are 300 ms and 600 ms in this order. *)
Theorem extractDashboardWithResultRetry_bounded (tabId : Z) (s : state) :
  let r := extractDashboardWithResultRetry w tabId 3 s in
  (exists n,
     (1 <= n <= 3)%nat /\
     (forall k, (k < n - 1)%nat ->
        exists v,
          out (call_number tabId k s) = Returned v /\
          result_ok v = false /\
          (Js.includes (Js.toLowerCase (error_text v)) "main_not_found" ||
           Js.includes (Js.toLowerCase (error_text v)) "dashboard_data_not_ready")%bool
          = true) /\
     out r = out (call_number tabId (n - 1) s) /\
     final r = final (call_number tabId (n - 1) s) /\
     calls r = joined tabId 1 n s /\
     ((n < 3)%nat ->
      forall v, out (call_number tabId (n - 1) s) = Returned v ->
                result_ok v = true \/
                (Js.includes (Js.toLowerCase (error_text v)) "main_not_found" ||
                 Js.includes (Js.toLowerCase (error_text v)) "dashboard_data_not_ready")%bool
                = false)) /\
  (forall t,
     retryableResult (Some (Extractor.Failure "main_not_found" t)) = true /\
     retryableResult (Some (Extractor.Failure "dashboard_data_not_ready" t)) = true /\
     retryableResult (Some (Extractor.Failure "auth_required" t)) = false /\
     retryableResult (Some (Extractor.Failure "too_many_requests" t)) = false /\
     retryableResult None = false /\
     forall d, retryableResult (Some (Extractor.Success d)) = false) /\
  (injections_return_from (injections s) ->
   exists n,
     (1 <= n <= 3)%nat /\
     final r = advance s n /\
     attempts_in (calls r) = n /\
     sleeps (calls r) = List.map (fun k => 300 * Z.of_nat k) (seq 1 (n - 1)) /\
     (forall k, (k < n - 1)%nat ->
        result_ok (script_result (injections s + k)) = false /\
        retryableResult (script_result (injections s + k)) = true) /\
     out r = Returned (script_result (injections s + (n - 1))) /\
     ((n < 3)%nat ->
        result_ok (script_result (injections s + (n - 1))) = true \/
        retryableResult (script_result (injections s + (n - 1))) = false)).
Proof.
  intros r. split; [|split].
  - destruct (result_loop_calls tabId 3 3 1 None s) as [n H]; [lia | lia |].
    fold (extractDashboardWithResultRetry w tabId 3) in H. fold r in H.
    destruct H as [Hn [Hagain [Hout [Hfin [Hcalls Hstop]]]]].
    exists n. split; [exact Hn|].
    split; [|split; [exact Hout|split; [exact Hfin|split; [exact Hcalls|]]]].
    + intros k Hk. specialize (Hagain k Hk).
      destruct (out (call_number tabId k s)) as [v|e]; [|discriminate].
      cbn [asks_again] in Hagain. apply andb_true_iff in Hagain.
      destruct Hagain as [Hfail Hretry]. apply negb_true_iff in Hfail.
      exists v. split; [reflexivity|]. split; [exact Hfail | exact Hretry].
    + intros Hlt v Hv. specialize (Hstop Hlt). rewrite Hv in Hstop.
      cbn [asks_again] in Hstop. apply andb_false_iff in Hstop.
      destruct Hstop as [Hk | Hk]; [left | right; exact Hk].
      apply negb_false_iff in Hk. exact Hk.
  - intros t. apply retryableResult_codes.
  - intros Hret.
    destruct (result_loop_run tabId 3 3 1 None s) as [n H]; [lia | lia | exact Hret |].
    fold (extractDashboardWithResultRetry w tabId 3) in H. fold r in H.
    destruct H as [Hn [Hfin [Hat [Hsl [Htr [Hout Hstop]]]]]].
    exists n. repeat split; auto; try lia.
    + specialize (Htr k H). unfold not_ready in Htr.
      apply andb_true_iff in Htr. destruct Htr as [Hk _].
      apply negb_true_iff in Hk. exact Hk.
    + specialize (Htr k H). unfold not_ready in Htr.
      apply andb_true_iff in Htr. tauto.
    + intros Hlt. specialize (Hstop Hlt). unfold not_ready in Hstop.
      apply andb_false_iff in Hstop. destruct Hstop as [Hk | Hk]; [left | right; exact Hk].
      apply negb_false_iff in Hk. exact Hk.
Qed.

End Drivers.

Section DriverExamples.
Import Platform Worker.

(** A platform on which everything works and the dashboard never gets its
    data: every extraction answers [dashboard_data_not_ready]. *)
Definition never_ready_world : world :=
  {| clock := fun k => 1000 + Z.of_nat k;
     permissions_contains := Returned true;
     storage_sync_get := Returned SlotMissing;
     tabs_query := Returned [];
     tabs_create := Returned (Some (Tab (Some 7) ""));
     install_rule := Returned tt;
     tab_reaches_dashboard := true;
     tabs_get := fun _ => Returned (Some (Tab (Some 7) DASHBOARD_URL));
     execute_script := fun _ => Returned (Some (Extractor.Failure "dashboard_data_not_ready" 0));
     storage_local_set := fun _ => Returned tt;
     clear_rule := Returned tt;
     tabs_remove := Returned tt |}.

Definition fresh_globals : globals := Globals 0 (LocalStorage None None).

Lemma extractDashboardWithResultRetry_bounded_witness :
  let r := extractDashboardWithResultRetry never_ready_world 7 3 (start fresh_globals) in
  injections_return_from never_ready_world 0 /\
  attempts_in (calls r) = 3%nat /\
  sleeps (calls r) = [300; 600] /\
  out r = Returned (Some (Extractor.Failure "dashboard_data_not_ready" 0)).
Proof.
  intros r.
  assert (Hret : injections_return_from never_ready_world 0).
  { intros j _. eexists. reflexivity. }
  split; [exact Hret|].
  destruct (extractDashboardWithResultRetry_bounded never_ready_world 7
              (start fresh_globals)) as [_ [_ Hreturns]].
  destruct (Hreturns Hret) as [n [Hn [_ [Hat [Hsl [_ [Hout Hstop]]]]]]].
  fold r in Hat, Hsl, Hout.
  assert (Hthree : n = 3%nat).
  { destruct (Nat.eq_dec n 3) as [|Hne]; [assumption|].
    assert (Hlt : (n < 3)%nat) by lia.
    destruct (Hstop Hlt) as [H | H]; discriminate H. }
  rewrite Hthree in Hat, Hsl, Hout.
  split; [exact Hat|]. split; [exact Hsl | exact Hout].
Defined.

(** Three calls, two delays, and the last failing result comes back as a
    value. *)
Example never_ready_gives_up_after_three :
  let r := extractDashboardWithResultRetry never_ready_world 7 3 (start fresh_globals) in
  out r = Returned (Some (Extractor.Failure "dashboard_data_not_ready" 0)) /\
  attempts_in (calls r) = 3%nat /\
  sleeps (calls r) = [300; 600].
Proof. vm_compute. repeat split. Qed.

(** The extraction fails with an error text that contains one of the codes
    and is none of them. *)
Definition slow_main_world : world :=
  {| clock := fun k => 1000 + Z.of_nat k;
     permissions_contains := Returned true;
     storage_sync_get := Returned SlotMissing;
     tabs_query := Returned [];
     tabs_create := Returned (Some (Tab (Some 7) ""));
     install_rule := Returned tt;
     tab_reaches_dashboard := true;
     tabs_get := fun _ => Returned (Some (Tab (Some 7) DASHBOARD_URL));
     execute_script := fun _ =>
       Returned (Some (Extractor.Failure "Main_Not_Found (slow)" 0));
     storage_local_set := fun _ => Returned tt;
     clear_rule := Returned tt;
     tabs_remove := Returned tt |}.

(** C7, as the claim has it, fails: the driver retries on a failing result
    whose error is neither [main_not_found] nor [dashboard_data_not_ready],
    because its lower-cased text contains one of them; it calls the
    extraction three times, with the delays 300 ms and 600 ms. *)
Lemma retries_on_a_text_that_contains_a_code :
  let error := "Main_Not_Found (slow)" in
  let r := extractDashboardWithResultRetry slow_main_world 7 3 (start fresh_globals) in
  error <> "main_not_found" /\
  error <> "dashboard_data_not_ready" /\
  execute_script slow_main_world 0 = Returned (Some (Extractor.Failure error 0)) /\
  attempts_in (calls r) = 3%nat /\
  sleeps (calls r) = [300; 600] /\
  out r = Returned (Some (Extractor.Failure error 0)).
Proof.
  cbv zeta. split; [discriminate|]. split; [discriminate|].
  split; [reflexivity|]. vm_compute. repeat split.
Qed.

(** The frame of the tab goes away during the first injection; the second
    one finds the page without its main element, and the third one reads
    the dashboard. *)
Definition settling_world : world :=
  {| clock := fun k => 1000 + Z.of_nat k;
     permissions_contains := Returned true;
     storage_sync_get := Returned SlotMissing;
     tabs_query := Returned [];
     tabs_create := Returned (Some (Tab (Some 7) ""));
     install_rule := Returned tt;
     tab_reaches_dashboard := true;
     tabs_get := fun _ => Returned (Some (Tab (Some 7) DASHBOARD_URL));
     execute_script := fun i =>
       match i with
       | O => Thrown (Js.Error "Frame with ID 0 was removed.")
       | S O => Returned (Some (Extractor.Failure "main_not_found" 0))
       | _ => Returned (Some (Extractor.extractRightCodesDashboard 0 page_balance_only))
       end;
     storage_local_set := fun _ => Returned tt;
     clear_rule := Returned tt;
     tabs_remove := Returned tt |}.

(** Two calls: the first one retries the injection after 220 ms and returns
    [main_not_found]; after 300 ms the second one returns the snapshot. *)
Example both_drivers_retry :
  let r := extractDashboardWithResultRetry settling_world 7 3 (start fresh_globals) in
  calls r = [TabsGet 7; ExecuteScript 7; Sleep 220; TabsGet 7; ExecuteScript 7;
             Sleep 300; TabsGet 7; ExecuteScript 7] /\
  calls r = joined settling_world 7 1 2 (start fresh_globals) /\
  result_ok (match out r with Returned v => v | Thrown _ => None end) = true.
Proof. vm_compute. repeat split. Qed.

(** The frame of the tab goes away during every injection. *)
Definition frame_lost_world : world :=
  {| clock := fun k => 1000 + Z.of_nat k;
     permissions_contains := Returned true;
     storage_sync_get := Returned SlotMissing;
     tabs_query := Returned [];
     tabs_create := Returned (Some (Tab (Some 7) ""));
     install_rule := Returned tt;
     tab_reaches_dashboard := true;
     tabs_get := fun _ => Returned (Some (Tab (Some 7) DASHBOARD_URL));
     execute_script := fun _ => Thrown (Js.Error "Frame with ID 0 was removed.");
     storage_local_set := fun _ => Returned tt;
     clear_rule := Returned tt;
     tabs_remove := Returned tt |}.

Example frame_lost_gives_up_after_four :
  let r := executeExtractWithRetry frame_lost_world 7 4 (start fresh_globals) in
  out r = Thrown (Js.Error "Frame with ID 0 was removed.") /\
  attempts_in (calls r) = 4%nat /\
  sleeps (calls r) = [220; 440; 660].
Proof. vm_compute. repeat split. Qed.

Lemma executeExtractWithRetry_bounded_witness :
  let r := executeExtractWithRetry frame_lost_world 7 4 (start fresh_globals) in
  out r = Thrown (Js.Error "Frame with ID 0 was removed.") /\
  attempts_in (calls r) = 4%nat /\
  sleeps (calls r) = [220; 440; 660].
Proof.
  destruct (executeExtractWithRetry_bounded frame_lost_world 7 (start fresh_globals))
    as [_ [_ Hlast]].
  apply Hlast.
  - intros k _. reflexivity.
  - reflexivity.
Defined.

(** One failure that carries no signature: it comes out after one attempt. *)
Definition script_error_world : world :=
  {| clock := fun k => 1000 + Z.of_nat k;
     permissions_contains := Returned true;
     storage_sync_get := Returned SlotMissing;
     tabs_query := Returned [];
     tabs_create := Returned (Some (Tab (Some 7) ""));
     install_rule := Returned tt;
     tab_reaches_dashboard := true;
     tabs_get := fun _ => Returned (Some (Tab (Some 7) DASHBOARD_URL));
     execute_script := fun _ => Thrown (Js.Error "Cannot read properties of null");
     storage_local_set := fun _ => Returned tt;
     clear_rule := Returned tt;
     tabs_remove := Returned tt |}.

Example script_error_is_raised_at_once :
  let r := executeExtractWithRetry script_error_world 7 4 (start fresh_globals) in
  out r = Thrown (Js.Error "Cannot read properties of null") /\
  attempts_in (calls r) = 1%nat /\
  sleeps (calls r) = [].
Proof. vm_compute. repeat split. Qed.

End DriverExamples.

(* ===================================================================== *)
(** * The rate-limit floor *)
(* ===================================================================== *)

Section Floor.
Import Platform Worker.

Variable w : world.

Definition floor_of (s : state) : Z := nextAllowedRefreshAt (g s).

(** An assignment to the floor that does not lower it. *)
Definition assignment_ok (ev : event) : Prop :=
  match ev with
  | AssignNextAllowed old new => old <= new
  | _ => True
  end.

(** From the state [s] the code [m] leaves a floor that is not below the
    one it found, and none of its assignments lowers the floor. *)
Definition raises_from {A} (s : state) (m : M A) : Prop :=
  floor_of s <= floor_of (final (m s)) /\ Forall assignment_ok (calls (m s)).

Definition raises {A} (m : M A) : Prop := forall s, raises_from s m.

(** A call that neither writes to the storage nor assigns the floor. *)
Definition inert_event (ev : event) : Prop :=
  match ev with
  | LocalSet _ _ | AssignNextAllowed _ _ => False
  | _ => True
  end.

(** The code leaves the globals, the clock and the storage alone. *)
Definition quiet {A} (m : M A) : Prop :=
  forall s,
    g (final (m s)) = g s /\ ticks (final (m s)) = ticks s /\
    local_sets (final (m s)) = local_sets s /\
    Forall inert_event (calls (m s)).

Lemma driver_event_inert (evs : list event) :
  Forall driver_event evs -> Forall inert_event evs.
Proof.
  apply Forall_impl. intros ev. destruct ev; simpl; tauto.
Qed.

Lemma quiet_ret {A} (a : A) : quiet (ret a).
Proof. intros s. simpl. auto. Qed.

Lemma quiet_throw {A} (e : Js.exn) : quiet (@throw A e).
Proof. intros s. simpl. auto. Qed.

Lemma quiet_bind {A B} (m : M A) (k : A -> M B) :
  quiet m -> (forall a, quiet (k a)) -> quiet (bind m k).
Proof.
  intros Hm Hk s. unfold bind.
  destruct (Hm s) as [Hg [Ht [Hl Hev]]].
  destruct (out (m s)) as [a|e]; cbn [final calls out].
  - destruct (Hk a (final (m s))) as [Hg' [Ht' [Hl' Hev']]].
    repeat split; try congruence. apply Forall_app. auto.
  - auto.
Qed.

Lemma quiet_try_catch {A} (m : M A) (h : Js.exn -> M A) :
  quiet m -> (forall e, quiet (h e)) -> quiet (try_catch m h).
Proof.
  intros Hm Hh s. unfold try_catch.
  destruct (Hm s) as [Hg [Ht [Hl Hev]]].
  destruct (out (m s)) as [a|e]; cbn [final calls out].
  - auto.
  - destruct (Hh e (final (m s))) as [Hg' [Ht' [Hl' Hev']]].
    repeat split; try congruence. apply Forall_app. auto.
Qed.

Lemma quiet_sleep (ms : Z) : quiet (sleep ms).
Proof. intros s. simpl. repeat split; auto. repeat constructor. Qed.

Lemma quiet_inject_once (tabId : Z) : quiet (inject_once w tabId).
Proof.
  intros s. destruct (inject_once_run w tabId s) as [_ [Hfin [_ [_ Hev]]]].
  rewrite Hfin. unfold advance. simpl. auto using driver_event_inert.
Qed.

Lemma quiet_extract_loop (tabId : Z) (maxAttempts : nat) :
  forall left attempt lastErr, quiet (extract_loop w left tabId maxAttempts attempt lastErr).
Proof.
  induction left as [|left IH]; intros attempt lastErr; cbn [extract_loop].
  - apply quiet_throw.
  - destruct (attempt <=? maxAttempts)%nat; [|apply quiet_throw].
    apply quiet_try_catch; [apply quiet_inject_once|].
    intros e. destruct (_ || _)%bool; [apply quiet_throw|].
    apply quiet_bind; [apply quiet_sleep | intros _; apply IH].
Qed.

Lemma quiet_result_loop (tabId : Z) (maxAttempts : nat) :
  forall left attempt lastResult, quiet (result_loop w left tabId maxAttempts attempt lastResult).
Proof.
  induction left as [|left IH]; intros attempt lastResult; cbn [result_loop].
  - apply quiet_ret.
  - destruct (attempt <=? maxAttempts)%nat; [|apply quiet_ret].
    apply quiet_bind; [apply quiet_extract_loop|].
    intros result. destruct (result_ok result); [apply quiet_ret|].
    destruct (_ || _)%bool; [apply quiet_ret|].
    apply quiet_bind; [apply quiet_sleep | intros _; apply IH].
Qed.

Lemma quiet_extractDashboardWithResultRetry (tabId : Z) :
  quiet (extractDashboardWithResultRetry w tabId 3).
Proof. apply quiet_result_loop. Qed.

Lemma inert_event_ok (evs : list event) :
  Forall inert_event evs -> Forall assignment_ok evs.
Proof.
  apply Forall_impl. intros ev. destruct ev; simpl; tauto.
Qed.

Lemma quiet_call {A} (ev : event) (o : outcome A) : inert_event ev -> quiet (call ev o).
Proof. intros Hev s. simpl. repeat split; auto. Qed.

Lemma quiet_log (ev : event) : inert_event ev -> quiet (log ev).
Proof. intros Hev s. simpl. repeat split; auto. Qed.

Lemma quiet_swallow (m : M unit) : quiet m -> quiet (swallow m).
Proof. intros Hm. apply quiet_try_catch; [exact Hm | intros _; apply quiet_ret]. Qed.

Lemma quiet_waitForTabUrl (tabId : Z) : quiet (waitForTabUrl w tabId).
Proof.
  unfold waitForTabUrl. apply quiet_bind; [apply quiet_log; exact I|].
  intros _. destruct (tab_reaches_dashboard w); [apply quiet_ret | apply quiet_throw].
Qed.

Lemma quiet_refresh_finally (tabId : Z) (created : bool) (p : prefs) :
  quiet (refresh_finally w tabId created p).
Proof.
  unfold refresh_finally. apply quiet_bind.
  { destruct created; [|apply quiet_ret].
    apply quiet_swallow, quiet_call. exact I. }
  intros _. destruct (_ && _)%bool; [|apply quiet_ret].
  apply quiet_swallow, quiet_call. exact I.
Qed.

Lemma quiet_raises {A} (m : M A) : quiet m -> raises m.
Proof.
  intros Hq s. destruct (Hq s) as [Hg [_ [_ Hev]]].
  split; [unfold floor_of; rewrite Hg; lia | apply inert_event_ok; exact Hev].
Qed.

Lemma raises_from_bind {A B} (m : M A) (k : A -> M B) (s : state) :
  raises_from s m ->
  (forall a, out (m s) = Returned a -> raises_from (final (m s)) (k a)) ->
  raises_from s (bind m k).
Proof.
  intros [Hf Hev] Hk. unfold raises_from, bind.
  destruct (out (m s)) as [a|e]; cbn [final calls].
  - destruct (Hk a eq_refl) as [Hf' Hev'].
    split; [lia | apply Forall_app; auto].
  - auto.
Qed.

Lemma raises_bind {A B} (m : M A) (k : A -> M B) :
  raises m -> (forall a, raises (k a)) -> raises (bind m k).
Proof.
  intros Hm Hk s. apply raises_from_bind; [apply Hm | intros a _; apply Hk].
Qed.

Lemma raises_try_catch {A} (m : M A) (h : Js.exn -> M A) :
  raises m -> (forall e, raises (h e)) -> raises (try_catch m h).
Proof.
  intros Hm Hh s. unfold raises_from, try_catch.
  destruct (Hm s) as [Hf Hev].
  destruct (out (m s)) as [a|e]; cbn [final calls].
  - auto.
  - destruct (Hh e (final (m s))) as [Hf' Hev'].
    split; [lia | apply Forall_app; auto].
Qed.

Lemma raises_finally {A} (m : M A) (f : M unit) :
  raises m -> raises f -> raises (finally m f).
Proof.
  intros Hm Hf s. unfold raises_from, finally.
  destruct (Hm s) as [H1 Hev]. destruct (Hf (final (m s))) as [H2 Hev'].
  destruct (out (f (final (m s)))); cbn [final calls];
    (split; [lia | apply Forall_app; auto]).
Qed.

Lemma raises_ret {A} (a : A) : raises (ret a).
Proof. intros s. split; [simpl; lia | constructor]. Qed.

Lemma raises_call {A} (ev : event) (o : outcome A) :
  assignment_ok ev -> raises (call ev o).
Proof. intros Hev s. split; [simpl; lia | repeat constructor; exact Hev]. Qed.

Lemma raises_log (ev : event) : assignment_ok ev -> raises (log ev).
Proof. intros Hev s. split; [simpl; lia | repeat constructor; exact Hev]. Qed.

Lemma raises_throw {A} (e : Js.exn) : raises (@throw A e).
Proof. intros s. split; [simpl; lia | constructor]. Qed.

Lemma raises_date_now : raises (date_now w).
Proof. intros s. split; [unfold floor_of; simpl; lia | constructor]. Qed.

Lemma raises_local_set (wr : local_write) : raises (local_set w wr).
Proof.
  intros s. unfold raises_from, local_set, floor_of.
  destruct (storage_local_set w (local_sets s)); simpl;
    (split; [lia | repeat constructor]).
Qed.

Lemma raises_fail_with (reason code : string) (d : detail) :
  raises (fail_with w reason code d).
Proof.
  unfold fail_with. apply raises_bind; [apply raises_date_now|].
  intros t. apply raises_bind; [apply raises_local_set | intros _; apply raises_ret].
Qed.

Lemma raises_swallow (m : M unit) : raises m -> raises (swallow m).
Proof. intros Hm. apply raises_try_catch; [exact Hm | intros _; apply raises_ret]. Qed.

(** The extension of the floor after a remote rate limit. *)
Lemma raises_cooldown :
  raises (bind read_nextAllowedRefreshAt (fun floor =>
          bind (date_now w) (fun t =>
          assign_nextAllowedRefreshAt (Z.max floor (t + REMOTE_RATE_LIMIT_COOLDOWN_MS))))).
Proof.
  intros s. unfold raises_from, floor_of. simpl.
  split; [lia | repeat constructor; simpl; lia].
Qed.

Lemma raises_refresh_try (reason : string) (tabId : Z) (created : bool) :
  raises (refresh_try w reason tabId created).
Proof.
  unfold refresh_try.
  apply raises_bind.
  { destruct created; [|apply raises_ret].
    apply raises_swallow, raises_call. exact I. }
  intros _. apply raises_bind.
  { unfold waitForTabUrl. apply raises_bind; [apply raises_log; exact I|].
    intros _. destruct (tab_reaches_dashboard w); [apply raises_ret | apply raises_throw]. }
  intros _. apply raises_bind; [apply raises_log; exact I|].
  intros _. apply raises_bind.
  { apply quiet_raises, quiet_extractDashboardWithResultRetry. }
  intros result.
  assert (Hfail : raises (
    bind (if says_remote_limit (detail_text (detail_of result))
          then bind read_nextAllowedRefreshAt (fun floor =>
               bind (date_now w) (fun t =>
               assign_nextAllowedRefreshAt (Z.max floor (t + REMOTE_RATE_LIMIT_COOLDOWN_MS))))
          else ret tt)
         (fun _ => fail_with w reason "extract_failed" (detail_of result)))).
  { apply raises_bind.
    - destruct (says_remote_limit _); [apply raises_cooldown | apply raises_ret].
    - intros _. apply raises_fail_with. }
  destruct result as [[error t|data]|]; try exact Hfail.
  apply raises_bind; [apply raises_local_set | intros _; apply raises_ret].
Qed.

Lemma raises_refresh_finally (tabId : Z) (created : bool) (p : prefs) :
  raises (refresh_finally w tabId created p).
Proof.
  unfold refresh_finally. apply raises_bind.
  { destruct created; [|apply raises_ret].
    apply raises_swallow, raises_call. exact I. }
  intros _. destruct (_ && _)%bool; [|apply raises_ret].
  apply raises_swallow, raises_call. exact I.
Qed.

(** What follows the rate-limit test when it lets the refresh through. *)
Definition after_gate (reason : string) : M refresh_result :=
  bind (hasRightCodesPermission w) (fun hasPerm =>
    if negb hasPerm then fail_with w reason "missing_host_permission" DAbsent
    else
      bind (getPrefs w) (fun prefs =>
      bind (findExistingDashboardTab w) (fun found =>
      bind (match found with
            | Some t => ret (Some t, false)
            | None => bind (call TabsCreate (tabs_create w)) (fun t => ret (t, true))
            end) (fun acquired =>
      let '(tab, createdTempTab) := acquired in
      match usable_id tab with
      | None => fail_with w reason "tab_create_failed" DAbsent
      | Some tabId =>
          finally
            (try_catch (refresh_try w reason tabId createdTempTab) (refresh_catch w reason))
            (refresh_finally w tabId createdTempTab prefs)
      end)))).

Lemma raises_after_gate (reason : string) : raises (after_gate reason).
Proof.
  unfold after_gate. apply raises_bind; [apply raises_call; exact I|].
  intros hasPerm. destruct (negb hasPerm); [apply raises_fail_with|].
  apply raises_bind.
  { unfold getPrefs. apply raises_bind; [apply raises_call; exact I|].
    intros ?. apply raises_ret. }
  intros prefs. apply raises_bind.
  { unfold findExistingDashboardTab. apply raises_bind; [apply raises_call; exact I|].
    intros ?. apply raises_ret. }
  intros found. apply raises_bind.
  { destruct found; [apply raises_ret|].
    apply raises_bind; [apply raises_call; exact I | intros ?; apply raises_ret]. }
  intros [tab created]. destruct (usable_id tab) as [tabId|]; [|apply raises_fail_with].
  apply raises_finally; [|apply raises_refresh_finally].
  apply raises_try_catch; [apply raises_refresh_try|].
  intros e. apply raises_fail_with.
Qed.

(** The shape of [refreshDashboardData]: the test, then either the local
    failure or the assignment of the gap and the rest. *)
Lemma refreshDashboardData_unfold (reason : string) (s : state) :
  refreshDashboardData w reason s =
  let now := clock w (ticks s) in
  let s1 := State (g s) (S (ticks s)) (injections s) (local_sets s) in
  if now <? floor_of s
  then fail_with w reason "rate_limited_local" (DCooldownUntil (floor_of s)) s1
  else
    let s2 := State (Globals (now + MIN_REFRESH_GAP_MS) (storage_local (g s)))
                    (S (ticks s)) (injections s) (local_sets s) in
    let r := after_gate reason s2 in
    Res (out r) (final r)
        (AssignNextAllowed (floor_of s) (now + MIN_REFRESH_GAP_MS) :: calls r).
Proof.
  unfold refreshDashboardData, floor_of.
  fold (after_gate reason).
  set (rest := after_gate reason).
  cbn [bind date_now read_nextAllowedRefreshAt out final calls g app].
  destruct (clock w (ticks s) <? nextAllowedRefreshAt (g s)) eqn:Hgate.
  - match goal with |- context [fail_with ?a ?b ?c ?d ?e] =>
      destruct (fail_with a b c d e) as [o f c0] end.
    reflexivity.
  - cbn [bind assign_nextAllowedRefreshAt out final calls g ticks injections local_sets app].
    match goal with |- context [rest ?s] => destruct (rest s) as [o f c0] end.
    reflexivity.
Qed.

End Floor.

Section RateLimit.
Import Platform Worker.

(** The first storage write of a run resolves. *)
Definition write_resolves (w : world) (k : nat) : bool :=
  match storage_local_set w k with
  | Returned _ => true
  | Thrown _ => false
  end.

(** The calls that act on tabs: query, create, wait, injection, removal,
    and the rule bound to a tab. *)
Definition tab_operation (ev : event) : bool :=
  match ev with
  | TabsQuery | TabsCreate | InstallRule _ | WaitForTabUrl _
  | TabsGet _ | ExecuteScript _ | ClearRule | TabsRemove _ => true
  | _ => false
  end.

(** The run [r] of a refresh, started on the answers [w] from the globals
    [gl], stopped at the rate-limit test: its only call is the write of the
    [rate_limited_local] record, the floor keeps its value, and the refresh
    resolves to the tagged failure once that write has resolved. *)
Definition fails_fast (w : world) (reason : string) (gl : globals)
    (r : res refresh_result) : Prop :=
  let e := ErrorRecord (clock w 1) reason "rate_limited_local"
                       (DCooldownUntil (nextAllowedRefreshAt gl)) in
  calls r = [LocalSet (WriteLastError e) (write_resolves w 0)] /\
  existsb tab_operation (calls r) = false /\
  nextAllowedRefreshAt (g (final r)) = nextAllowedRefreshAt gl /\
  rcdm_data (storage_local (g (final r))) = rcdm_data (storage_local gl) /\
  (write_resolves w 0 = true ->
   out r = Returned (RefreshFailed e) /\
   rcdm_last_error (storage_local (g (final r))) = Some e).

Lemma fail_with_run (w : world) (reason code : string) (d : detail) (s : state) :
  fail_with w reason code d s =
  let e := ErrorRecord (clock w (ticks s)) reason code d in
  match storage_local_set w (local_sets s) with
  | Returned _ =>
      Res (Returned (RefreshFailed e))
          (State (Globals (nextAllowedRefreshAt (g s))
                          (apply_write (WriteLastError e) (storage_local (g s))))
                 (S (ticks s)) (injections s) (S (local_sets s)))
          [LocalSet (WriteLastError e) true]
  | Thrown x =>
      Res (Thrown x)
          (State (g s) (S (ticks s)) (injections s) (S (local_sets s)))
          [LocalSet (WriteLastError e) false]
  end.
Proof.
  unfold fail_with, bind, date_now, local_set, ret.
  cbn [out final calls g ticks injections local_sets].
  destruct (storage_local_set w (local_sets s)); reflexivity.
Qed.

Lemma limited_refresh_fails_fast (w : world) (reason : string) (gl : globals) :
  clock w 0 < nextAllowedRefreshAt gl ->
  fails_fast w reason gl (run_refresh w reason gl).
Proof.
  intros Hlim. unfold run_refresh. rewrite refreshDashboardData_unfold.
  cbv zeta. unfold floor_of, start. cbn [g ticks injections local_sets].
  apply Z.ltb_lt in Hlim. rewrite Hlim.
  rewrite fail_with_run. cbv zeta. cbn [g ticks injections local_sets].
  unfold fails_fast, write_resolves.
  destruct (storage_local_set w 0); cbn; repeat split; intros; try discriminate.
Qed.

(** C3.  No run of the refresh lowers [nextAllowedRefreshAt]: the floor it
    leaves is not below the floor it found, and each assignment that it
    makes (the gap after the test, the extension after a remote rate limit)
    stores a value that is not below the value it replaces; the same holds
    for every turn of the listeners. *)
Theorem nextAllowedRefreshAt_never_lowered (w : world) (reason : string) (gl : globals) :
  let r := run_refresh w reason gl in
  nextAllowedRefreshAt gl <= nextAllowedRefreshAt (g (final r)) /\
  Forall assignment_ok (calls r) /\
  forall s t, Listeners.floor s <= Listeners.floor (Listeners.step s t).
Proof.
  intros r. assert (Hrun :
    nextAllowedRefreshAt gl <= nextAllowedRefreshAt (g (final r)) /\
    Forall assignment_ok (calls r)).
  { subst r. unfold run_refresh. rewrite refreshDashboardData_unfold.
    cbv zeta. unfold floor_of, start. cbn [g ticks injections local_sets].
    destruct (clock w 0 <? nextAllowedRefreshAt gl) eqn:Hgate.
    - apply (raises_fail_with w reason "rate_limited_local" _
               (State gl 1 0 0)).
    - apply Z.ltb_ge in Hgate.
      destruct (raises_after_gate w reason
                  (State (Globals (clock w 0 + MIN_REFRESH_GAP_MS) (storage_local gl)) 1 0 0))
        as [Hfloor Hev].
      unfold floor_of in Hfloor. cbn [g nextAllowedRefreshAt] in Hfloor.
      cbn [final calls]. unfold MIN_REFRESH_GAP_MS in *.
      split; [lia|]. constructor; [simpl; lia | exact Hev]. }
  destruct Hrun as [H1 H2]. split; [exact H1|]. split; [exact H2|].
  intros s t. destruct t as [m rs now | now | op now | op o]; simpl.
  - destruct (Listeners.inFlightRefreshPromise s); simpl; [lia|].
    destruct (now <? Listeners.floor s) eqn:Hg; simpl; [lia|].
    apply Z.ltb_ge in Hg. unfold MIN_REFRESH_GAP_MS. lia.
  - destruct (now <? Listeners.floor s) eqn:Hg; simpl; [lia|].
    apply Z.ltb_ge in Hg. unfold MIN_REFRESH_GAP_MS. lia.
  - destruct (existsb _ _); simpl; lia.
  - destruct (existsb _ _); simpl; lia.
Qed.

(** C4.  A refresh called while [now < nextAllowedRefreshAt] stops at the
    test: it writes the [rate_limited_local] record and makes no other
    call, in particular no tab operation, it leaves the floor as it is, and
    it resolves to the tagged failure with that record (the write having
    resolved).  Otherwise its first step, before any call, assigns
    [now + MIN_REFRESH_GAP_MS] to the floor, the floor stays at least there
    to the end of the run, and a second refresh called before that time
    stops at the test in the same way. *)
Theorem local_rate_limit (w : world) (reason : string) (gl : globals) :
  let r := run_refresh w reason gl in
  let now := clock w 0 in
  (now < nextAllowedRefreshAt gl -> fails_fast w reason gl r) /\
  (nextAllowedRefreshAt gl <= now ->
   (exists rest,
      calls r = AssignNextAllowed (nextAllowedRefreshAt gl) (now + MIN_REFRESH_GAP_MS) :: rest) /\
   now + MIN_REFRESH_GAP_MS <= nextAllowedRefreshAt (g (final r)) /\
   forall w2 reason2,
     clock w2 0 < now + MIN_REFRESH_GAP_MS ->
     fails_fast w2 reason2 (g (final r)) (run_refresh w2 reason2 (g (final r)))).
Proof.
  intros r now. split.
  - intros Hlim. apply limited_refresh_fails_fast. exact Hlim.
  - intros Hpass.
    assert (Hshape :
      (exists rest,
         calls r = AssignNextAllowed (nextAllowedRefreshAt gl) (now + MIN_REFRESH_GAP_MS) :: rest) /\
      now + MIN_REFRESH_GAP_MS <= nextAllowedRefreshAt (g (final r))).
    { subst r now. unfold run_refresh. rewrite refreshDashboardData_unfold.
      cbv zeta. unfold floor_of, start. cbn [g ticks injections local_sets].
      apply Z.ltb_ge in Hpass. rewrite Hpass. cbn [final calls].
      split; [eexists; reflexivity|].
      destruct (raises_after_gate w reason
                  (State (Globals (clock w 0 + MIN_REFRESH_GAP_MS) (storage_local gl)) 1 0 0))
        as [Hfloor _].
      exact Hfloor. }
    destruct Hshape as [Hfirst Hfloor].
    split; [exact Hfirst|]. split; [exact Hfloor|].
    intros w2 reason2 Hsoon. apply limited_refresh_fails_fast. lia.
Qed.

(** The listeners' view of the start of a refresh is the start of
    [refreshDashboardData]: turned away at the test, the run is the fast
    failure and the floor stays; let through, the run begins by assigning
    the floor that the listeners record. *)
Lemma start_refresh_is_the_test (w : world) (reason : string) (gl : globals)
    (s : Listeners.sw) :
  Listeners.floor s = nextAllowedRefreshAt gl ->
  let s' := Listeners.start_refresh reason (clock w 0) s in
  let r := run_refresh w reason gl in
  (clock w 0 < Listeners.floor s ->
   Listeners.floor s' = Listeners.floor s /\ fails_fast w reason gl r) /\
  (Listeners.floor s <= clock w 0 ->
   exists rest,
     calls r = AssignNextAllowed (Listeners.floor s) (Listeners.floor s') :: rest).
Proof.
  intros Hfloor s' r. subst s' r. unfold Listeners.start_refresh. cbn [Listeners.floor].
  split.
  - intros Hlim. split.
    + apply Z.ltb_lt in Hlim. rewrite Hlim. reflexivity.
    + apply limited_refresh_fails_fast. lia.
  - intros Hpass. unfold run_refresh. rewrite refreshDashboardData_unfold. cbv zeta.
    unfold floor_of, start. cbn [g ticks injections local_sets].
    rewrite <- Hfloor. apply Z.ltb_ge in Hpass. rewrite Hpass.
    cbn [negb calls]. eexists. reflexivity.
Qed.

End RateLimit.

(* ===================================================================== *)
(** * The cooldown after a remote rate limit *)
(* ===================================================================== *)

Section RemoteCooldown.
Import Platform Worker.

Variable w : world.

(** The record reports an extraction failure whose detail tells of the
    rate limiter of the site. *)
Definition remote_limited (e : error_record) : bool :=
  (String.eqb (err_code e) "extract_failed" &&
   says_remote_limit (detail_text (err_detail e)))%bool.

Definition remote_write (ev : event) : bool :=
  match ev with
  | LocalSet (WriteLastError e) _ => remote_limited e
  | _ => false
  end.

(** Started at the [n]-th reading of the clock, a run of [m] that reports
    a remote rate limit leaves the floor at that reading plus the cooldown,
    or above. *)
Definition cools (n : nat) {A} (m : M A) : Prop :=
  forall s,
    ticks s = n ->
    existsb remote_write (calls (m s)) = true ->
    clock w n + REMOTE_RATE_LIMIT_COOLDOWN_MS <= floor_of (final (m s)).

(** No run of [m] reports a remote rate limit. *)
Definition clean {A} (m : M A) : Prop :=
  forall s, existsb remote_write (calls (m s)) = false.

Lemma inert_not_remote (evs : list event) :
  Forall inert_event evs -> existsb remote_write evs = false.
Proof.
  induction 1 as [|ev evs Hev _ IH]; [reflexivity|].
  simpl. rewrite IH. destruct ev; simpl in *; try reflexivity. contradiction.
Qed.

Lemma quiet_clean {A} (m : M A) : quiet m -> clean m.
Proof. intros Hq s. apply inert_not_remote. apply (Hq s). Qed.

Lemma clean_cools {A} (n : nat) (m : M A) : clean m -> cools n m.
Proof. intros Hc s _ H. rewrite Hc in H. discriminate. Qed.

Lemma cools_bind_quiet {A B} (n : nat) (m : M A) (k : A -> M B) :
  quiet m -> (forall a, cools n (k a)) -> cools n (bind m k).
Proof.
  intros Hq Hk s Hn. unfold bind.
  destruct (Hq s) as [_ [Ht [_ Hev]]].
  apply inert_not_remote in Hev.
  destruct (out (m s)) as [a|e]; cbn [calls final].
  - rewrite existsb_app, Hev. simpl. apply Hk. congruence.
  - rewrite Hev. discriminate.
Qed.

Lemma cools_try_catch {A} (n : nat) (m : M A) (h : Js.exn -> M A) :
  cools n m -> (forall e, clean (h e)) -> (forall e, raises (h e)) ->
  cools n (try_catch m h).
Proof.
  intros Hm Hc Hr s Hn. unfold try_catch.
  specialize (Hm s Hn).
  destruct (out (m s)) as [a|e]; cbn [calls final]; [exact Hm|].
  rewrite existsb_app, (Hc e), orb_false_r. intros H.
  specialize (Hm H). destruct (Hr e (final (m s))) as [Hfloor _]. lia.
Qed.

Lemma cools_finally {A} (n : nat) (m : M A) (f : M unit) :
  cools n m -> quiet f -> cools n (finally m f).
Proof.
  intros Hm Hq s Hn. unfold finally.
  specialize (Hm s Hn).
  pose proof (quiet_clean f Hq (final (m s))) as Hc.
  destruct (quiet_raises f Hq (final (m s))) as [Hfloor _].
  destruct (out (f (final (m s)))); cbn [calls final];
    rewrite existsb_app, Hc, orb_false_r; intros H; specialize (Hm H); lia.
Qed.

Lemma clean_fail_with (reason code : string) (d : detail) :
  String.eqb code "extract_failed" = false ->
  clean (fail_with w reason code d).
Proof.
  intros Hcode s. rewrite fail_with_run. cbv zeta.
  destruct (storage_local_set w (local_sets s)); cbn [calls existsb remote_write];
    unfold remote_limited; cbn [err_code]; rewrite Hcode; reflexivity.
Qed.

(** The branch of [refreshDashboardData] for a result that is no success. *)
Definition report_failure (reason : string) (result : option Extractor.result)
  : M refresh_result :=
  let detail := detail_of result in
  bind (if says_remote_limit (detail_text detail)
        then bind read_nextAllowedRefreshAt (fun floor =>
             bind (date_now w) (fun t =>
             assign_nextAllowedRefreshAt (Z.max floor (t + REMOTE_RATE_LIMIT_COOLDOWN_MS))))
        else ret tt)
       (fun _ => fail_with w reason "extract_failed" detail).

Lemma cools_report_failure (n : nat) (reason : string) (result : option Extractor.result) :
  cools n (report_failure reason result).
Proof.
  intros s Hn. unfold report_failure. cbv zeta.
  destruct (says_remote_limit (detail_text (detail_of result))) eqn:Hremote.
  - intros _.
    unfold bind at 1.
    cbn [bind read_nextAllowedRefreshAt date_now assign_nextAllowedRefreshAt
         out final calls g ticks injections local_sets].
    match goal with |- context [fail_with ?a ?b ?c ?d ?s'] =>
      destruct (raises_fail_with a b c d s') as [Hfloor _];
      unfold floor_of in *; cbn [g nextAllowedRefreshAt] in Hfloor
    end.
    subst n. lia.
  - unfold bind. cbn [ret out final calls app].
    rewrite fail_with_run. cbv zeta.
    destruct (storage_local_set w (local_sets s)); cbn [calls existsb remote_write];
      unfold remote_limited; cbn [err_code err_detail];
      rewrite Hremote; discriminate.
Qed.

Lemma refresh_try_branch (reason : string) (tabId : Z) (created : bool) :
  refresh_try w reason tabId created =
  bind (if created then swallow (installTempTabLightModeRule w tabId) else ret tt) (fun _ =>
  bind (waitForTabUrl w tabId) (fun _ =>
  bind (sleep 120) (fun _ =>
  bind (extractDashboardWithResultRetry w tabId 3) (fun result =>
    match result with
    | Some (Extractor.Success data) =>
        bind (local_set w (WriteDataAndClearError data)) (fun _ => ret (RefreshOk data))
    | _ => report_failure reason result
    end)))).
Proof. reflexivity. Qed.

Lemma quiet_install (tabId : Z) (created : bool) :
  quiet (if created then swallow (installTempTabLightModeRule w tabId) else ret tt).
Proof.
  destruct created; [|apply quiet_ret].
  apply quiet_swallow, quiet_call. exact I.
Qed.

Lemma cools_refresh_try (n : nat) (reason : string) (tabId : Z) (created : bool) :
  cools n (refresh_try w reason tabId created).
Proof.
  rewrite refresh_try_branch.
  apply cools_bind_quiet; [apply quiet_install|]. intros _.
  apply cools_bind_quiet; [apply quiet_waitForTabUrl|]. intros _.
  apply cools_bind_quiet; [apply quiet_sleep|]. intros _.
  apply cools_bind_quiet; [apply quiet_extractDashboardWithResultRetry|].
  intros result.
  pose proof (cools_report_failure n reason result) as Hfail.
  destruct result as [[error t|data]|]; try exact Hfail.
  apply clean_cools. intros s. unfold bind, local_set, ret.
  destruct (storage_local_set w (local_sets s)); reflexivity.
Qed.

Lemma cools_after_gate (reason : string) : cools 1 (after_gate w reason).
Proof.
  unfold after_gate.
  apply cools_bind_quiet; [apply quiet_call; exact I|].
  intros hasPerm. destruct (negb hasPerm).
  { apply clean_cools, clean_fail_with. reflexivity. }
  apply cools_bind_quiet.
  { unfold getPrefs. apply quiet_bind; [apply quiet_call; exact I|].
    intros ?. apply quiet_ret. }
  intros prefs. apply cools_bind_quiet.
  { unfold findExistingDashboardTab. apply quiet_bind; [apply quiet_call; exact I|].
    intros ?. apply quiet_ret. }
  intros found. apply cools_bind_quiet.
  { destruct found; [apply quiet_ret|].
    apply quiet_bind; [apply quiet_call; exact I | intros ?; apply quiet_ret]. }
  intros [tab created]. destruct (usable_id tab) as [tabId|].
  2:{ apply clean_cools, clean_fail_with. reflexivity. }
  apply cools_finally; [|apply quiet_refresh_finally].
  apply cools_try_catch; [apply cools_refresh_try | |].
  - intros e. apply clean_fail_with. reflexivity.
  - intros e. apply raises_fail_with.
Qed.

(** The run tried to persist the record [e]. *)
Definition persists (r : res refresh_result) (e : error_record) : Prop :=
  exists stored, In (LocalSet (WriteLastError e) stored) (calls r).

Lemma persists_remote_write (r : res refresh_result) (e : error_record) :
  persists r e -> remote_limited e = true -> existsb remote_write (calls r) = true.
Proof.
  intros [b Hin] He. apply existsb_exists.
  exists (LocalSet (WriteLastError e) b). split; [exact Hin | exact He].
Qed.

(** The record that reports the failing result [v], written at the
    [n]-th reading of the clock. *)
Definition extract_failed_record (n : nat) (reason : string)
    (v : option Extractor.result) : error_record :=
  ErrorRecord (clock w n) reason "extract_failed" (detail_of v).

(** The tab shows the dashboard and the extraction ends with the result
    [v], which is no success: the [try] block reports [v] with the code
    [extract_failed] and the detail of [v]; when that detail tells of too
    many requests, the record is the one that [remote_limited] recognizes. *)
Lemma refresh_try_reports_result (reason : string) (tabId : Z) (created : bool)
    (s : state) (v : option Extractor.result) :
  tab_reaches_dashboard w = true ->
  out (extractDashboardWithResultRetry w tabId 3 s) = Returned v ->
  result_ok v = false ->
  let remote := says_remote_limit (detail_text (detail_of v)) in
  let e := extract_failed_record (if remote then S (ticks s) else ticks s) reason v in
  persists (refresh_try w reason tabId created s) e /\
  remote_limited e = remote.
Proof.
  intros Hreach Hout Hfail remote e.
  split; [|subst e; unfold remote_limited, extract_failed_record; reflexivity].
  assert (Hbranch : forall s',
    g s' = g s -> ticks s' = ticks s -> local_sets s' = local_sets s ->
    persists (report_failure reason v s') e).
  { intros s' Hg Ht Hl. subst e remote. unfold report_failure. cbv zeta.
    destruct (says_remote_limit (detail_text (detail_of v))).
    - unfold bind at 1.
      cbn [bind read_nextAllowedRefreshAt date_now assign_nextAllowedRefreshAt
           out final calls g ticks injections local_sets].
      rewrite fail_with_run. cbv zeta. cbn [ticks local_sets].
      unfold extract_failed_record. rewrite Ht.
      destruct (storage_local_set w (local_sets s')); cbn [out final calls app];
        eexists; simpl; right; left; reflexivity.
    - unfold bind. cbn [ret out final calls app].
      rewrite fail_with_run. cbv zeta. unfold extract_failed_record. rewrite Ht.
      destruct (storage_local_set w (local_sets s')); cbn [out final calls];
        eexists; left; reflexivity. }
  assert (Hstep : forall {A} (m : M A) (k : A -> M refresh_result) (s0 : state) (a : A),
    out (m s0) = Returned a ->
    persists (k a (final (m s0))) e -> persists (bind m k s0) e).
  { intros A m k s0 a Ha [b Hin]. exists b. unfold bind. rewrite Ha.
    cbn [calls]. apply in_or_app. right. exact Hin. }
  assert (Hinstall :
    (if created then swallow (installTempTabLightModeRule w tabId) else ret tt) s
    = Res (Returned tt) s (if created then [InstallRule tabId] else [])).
  { destruct created; [|reflexivity].
    unfold swallow, try_catch, installTempTabLightModeRule, call, ret.
    cbn [out final calls]. destruct (install_rule w) as [[]|x]; reflexivity. }
  assert (Hwait : waitForTabUrl w tabId s = Res (Returned tt) s [WaitForTabUrl tabId]).
  { unfold waitForTabUrl, bind, log. cbn [out final calls]. rewrite Hreach. reflexivity. }
  rewrite refresh_try_branch.
  apply Hstep with (a := tt); [rewrite Hinstall; reflexivity|].
  rewrite Hinstall. cbn [final].
  apply Hstep with (a := tt); [rewrite Hwait; reflexivity|].
  rewrite Hwait. cbn [final].
  apply Hstep with (a := tt); [reflexivity|].
  cbn [sleep log final].
  apply Hstep with (a := v); [exact Hout|].
  destruct (quiet_extractDashboardWithResultRetry w tabId s) as [Hg [Ht [Hl _]]].
  specialize (Hbranch _ Hg Ht Hl).
  destruct v as [[err t|data]|]; try exact Hbranch. discriminate Hfail.
Qed.

End RemoteCooldown.

(** C5.  An extraction failure is reported by the record with the code
    [extract_failed], whose detail is the detail of the failing result.
    Whenever a refresh reports one whose detail tells of too many requests,
    it leaves [nextAllowedRefreshAt] at the reading of [Date.now()] taken
    while handling the failure (the second reading of the run) plus
    [REMOTE_RATE_LIMIT_COOLDOWN_MS], or above; a refresh called before that
    time stops at the rate-limit test, with [rate_limited_local]. *)
Theorem remote_cooldown (w : Platform.world) (reason : string) (gl : Platform.globals)
    (e : Platform.error_record) :
  let r := Worker.run_refresh w reason gl in
  persists r e ->
  remote_limited e = true ->
  Platform.clock w 1 + REMOTE_RATE_LIMIT_COOLDOWN_MS
    <= Platform.nextAllowedRefreshAt (Platform.g (Platform.final r)) /\
  forall w2 reason2,
    Platform.clock w2 0 < Platform.clock w 1 + REMOTE_RATE_LIMIT_COOLDOWN_MS ->
    fails_fast w2 reason2 (Platform.g (Platform.final r))
      (Worker.run_refresh w2 reason2 (Platform.g (Platform.final r))).
Proof.
  intros r Hwrite Hremote.
  pose proof (persists_remote_write r e Hwrite Hremote) as Hev.
  assert (Hfloor : Platform.clock w 1 + REMOTE_RATE_LIMIT_COOLDOWN_MS
                   <= Platform.nextAllowedRefreshAt (Platform.g (Platform.final r))).
  { subst r. unfold Worker.run_refresh in *.
    rewrite refreshDashboardData_unfold in *. cbv zeta in *.
    unfold floor_of, Platform.start in *.
    cbn [Platform.g Platform.ticks Platform.injections Platform.local_sets] in *.
    destruct (Platform.clock w 0 <? Platform.nextAllowedRefreshAt gl).
    - rewrite (clean_fail_with w reason "rate_limited_local" _ eq_refl) in Hev.
      discriminate.
    - cbn [Platform.calls Platform.final existsb remote_write orb] in *.
      exact (cools_after_gate w reason (Platform.State _ 1 0 0) eq_refl Hev). }
  split; [exact Hfloor|].
  intros w2 reason2 Hsoon. apply limited_refresh_fails_fast. lia.
Qed.

Section CooldownExamples.
Import Platform Worker.

(** The dashboard answers with the message of its rate limiter. *)
Definition limited_page : Dom.page :=
  {| Dom.pathname := "/dashboard";
     Dom.href := "https://www.right.codes/dashboard";
     Dom.title := "Right Code";
     Dom.document_body := Some (Dom.Body "Too Many Requests" "Too Many Requests");
     Dom.main_el := None;
     Dom.root_el := None;
     Dom.settled_body := Some (Dom.Body "Too Many Requests" "Too Many Requests");
     Dom.late_pathname := "/dashboard";
     Dom.late_body := Some (Dom.Body "Too Many Requests" "Too Many Requests");
     Dom.sub_grid := None;
     Dom.totals_grid := None;
     Dom.fault := None |}.

Example limited_page_extraction :
  Extractor.extractRightCodesDashboard 0 limited_page
  = Extractor.Failure "too_many_requests" 0.
Proof. reflexivity. Qed.

(** A platform on which everything works and the injected extractor runs
    in [limited_page]. *)
Definition limited_world : world :=
  {| clock := fun k => 1000 + Z.of_nat k;
     permissions_contains := Returned true;
     storage_sync_get := Returned SlotMissing;
     tabs_query := Returned [];
     tabs_create := Returned (Some (Tab (Some 7) ""));
     install_rule := Returned tt;
     tab_reaches_dashboard := true;
     tabs_get := fun _ => Returned (Some (Tab (Some 7) DASHBOARD_URL));
     execute_script := fun _ =>
       Returned (Some (Extractor.extractRightCodesDashboard 0 limited_page));
     storage_local_set := fun _ => Returned tt;
     clear_rule := Returned tt;
     tabs_remove := Returned tt |}.

Definition limited_record : error_record :=
  ErrorRecord 1002 "manual" "extract_failed" (DString "too_many_requests").

Example limited_run :
  let r := run_refresh limited_world "manual" fresh_globals in
  out r = Returned (RefreshFailed limited_record) /\
  nextAllowedRefreshAt (g (final r)) = 66001 /\
  calls r =
    [AssignNextAllowed 0 3500; PermissionsContains; StorageSyncGet; TabsQuery;
     TabsCreate; InstallRule 7; WaitForTabUrl 7; Sleep 120; TabsGet 7;
     ExecuteScript 7; AssignNextAllowed 3500 66001;
     LocalSet (WriteLastError limited_record) true; ClearRule; TabsRemove 7].
Proof. vm_compute. repeat split. Qed.

Lemma remote_cooldown_witness :
  persists (run_refresh limited_world "manual" fresh_globals) limited_record /\
  remote_limited limited_record = true /\
  clock limited_world 1 + REMOTE_RATE_LIMIT_COOLDOWN_MS
    <= nextAllowedRefreshAt (g (final (run_refresh limited_world "manual" fresh_globals))).
Proof.
  assert (Hwrite : persists (run_refresh limited_world "manual" fresh_globals) limited_record).
  { exists true. vm_compute. do 11 right. left. reflexivity. }
  split; [exact Hwrite|]. split; [reflexivity|].
  exact (proj1 (remote_cooldown limited_world "manual" fresh_globals limited_record
                  Hwrite eq_refl)).
Defined.

(** A refresh one second after the limited one is turned away. *)
Definition next_second_world : world :=
  {| clock := fun k => 2000 + Z.of_nat k;
     permissions_contains := Returned true;
     storage_sync_get := Returned SlotMissing;
     tabs_query := Returned [];
     tabs_create := Returned (Some (Tab (Some 8) ""));
     install_rule := Returned tt;
     tab_reaches_dashboard := true;
     tabs_get := fun _ => Returned (Some (Tab (Some 8) DASHBOARD_URL));
     execute_script := fun _ => Returned None;
     storage_local_set := fun _ => Returned tt;
     clear_rule := Returned tt;
     tabs_remove := Returned tt |}.

Lemma local_rate_limit_witness :
  clock next_second_world 0 < nextAllowedRefreshAt (Globals 66001 (LocalStorage None None)) /\
  fails_fast next_second_world "manual" (Globals 66001 (LocalStorage None None))
    (run_refresh next_second_world "manual" (Globals 66001 (LocalStorage None None))).
Proof.
  assert (Hlim : clock next_second_world 0
                 < nextAllowedRefreshAt (Globals 66001 (LocalStorage None None))).
  { vm_compute. reflexivity. }
  split; [exact Hlim|].
  exact (proj1 (local_rate_limit next_second_world "manual"
                  (Globals 66001 (LocalStorage None None))) Hlim).
Defined.

Example second_call_within_gap :
  let r1 := run_refresh never_ready_world "manual" fresh_globals in
  let r2 := run_refresh never_ready_world "manual" (g (final r1)) in
  nextAllowedRefreshAt (g (final r1)) = 3500 /\
  out r2 = Returned (RefreshFailed
             (ErrorRecord 1001 "manual" "rate_limited_local" (DCooldownUntil 3500))) /\
  existsb tab_operation (calls r2) = false /\
  nextAllowedRefreshAt (g (final r2)) = 3500.
Proof. vm_compute. repeat split. Qed.

End CooldownExamples.

(* ===================================================================== *)
(** * Failures of the refresh and what comes out of it *)
(* ===================================================================== *)

Section Reporting.
Import Platform Worker.

Variable w : world.

(** The error records that a run has stored. *)
Fixpoint error_writes (evs : list event) : nat :=
  match evs with
  | [] => 0
  | LocalSet (WriteLastError _) true :: evs' => S (error_writes evs')
  | _ :: evs' => error_writes evs'
  end.

(** A run that ends with a tagged failure has stored one record, a run
    that ends otherwise has stored none. *)
Definition reported (r : res refresh_result) : Prop :=
  match out r with
  | Returned (RefreshFailed _) => error_writes (calls r) = 1%nat
  | Returned (RefreshOk _) => error_writes (calls r) = 0%nat
  | Thrown _ => error_writes (calls r) = 0%nat
  end.

Definition reports (m : M refresh_result) : Prop := forall s, reported (m s).

(** Every write to [chrome.storage.local] resolves. *)
Definition writes_resolve : Prop := forall k, write_resolves w k = true.

Lemma error_writes_app (a b : list event) :
  error_writes (a ++ b) = (error_writes a + error_writes b)%nat.
Proof.
  induction a as [|ev a IH]; [reflexivity|].
  destruct ev as [| | | | | | | | |wr stored| | |]; simpl; rewrite ?IH; try reflexivity.
  destruct wr, stored; simpl; rewrite ?IH; reflexivity.
Qed.

Lemma inert_no_error_writes (evs : list event) :
  Forall inert_event evs -> error_writes evs = 0%nat.
Proof.
  induction 1 as [|ev evs Hev _ IH]; [reflexivity|].
  destruct ev; simpl in *; try exact IH. contradiction.
Qed.

Lemma reports_bind_quiet {A} (m : M A) (k : A -> M refresh_result) :
  quiet m -> (forall a, reports (k a)) -> reports (bind m k).
Proof.
  intros Hq Hk s. unfold reported, bind.
  destruct (Hq s) as [_ [_ [_ Hev]]]. apply inert_no_error_writes in Hev.
  destruct (out (m s)) as [a|e]; cbn [out calls].
  - specialize (Hk a (final (m s))). unfold reported in Hk.
    rewrite error_writes_app, Hev. exact Hk.
  - exact Hev.
Qed.

Lemma reports_fail_with (reason code : string) (d : detail) :
  writes_resolve -> reports (fail_with w reason code d).
Proof.
  intros Hw s. unfold reported. rewrite fail_with_run. cbv zeta.
  specialize (Hw (local_sets s)). unfold write_resolves in Hw.
  destruct (storage_local_set w (local_sets s)); [reflexivity | discriminate].
Qed.

Lemma reports_report_failure (reason : string) (result : option Extractor.result) :
  writes_resolve -> reports (report_failure w reason result).
Proof.
  intros Hw s. unfold report_failure. cbv zeta.
  destruct (says_remote_limit _).
  - unfold reported. unfold bind at 1.
    cbn [bind read_nextAllowedRefreshAt date_now assign_nextAllowedRefreshAt
         out final calls g ticks injections local_sets].
    match goal with |- context [fail_with ?a ?b ?c ?d ?s'] =>
      pose proof (reports_fail_with b c d Hw s') as Hf;
      unfold reported in Hf; destruct (fail_with a b c d s') as [o f c0]
    end.
    cbn [out calls] in *. rewrite error_writes_app. exact Hf.
  - unfold reported, bind. cbn [ret out final calls app].
    apply (reports_fail_with reason "extract_failed" _ Hw).
Qed.

Lemma reports_refresh_try (reason : string) (tabId : Z) (created : bool) :
  writes_resolve -> reports (refresh_try w reason tabId created).
Proof.
  intros Hw. rewrite refresh_try_branch.
  apply reports_bind_quiet; [apply quiet_install|]. intros _.
  apply reports_bind_quiet; [apply quiet_waitForTabUrl|]. intros _.
  apply reports_bind_quiet; [apply quiet_sleep|]. intros _.
  apply reports_bind_quiet; [apply quiet_extractDashboardWithResultRetry|].
  intros result.
  pose proof (reports_report_failure reason result Hw) as Hfail.
  destruct result as [[error t|data]|]; try exact Hfail.
  intros s. unfold reported, bind, local_set, ret.
  specialize (Hw (local_sets s)). unfold write_resolves in Hw.
  destruct (storage_local_set w (local_sets s)); [reflexivity | discriminate].
Qed.

(** The cleanup swallows its failures. *)
Lemma refresh_finally_returns (tabId : Z) (created : bool) (p : prefs) (s : state) :
  out (refresh_finally w tabId created p s) = Returned tt.
Proof.
  unfold refresh_finally, swallow, clearTempTabLightModeRule, try_catch, bind, call, ret.
  destruct created; cbn [out final calls andb].
  - destruct (clear_rule w) as [[]|x]; cbn [out final calls];
      destruct (Js.truthy (closeTempTab p)); cbn [out final calls];
      try reflexivity; destruct (tabs_remove w) as [[]|y]; reflexivity.
  - reflexivity.
Qed.

(** The part of the refresh under [try ... catch ... finally]. *)
Definition guarded (reason : string) (tabId : Z) (created : bool) (p : prefs)
  : M refresh_result :=
  finally (try_catch (refresh_try w reason tabId created) (refresh_catch w reason))
          (refresh_finally w tabId created p).

(** Under the [try], storage writes resolving, nothing is thrown: the run
    resolves, and to a tagged failure exactly when it stored one record. *)
Lemma guarded_never_throws (reason : string) (tabId : Z) (created : bool) (p : prefs)
    (s : state) :
  writes_resolve ->
  let r := guarded reason tabId created p s in
  (exists v, out r = Returned v) /\ reported r.
Proof.
  intros Hw r. subst r. unfold guarded, finally.
  set (inner := try_catch _ _ s).
  assert (Hinner : (exists v, out inner = Returned v) /\ reported inner).
  { subst inner. unfold try_catch.
    pose proof (reports_refresh_try reason tabId created Hw s) as Htry.
    unfold reported in Htry.
    destruct (out (refresh_try w reason tabId created s)) as [v|x] eqn:Hout.
    - split; [eauto|]. unfold reported. rewrite Hout. exact Htry.
    - unfold refresh_catch. rewrite fail_with_run. cbv zeta.
      pose proof (Hw (local_sets (final (refresh_try w reason tabId created s)))) as Hk.
      unfold write_resolves in Hk.
      destruct (storage_local_set w _); [|discriminate].
      cbn [out final calls]. split; [eauto|].
      unfold reported. cbn [out calls]. rewrite error_writes_app, Htry. reflexivity. }
  destruct Hinner as [[v Hv] Hrep].
  pose proof (refresh_finally_returns tabId created p (final inner)) as Hfin.
  destruct (quiet_refresh_finally w tabId created p (final inner)) as [_ [_ [_ Hev]]].
  apply inert_no_error_writes in Hev.
  rewrite Hfin. cbn [out calls]. split; [eauto|].
  unfold reported in *. cbn [out calls]. rewrite error_writes_app, Hev, Nat.add_0_r.
  exact Hrep.
Qed.

(** One of the four awaited calls that precede the [try] rejects with [e]:
    the permission check, the read of the preferences, the tab query, or
    the creation of the tab when the query found none. *)
Definition early_rejection (e : Js.exn) : Prop :=
  permissions_contains w = Thrown e \/
  (permissions_contains w = Returned true /\
   (storage_sync_get w = Thrown e \/
    exists slot, storage_sync_get w = Returned slot /\
      (tabs_query w = Thrown e \/
       exists tabs, tabs_query w = Returned tabs /\ first_with_id tabs = None /\
                    tabs_create w = Thrown e))).

Definition is_local_set (ev : event) : bool :=
  match ev with LocalSet _ _ => true | _ => false end.

End Reporting.

(** C1, on the code.  The refresh is past the rate-limit test and one of
    the awaited calls before the [try] block rejects: the rejection comes
    out of [refreshDashboardData] as it is, and the run has written nothing
    to the storage, so no Last-Error record tells of the failure. *)
Theorem early_rejection_escapes (w : Platform.world) (reason : string)
    (gl : Platform.globals) (e : Js.exn) :
  Platform.nextAllowedRefreshAt gl <= Platform.clock w 0 ->
  early_rejection w e ->
  let r := Worker.run_refresh w reason gl in
  Platform.out r = Platform.Thrown e /\
  existsb is_local_set (Platform.calls r) = false /\
  Platform.storage_local (Platform.g (Platform.final r)) = Platform.storage_local gl.
Proof.
  intros Hpass Hearly r. subst r.
  unfold Worker.run_refresh. rewrite refreshDashboardData_unfold. cbv zeta.
  unfold floor_of, Platform.start.
  cbn [Platform.g Platform.ticks Platform.injections Platform.local_sets].
  apply Z.ltb_ge in Hpass. rewrite Hpass.
  cbn [Platform.out Platform.final Platform.calls].
  unfold after_gate, Worker.hasRightCodesPermission, Worker.getPrefs,
    Worker.findExistingDashboardTab, Platform.bind, Platform.call, Platform.ret.
  cbn [Platform.out Platform.final Platform.calls].
  destruct Hearly as [Hperm | [Hperm Hearly]]; rewrite Hperm.
  { repeat split. }
  cbn [negb Platform.out Platform.final Platform.calls].
  destruct Hearly as [Hsync | [slot [Hsync Hearly]]]; rewrite Hsync.
  { repeat split. }
  cbn [Platform.out Platform.final Platform.calls].
  destruct Hearly as [Hquery | [tabs [Hquery [Hnone Hcreate]]]]; rewrite Hquery.
  { repeat split. }
  cbn [Platform.out Platform.final Platform.calls]. rewrite Hnone.
  cbn [Platform.out Platform.final Platform.calls]. rewrite Hcreate.
  repeat split.
Qed.

Section ReportingRuns.
Import Platform Worker.

(** The four awaited calls that precede the [try] block resolve. *)
Definition early_calls_resolve (w : world) : Prop :=
  (exists b, permissions_contains w = Returned b) /\
  (exists slot, storage_sync_get w = Returned slot) /\
  (exists tabs, tabs_query w = Returned tabs) /\
  (exists t, tabs_create w = Returned t).

(** The code resolves, and to a tagged failure exactly when it has stored
    one error record. *)
Definition settled (m : M refresh_result) : Prop :=
  forall s, (exists v, out (m s) = Returned v) /\ reported (m s).

Lemma settled_bind {A} (m : M A) (k : A -> M refresh_result) :
  quiet m -> (forall s, exists a, out (m s) = Returned a) ->
  (forall a, settled (k a)) -> settled (bind m k).
Proof.
  intros Hq Hret Hk s.
  pose proof (reports_bind_quiet m k Hq (fun a s' => proj2 (Hk a s')) s) as Hrep.
  split; [|exact Hrep].
  unfold bind. destruct (Hret s) as [a Ha]. rewrite Ha. cbn [out].
  apply (Hk a).
Qed.

Lemma settled_fail_with (w : world) (reason code : string) (d : detail) :
  writes_resolve w -> settled (fail_with w reason code d).
Proof.
  intros Hw s. split; [|apply reports_fail_with; exact Hw].
  rewrite fail_with_run. cbv zeta.
  specialize (Hw (local_sets s)). unfold write_resolves in Hw.
  destruct (storage_local_set w (local_sets s)); [eauto | discriminate].
Qed.

(** What does hold of C1: when the calls before the [try] block and the
    storage writes resolve, the refresh resolves, and it resolves to a
    tagged failure exactly when it has stored one error record. *)
Lemma refresh_reports_resolved_runs (w : world) (reason : string) (gl : globals) :
  early_calls_resolve w ->
  writes_resolve w ->
  let r := run_refresh w reason gl in
  (exists v, out r = Returned v) /\ reported r.
Proof.
  intros [[b Hperm] [[slot Hsync] [[tabs Hquery] [t Hcreate]]]] Hw r. subst r.
  assert (Hrest : settled (after_gate w reason)).
  { unfold after_gate.
    apply settled_bind; [apply quiet_call; exact I | |].
    { intros s. exists b. exact Hperm. }
    intros hasPerm. destruct (negb hasPerm); [apply settled_fail_with; exact Hw|].
    apply settled_bind.
    { unfold getPrefs. apply quiet_bind; [apply quiet_call; exact I|].
      intros ?. apply quiet_ret. }
    { intros s. unfold getPrefs, bind, call. cbn [out]. rewrite Hsync. cbn. eauto. }
    intros prefs. apply settled_bind.
    { unfold findExistingDashboardTab. apply quiet_bind; [apply quiet_call; exact I|].
      intros ?. apply quiet_ret. }
    { intros s. unfold findExistingDashboardTab, bind, call. cbn [out].
      rewrite Hquery. cbn. eauto. }
    intros found. apply settled_bind.
    { destruct found; [apply quiet_ret|].
      apply quiet_bind; [apply quiet_call; exact I | intros ?; apply quiet_ret]. }
    { intros s. destruct found; [cbn; eauto|].
      unfold bind, call. cbn [out]. rewrite Hcreate. cbn. eauto. }
    intros [tab created]. destruct (usable_id tab) as [tabId|].
    - intros s. apply (guarded_never_throws w reason tabId created prefs s Hw).
    - apply settled_fail_with. exact Hw. }
  unfold run_refresh. rewrite refreshDashboardData_unfold. cbv zeta.
  destruct (_ <? _).
  - apply settled_fail_with. exact Hw.
  - match goal with |- context [after_gate w reason ?s2] =>
      destruct (Hrest s2) as [[v Hv] Hrep] end.
    cbn [out calls]. split; [eauto|].
    unfold reported in *. cbn [out calls error_writes]. exact Hrep.
Qed.

(** The browser has no window in which to open the tab. *)
Definition no_window_world : world :=
  {| clock := fun k => 1000 + Z.of_nat k;
     permissions_contains := Returned true;
     storage_sync_get := Returned SlotMissing;
     tabs_query := Returned [];
     tabs_create := Thrown (Js.Error "No current window");
     install_rule := Returned tt;
     tab_reaches_dashboard := true;
     tabs_get := fun _ => Returned (Some (Tab (Some 7) DASHBOARD_URL));
     execute_script := fun _ => Returned None;
     storage_local_set := fun _ => Returned tt;
     clear_rule := Returned tt;
     tabs_remove := Returned tt |}.

Lemma early_rejection_escapes_witness :
  let r := run_refresh no_window_world "alarm" fresh_globals in
  out r = Thrown (Js.Error "No current window") /\
  existsb is_local_set (calls r) = false /\
  storage_local (g (final r)) = storage_local fresh_globals.
Proof.
  apply (early_rejection_escapes no_window_world "alarm" fresh_globals
           (Js.Error "No current window")).
  - vm_compute. discriminate.
  - right. split; [reflexivity|]. right. exists SlotMissing. split; [reflexivity|].
    right. exists []. repeat split.
Defined.

End ReportingRuns.

(* ===================================================================== *)
(** * One refresh at a time *)
(* ===================================================================== *)

Section InFlight.
Import Platform Listeners.

(** The state in which the marker tells the truth: either nothing is
    started and nobody waits, or exactly the marked refresh is pending and
    every waiting message awaits it. *)
Definition single_flight (s : sw) : Prop :=
  (inFlightRefreshPromise s = None /\ pending s = [] /\ waiting s = []) \/
  (exists o, inFlightRefreshPromise s = Some (op_id o) /\ pending s = [o] /\
             Forall (fun mw => snd mw = op_id o) (waiting s)).

Lemma filter_awaiting_all (op : nat) (ws : list (nat * nat)) :
  Forall (fun mw => snd mw = op) ws ->
  List.filter (fun mw => negb (awaits op mw)) ws = [].
Proof.
  induction 1 as [|mw ws Hmw _ IH]; [reflexivity|].
  simpl. unfold awaits at 1. rewrite Hmw, Nat.eqb_refl. exact IH.
Qed.

Lemma single_flight_step (s : sw) (t : turn) :
  is_alarm t = false -> single_flight s -> single_flight (step s t).
Proof.
  intros Hno Hs. destruct t as [m reason now | now | op now | op r]; [| discriminate | |].
  - (* a refresh message *)
    destruct Hs as [[Hm [Hp Hw]] | [o [Hm [Hp Hw]]]]; simpl; rewrite Hm.
    + right. exists (Operation (started s) reason (negb (now <? floor s))).
      simpl. rewrite Hp, Hw. repeat split. repeat constructor.
    + right. exists o. simpl. repeat split; auto.
      apply Forall_app. split; [exact Hw | repeat constructor].
  - (* the extension of the floor *)
    simpl. destruct (existsb _ _); [|exact Hs].
    destruct Hs as [[Hm [Hp Hw]] | [o [Hm [Hp Hw]]]]; [left | right; exists o];
      simpl; auto.
  - (* the promise settles *)
    simpl. destruct (existsb (is_op op) (pending s)) eqn:Hex; [|exact Hs].
    destruct Hs as [[Hm [Hp Hw]] | [o [Hm [Hp Hw]]]].
    + rewrite Hp in Hex. discriminate.
    + rewrite Hp in Hex. simpl in Hex. rewrite orb_false_r in Hex.
      unfold is_op in Hex. apply Nat.eqb_eq in Hex.
      left. simpl. rewrite Hm, Hp. simpl. unfold is_op.
      rewrite Hex, Nat.eqb_refl. simpl.
      repeat split. apply filter_awaiting_all. rewrite <- Hex. exact Hw.
Qed.

Lemma single_flight_run (ts : list turn) (s : sw) :
  forallb (fun t => negb (is_alarm t)) ts = true ->
  single_flight s -> single_flight (run s ts).
Proof.
  revert s. induction ts as [|t ts IH]; intros s Hts Hs; [exact Hs|].
  simpl in Hts. apply andb_true_iff in Hts. destruct Hts as [Ht Hts].
  apply negb_true_iff in Ht.
  simpl. apply IH; [exact Hts|]. apply single_flight_step; assumption.
Qed.

(** What does hold of C2.  As long as only [rcdm_refresh] messages trigger
    refreshes, at most one refresh is pending, so at most one runs tab
    operations, and every message that waits awaits that one; the responses
    sent when it resolves all carry its value; and a turn clears the marker
    only by settling the marked refresh. *)
Lemma messages_share_one_refresh (ts : list turn) :
  forallb (fun t => negb (is_alarm t)) ts = true ->
  let s := run boot ts in
  (length (pending s) <= 1)%nat /\
  (length (provisioning s) <= 1)%nat /\
  (forall m op, In (m, op) (waiting s) -> inFlightRefreshPromise s = Some op) /\
  (forall op v, Forall (fun a => snd a = v) (answer op (Returned v) (waiting s))) /\
  (forall s' t op, inFlightRefreshPromise s' = Some op ->
                   inFlightRefreshPromise (step s' t) = None ->
                   exists r, t = Settle op r).
Proof.
  intros Hts s.
  assert (Hs : single_flight s).
  { apply single_flight_run; [exact Hts|]. left. repeat split. }
  split; [|split; [|split; [|split]]].
  - destruct Hs as [[_ [Hp _]] | [o [_ [Hp _]]]]; rewrite Hp; simpl; lia.
  - unfold provisioning.
    destruct Hs as [[_ [Hp _]] | [o [_ [Hp _]]]]; rewrite Hp; simpl; [lia|].
    destruct (op_passed o); simpl; lia.
  - intros m op Hin.
    destruct Hs as [[_ [_ Hw]] | [o [Hm [_ Hw]]]].
    + rewrite Hw in Hin. contradiction.
    + rewrite Forall_forall in Hw. specialize (Hw (m, op) Hin). simpl in Hw.
      rewrite Hm, Hw. reflexivity.
  - intros op v. unfold answer. apply Forall_forall. intros a Ha.
    apply in_map_iff in Ha. destruct Ha as [mw [Ha _]]. subst a. reflexivity.
  - intros s' t op Hm Hclear.
    destruct t as [m reason now | now | op' now | op' r]; simpl in Hclear.
    + rewrite Hm in Hclear. discriminate.
    + congruence.
    + destruct (existsb _ _); simpl in Hclear; congruence.
    + destruct (existsb _ _); simpl in Hclear; [|congruence].
      rewrite Hm in Hclear. destruct (Nat.eqb op op') eqn:Heq; [|discriminate].
      apply Nat.eqb_eq in Heq. subst op'. eauto.
Qed.

(** A message starts a refresh at time 0; the alarm fires three seconds
    later, while that refresh is still waiting for its tab. *)
Definition message_then_alarm : list turn :=
  [OnMessage 0 "manual" 0; OnAlarm 3000].

(** The same, the alarm firing within the gap after the message. *)
Definition message_then_early_alarm : list turn :=
  [OnMessage 0 "manual" 0; OnAlarm 100].

(** C2, on the code.  The alarm listener calls [refreshDashboardData]
    without looking at the marker.  An alarm that fires while the refresh of
    a message is in flight starts a second refresh: past the gap it goes on
    to its own tab operations, so two refreshes provision tabs at once;
    within the gap it is a second operation too, which ends on its own with
    [rate_limited_local].  In both cases its promise is not the marked one,
    and the marker still names the first refresh. *)
Theorem alarm_is_not_deduplicated :
  let s := run boot message_then_alarm in
  let s' := run boot message_then_early_alarm in
  inFlightRefreshPromise s = Some 0%nat /\
  provisioning s = [Operation 0 "manual" true; Operation 1 "alarm" true] /\
  length (provisioning s) = 2%nat /\
  inFlightRefreshPromise s' = Some 0%nat /\
  pending s' = [Operation 0 "manual" true; Operation 1 "alarm" false].
Proof.
  cbv zeta. unfold message_then_alarm, message_then_early_alarm.
  split; [|split; [|split; [|split]]]; reflexivity.
Qed.

End InFlight.

(* ===================================================================== *)
(** * What a refresh leaves in the storage *)
(* ===================================================================== *)

Section StorageEffects.
Import Platform Worker.

Variable w : world.

(** How a run that found the storage [st0] may end: with the snapshot
    stored and the error slot cleared, with its error record stored beside
    the snapshot that was there, or, when it throws, with the storage as it
    was. *)
Definition stored (st0 : local_storage) (r : res refresh_result) : Prop :=
  match out r with
  | Returned (RefreshOk d) =>
      storage_local (g (final r)) = LocalStorage (Some d) None
  | Returned (RefreshFailed e) =>
      storage_local (g (final r)) = LocalStorage (rcdm_data st0) (Some e)
  | Thrown _ => storage_local (g (final r)) = st0
  end.

Definition keeps (m : M refresh_result) : Prop :=
  forall s, stored (storage_local (g s)) (m s).

Lemma keeps_bind_quiet {A} (m : M A) (k : A -> M refresh_result) :
  quiet m -> (forall a, keeps (k a)) -> keeps (bind m k).
Proof.
  intros Hq Hk s. unfold stored, bind.
  destruct (Hq s) as [Hg _].
  destruct (out (m s)) as [a|e]; cbn [out final].
  - specialize (Hk a (final (m s))). unfold stored in Hk.
    rewrite Hg in Hk. exact Hk.
  - rewrite Hg. reflexivity.
Qed.

Lemma keeps_fail_with (reason code : string) (d : detail) :
  keeps (fail_with w reason code d).
Proof.
  intros s. unfold stored. rewrite fail_with_run. cbv zeta.
  destruct (storage_local_set w (local_sets s)); reflexivity.
Qed.

Lemma keeps_report_failure (reason : string) (v : option Extractor.result) :
  keeps (report_failure w reason v).
Proof.
  intros s. unfold report_failure. cbv zeta.
  destruct (says_remote_limit _).
  - unfold stored. unfold bind at 1 2 3.
    cbn [bind read_nextAllowedRefreshAt date_now assign_nextAllowedRefreshAt
         out final calls g ticks injections local_sets].
    rewrite fail_with_run. cbv zeta.
    cbn [g ticks injections local_sets storage_local nextAllowedRefreshAt].
    destruct (storage_local_set w (local_sets s)); reflexivity.
  - unfold stored, bind. cbn [ret out final calls].
    apply (keeps_fail_with reason "extract_failed" _ s).
Qed.

Lemma keeps_refresh_try (reason : string) (tabId : Z) (created : bool) :
  keeps (refresh_try w reason tabId created).
Proof.
  rewrite refresh_try_branch.
  apply keeps_bind_quiet; [apply quiet_install|]. intros _.
  apply keeps_bind_quiet; [apply quiet_waitForTabUrl|]. intros _.
  apply keeps_bind_quiet; [apply quiet_sleep|]. intros _.
  apply keeps_bind_quiet; [apply quiet_extractDashboardWithResultRetry|].
  intros result.
  pose proof (keeps_report_failure reason result) as Hfail.
  destruct result as [[error t|data]|]; try exact Hfail.
  intros s. unfold stored, bind, local_set, ret.
  destruct (storage_local_set w (local_sets s)); reflexivity.
Qed.

Lemma keeps_guarded (reason : string) (tabId : Z) (created : bool) (p : prefs) :
  keeps (guarded w reason tabId created p).
Proof.
  intros s. unfold guarded, finally.
  set (inner := try_catch _ _ s).
  assert (Hinner : stored (storage_local (g s)) inner).
  { subst inner. unfold try_catch.
    pose proof (keeps_refresh_try reason tabId created s) as Htry.
    unfold stored in Htry.
    destruct (out (refresh_try w reason tabId created s)) as [v|x] eqn:Hout.
    - unfold stored. rewrite Hout. exact Htry.
    - pose proof (keeps_fail_with reason "refresh_exception"
                    (DString (Js.message_or_string x))
                    (final (refresh_try w reason tabId created s))) as Hcatch.
      unfold stored in *. unfold refresh_catch. cbn [out final].
      rewrite Htry in Hcatch. exact Hcatch. }
  pose proof (refresh_finally_returns w tabId created p (final inner)) as Hfin.
  destruct (quiet_refresh_finally w tabId created p (final inner)) as [Hg _].
  rewrite Hfin. unfold stored in *. cbn [out final]. rewrite Hg. exact Hinner.
Qed.

Lemma keeps_after_gate (reason : string) : keeps (after_gate w reason).
Proof.
  unfold after_gate.
  apply keeps_bind_quiet; [apply quiet_call; exact I|].
  intros hasPerm. destruct (negb hasPerm); [apply keeps_fail_with|].
  apply keeps_bind_quiet.
  { unfold getPrefs. apply quiet_bind; [apply quiet_call; exact I|].
    intros ?. apply quiet_ret. }
  intros prefs. apply keeps_bind_quiet.
  { unfold findExistingDashboardTab. apply quiet_bind; [apply quiet_call; exact I|].
    intros ?. apply quiet_ret. }
  intros found. apply keeps_bind_quiet.
  { destruct found; [apply quiet_ret|].
    apply quiet_bind; [apply quiet_call; exact I | intros ?; apply quiet_ret]. }
  intros [tab created]. destruct (usable_id tab) as [tabId|].
  - apply keeps_guarded.
  - apply keeps_fail_with.
Qed.

Lemma run_refresh_stored (reason : string) (gl : globals) :
  stored (storage_local gl) (run_refresh w reason gl).
Proof.
  unfold run_refresh. rewrite refreshDashboardData_unfold. cbv zeta.
  unfold floor_of, start. cbn [g ticks injections local_sets].
  destruct (_ <? _).
  - apply (keeps_fail_with reason "rate_limited_local" _ (State gl 1 0 0)).
  - pose proof (keeps_after_gate reason
        (State (Globals (clock w 0 + MIN_REFRESH_GAP_MS) (storage_local gl)) 1 0 0)) as H.
    unfold stored in *. cbn [out final g storage_local] in *. exact H.
Qed.

End StorageEffects.

(** X1.  A refresh that resolves to [{ ok: true, data }] leaves exactly
    that snapshot under [rcdm_data] and [null] under [rcdm_last_error]:
    the snapshot replaces the cached one as a whole and the error of an
    earlier attempt is gone. *)
Theorem success_replaces_snapshot_and_clears_error (w : Platform.world) (reason : string)
    (gl : Platform.globals) (d : Extractor.snapshot) :
  let r := Worker.run_refresh w reason gl in
  Platform.out r = Platform.Returned (Platform.RefreshOk d) ->
  Platform.storage_local (Platform.g (Platform.final r))
  = Platform.LocalStorage (Some d) None.
Proof.
  intros r Hout. pose proof (run_refresh_stored w reason gl) as H.
  unfold stored in H. fold r in H. rewrite Hout in H. exact H.
Qed.

(** X2.  A refresh that resolves to [{ ok: false, error }] leaves the
    cached snapshot as it found it and that very record under
    [rcdm_last_error]; a refresh that throws leaves the storage untouched.
    So no failure discards the data of the last successful refresh. *)
Theorem failure_keeps_snapshot (w : Platform.world) (reason : string)
    (gl : Platform.globals) :
  let r := Worker.run_refresh w reason gl in
  (forall e, Platform.out r = Platform.Returned (Platform.RefreshFailed e) ->
     Platform.storage_local (Platform.g (Platform.final r))
     = Platform.LocalStorage (Platform.rcdm_data (Platform.storage_local gl)) (Some e)) /\
  (forall x, Platform.out r = Platform.Thrown x ->
     Platform.storage_local (Platform.g (Platform.final r)) = Platform.storage_local gl).
Proof.
  intros r. pose proof (run_refresh_stored w reason gl) as H.
  unfold stored in H. fold r in H.
  split; intros v Hout; rewrite Hout in H; exact H.
Qed.

(* ===================================================================== *)
(** * The calls of a refresh, phase by phase *)
(* ===================================================================== *)

Section Phases.
Import Platform Worker.

Variable w : world.

Lemma bind_returned {A B} (m : M A) (k : A -> M B) (s s1 : state) (a : A)
    (c1 : list event) :
  m s = Res (Returned a) s1 c1 ->
  bind m k s = Res (out (k a s1)) (final (k a s1)) (c1 ++ calls (k a s1)).
Proof. intros H. unfold bind. rewrite H. reflexivity. Qed.

Lemma bind_thrown {A B} (m : M A) (k : A -> M B) (s s1 : state) (e : Js.exn)
    (c1 : list event) :
  m s = Res (Thrown e) s1 c1 -> bind m k s = Res (Thrown e) s1 c1.
Proof. intros H. unfold bind. rewrite H. reflexivity. Qed.

(** The calls of the cleanup: the rule goes, then the tab, and only for a
    tab that this refresh created. *)
Definition cleanup_calls (tabId : Z) (created : bool) (p : prefs) : list event :=
  ((if created then [ClearRule] else []) ++
   (if (created && Js.truthy (closeTempTab p))%bool then [TabsRemove tabId] else []))%list.

Lemma refresh_finally_run (tabId : Z) (created : bool) (p : prefs) (s : state) :
  refresh_finally w tabId created p s = Res (Returned tt) s (cleanup_calls tabId created p).
Proof.
  unfold refresh_finally, cleanup_calls, swallow, clearTempTabLightModeRule,
    try_catch, bind, call, ret.
  destruct created; cbn [out final calls andb app].
  - destruct (clear_rule w) as [[]|x]; cbn [out final calls app];
      destruct (Js.truthy (closeTempTab p)); cbn [out final calls app];
      try reflexivity; destruct (tabs_remove w) as [[]|y]; reflexivity.
  - reflexivity.
Qed.

Lemma install_run (tabId : Z) (created : bool) (s : state) :
  (if created then swallow (installTempTabLightModeRule w tabId) else ret tt) s
  = Res (Returned tt) s (if created then [InstallRule tabId] else []).
Proof.
  destruct created; [|reflexivity].
  unfold swallow, try_catch, installTempTabLightModeRule, call, ret.
  cbn [out final calls]. destruct (install_rule w) as [[]|x]; reflexivity.
Qed.

Lemma waitForTabUrl_run (tabId : Z) (s : state) :
  waitForTabUrl w tabId s =
  Res (if tab_reaches_dashboard w then Returned tt
       else Thrown (Js.Error "timeout_waiting_for_tab_url"))
      s [WaitForTabUrl tabId].
Proof.
  unfold waitForTabUrl, bind, log. cbn [out final calls].
  destruct (tab_reaches_dashboard w); reflexivity.
Qed.

(** What the [try] block does with the result of the extraction. *)
Definition conclude (reason : string) (result : option Extractor.result)
  : M refresh_result :=
  match result with
  | Some (Extractor.Success data) =>
      bind (local_set w (WriteDataAndClearError data)) (fun _ => ret (RefreshOk data))
  | _ => report_failure w reason result
  end.

(** The calls before the extraction. *)
Definition opening_calls (tabId : Z) (created : bool) : list event :=
  ((if created then [InstallRule tabId] else []) ++ [WaitForTabUrl tabId])%list.

(** The [try] block, phase by phase: the rule and the wait; on a timeout
    nothing more; otherwise the settle delay and the extraction, whose
    error comes out as it is and whose result is concluded. *)
Lemma refresh_try_run (reason : string) (tabId : Z) (created : bool) (s : state) :
  refresh_try w reason tabId created s =
  if tab_reaches_dashboard w then
    let rd := extractDashboardWithResultRetry w tabId 3 s in
    match out rd with
    | Returned v =>
        let rc := conclude reason v (final rd) in
        Res (out rc) (final rc)
            (opening_calls tabId created ++ Sleep 120 :: calls rd ++ calls rc)
    | Thrown e =>
        Res (Thrown e) (final rd) (opening_calls tabId created ++ Sleep 120 :: calls rd)
    end
  else
    Res (Thrown (Js.Error "timeout_waiting_for_tab_url")) s (opening_calls tabId created).
Proof.
  rewrite refresh_try_branch. fold conclude.
  rewrite (bind_returned _ _ _ _ _ _ (install_run tabId created s)).
  pose proof (waitForTabUrl_run tabId s) as Hwait.
  unfold opening_calls.
  destruct (tab_reaches_dashboard w).
  - rewrite (bind_returned _ _ _ _ _ _ Hwait).
    assert (Hsleep : sleep 120 s = Res (Returned tt) s [Sleep 120]) by reflexivity.
    rewrite (bind_returned _ _ _ _ _ _ Hsleep).
    cbv zeta. unfold bind.
    destruct (extractDashboardWithResultRetry w tabId 3 s) as [[v|e] f c];
      cbn [out final calls]; rewrite <- app_assoc; reflexivity.
  - rewrite (bind_thrown _ _ _ _ _ _ Hwait). cbn [out final calls]. reflexivity.
Qed.

(** The part under [try ... catch ... finally]: the [try] block, the
    [catch] clause when it threw, and the cleanup in every case. *)
Lemma guarded_run (reason : string) (tabId : Z) (created : bool) (p : prefs) (s : state) :
  guarded w reason tabId created p s =
  let rt := refresh_try w reason tabId created s in
  let inner :=
    match out rt with
    | Returned _ => rt
    | Thrown e =>
        let rc := refresh_catch w reason e (final rt) in
        Res (out rc) (final rc) (calls rt ++ calls rc)
    end in
  Res (out inner) (final inner) (calls inner ++ cleanup_calls tabId created p).
Proof.
  unfold guarded, finally, try_catch. cbv zeta.
  destruct (out (refresh_try w reason tabId created s));
    rewrite refresh_finally_run; reflexivity.
Qed.

(** The refresh gets the tab [tabId]: permission is granted, the
    preferences are read, and either the query finds a tab ([created] is
    false) or it finds none and the creation resolves ([created] is true). *)
Definition acquires (slot : sync_slot) (tabId : Z) (created : bool) : Prop :=
  permissions_contains w = Returned true /\
  storage_sync_get w = Returned slot /\
  exists tabs,
    tabs_query w = Returned tabs /\
    if created
    then first_with_id tabs = None /\
         exists t, tabs_create w = Returned t /\ usable_id t = Some tabId
    else exists t, first_with_id tabs = Some t /\ usable_id (Some t) = Some tabId.

Definition acquisition_calls (created : bool) : list event :=
  [PermissionsContains; StorageSyncGet; TabsQuery] ++
  (if created then [TabsCreate] else []).

Lemma after_gate_run (reason : string) (slot : sync_slot) (tabId : Z) (created : bool)
    (s : state) :
  acquires slot tabId created ->
  after_gate w reason s =
  let r := guarded w reason tabId created (Background.getPrefs slot) s in
  Res (out r) (final r) (acquisition_calls created ++ calls r).
Proof.
  intros [Hperm [Hsync [tabs [Hquery Hacq]]]].
  unfold after_gate, hasRightCodesPermission, getPrefs, findExistingDashboardTab,
    acquisition_calls.
  assert (H1 : call PermissionsContains (permissions_contains w) s
               = Res (Returned true) s [PermissionsContains]).
  { unfold call. rewrite Hperm. reflexivity. }
  rewrite (bind_returned _ _ _ _ _ _ H1). cbn [negb].
  assert (H2 : bind (call StorageSyncGet (storage_sync_get w))
                 (fun stored => ret (Background.getPrefs stored)) s
               = Res (Returned (Background.getPrefs slot)) s [StorageSyncGet]).
  { unfold bind, call, ret. rewrite Hsync. reflexivity. }
  rewrite (bind_returned _ _ _ _ _ _ H2).
  assert (H3 : bind (call TabsQuery (tabs_query w)) (fun tabs => ret (first_with_id tabs)) s
               = Res (Returned (first_with_id tabs)) s [TabsQuery]).
  { unfold bind, call, ret. rewrite Hquery. reflexivity. }
  rewrite (bind_returned _ _ _ _ _ _ H3).
  fold (guarded w reason). cbv zeta.
  destruct created.
  - destruct Hacq as [Hnone [t [Hcreate Hid]]]. rewrite Hnone.
    assert (H4 : bind (call TabsCreate (tabs_create w)) (fun t => ret (t, true)) s
                 = Res (Returned (t, true)) s [TabsCreate]).
    { unfold bind, call, ret. rewrite Hcreate. reflexivity. }
    rewrite (bind_returned _ _ _ _ _ _ H4). rewrite Hid.
    cbn [out final calls app]. reflexivity.
  - destruct Hacq as [t [Hfound Hid]]. rewrite Hfound.
    assert (H4 : @ret (option tab * bool) (Some t, false) s
                 = Res (Returned (Some t, false)) s []) by reflexivity.
    rewrite (bind_returned _ _ _ _ _ _ H4). rewrite Hid.
    cbn [out final calls app]. reflexivity.
Qed.

(** A whole run that gets its tab. *)
Lemma run_refresh_acquired (reason : string) (gl : globals) (slot : sync_slot)
    (tabId : Z) (created : bool) :
  nextAllowedRefreshAt gl <= clock w 0 ->
  acquires slot tabId created ->
  let s2 := State (Globals (clock w 0 + MIN_REFRESH_GAP_MS) (storage_local gl)) 1 0 0 in
  let r := guarded w reason tabId created (Background.getPrefs slot) s2 in
  run_refresh w reason gl =
  Res (out r) (final r)
      (AssignNextAllowed (nextAllowedRefreshAt gl) (clock w 0 + MIN_REFRESH_GAP_MS)
       :: acquisition_calls created ++ calls r).
Proof.
  intros Hpass Hacq. unfold run_refresh. rewrite refreshDashboardData_unfold.
  cbv zeta. unfold floor_of, start. cbn [g ticks injections local_sets].
  apply Z.ltb_ge in Hpass. rewrite Hpass.
  rewrite (after_gate_run reason slot tabId created _ Hacq). reflexivity.
Qed.

End Phases.

Section Emissions.
Import Platform Worker.

Variable w : world.

(** Every call of [m] satisfies [P]. *)
Definition emits {A} (P : event -> Prop) (m : M A) : Prop :=
  forall s, Forall P (calls (m s)).

Lemma emits_ret {A} (P : event -> Prop) (a : A) : emits P (ret a).
Proof. intros s. constructor. Qed.

Lemma emits_throw {A} (P : event -> Prop) (e : Js.exn) : emits P (@throw A e).
Proof. intros s. constructor. Qed.

Lemma emits_log (P : event -> Prop) (ev : event) : P ev -> emits P (log ev).
Proof. intros H s. repeat constructor. exact H. Qed.

Lemma emits_call {A} (P : event -> Prop) (ev : event) (o : outcome A) :
  P ev -> emits P (call ev o).
Proof. intros H s. repeat constructor. exact H. Qed.

Lemma emits_bind {A B} (P : event -> Prop) (m : M A) (k : A -> M B) :
  emits P m -> (forall a, emits P (k a)) -> emits P (bind m k).
Proof.
  intros Hm Hk s. unfold bind. specialize (Hm s).
  destruct (out (m s)) as [a|e]; cbn [calls]; [|exact Hm].
  apply Forall_app. split; [exact Hm | apply Hk].
Qed.

Lemma emits_try_catch {A} (P : event -> Prop) (m : M A) (h : Js.exn -> M A) :
  emits P m -> (forall e, emits P (h e)) -> emits P (try_catch m h).
Proof.
  intros Hm Hh s. unfold try_catch. specialize (Hm s).
  destruct (out (m s)) as [a|e]; cbn [calls]; [exact Hm|].
  apply Forall_app. split; [exact Hm | apply Hh].
Qed.

Lemma emits_finally {A} (P : event -> Prop) (m : M A) (f : M unit) :
  emits P m -> emits P f -> emits P (finally m f).
Proof.
  intros Hm Hf s. unfold finally.
  destruct (out (f (final (m s)))); cbn [calls];
    (apply Forall_app; split; [apply Hm | apply Hf]).
Qed.

Lemma emits_date_now (P : event -> Prop) : emits P (date_now w).
Proof. intros s. constructor. Qed.

Lemma emits_read (P : event -> Prop) : emits P read_nextAllowedRefreshAt.
Proof. intros s. constructor. Qed.

Lemma emits_next_injection (P : event -> Prop) : emits P next_injection.
Proof. intros s. constructor. Qed.

Lemma emits_local_set (P : event -> Prop) (wr : local_write) :
  (forall b, P (LocalSet wr b)) -> emits P (local_set w wr).
Proof.
  intros H s. unfold local_set.
  destruct (storage_local_set w (local_sets s)); repeat constructor; apply H.
Qed.

Lemma emits_assign (P : event -> Prop) (v : Z) :
  (forall old, P (AssignNextAllowed old v)) -> emits P (assign_nextAllowedRefreshAt v).
Proof. intros H s. repeat constructor. apply H. Qed.

Lemma emits_inject_once (tabId : Z) : emits driver_event (inject_once w tabId).
Proof.
  unfold inject_once.
  apply emits_bind; [apply emits_next_injection|]. intros i.
  apply emits_bind; [apply emits_call; exact I|]. intros [t|].
  - apply emits_call. exact I.
  - apply emits_throw.
Qed.

Lemma emits_extract_loop (tabId : Z) (maxAttempts : nat) :
  forall left attempt lastErr,
    emits driver_event (extract_loop w left tabId maxAttempts attempt lastErr).
Proof.
  induction left as [|left IH]; intros attempt lastErr; cbn [extract_loop].
  - apply emits_throw.
  - destruct (attempt <=? maxAttempts)%nat; [|apply emits_throw].
    apply emits_try_catch; [apply emits_inject_once|].
    intros e. destruct (_ || _)%bool; [apply emits_throw|].
    apply emits_bind; [apply emits_log; exact I | intros _; apply IH].
Qed.

Lemma emits_result_loop (tabId : Z) (maxAttempts : nat) :
  forall left attempt lastResult,
    emits driver_event (result_loop w left tabId maxAttempts attempt lastResult).
Proof.
  induction left as [|left IH]; intros attempt lastResult; cbn [result_loop].
  - apply emits_ret.
  - destruct (attempt <=? maxAttempts)%nat; [|apply emits_ret].
    apply emits_bind; [apply emits_extract_loop|].
    intros result. destruct (result_ok result); [apply emits_ret|].
    destruct (_ || _)%bool; [apply emits_ret|].
    apply emits_bind; [apply emits_log; exact I | intros _; apply IH].
Qed.

(** A write to the storage or an assignment of the floor. *)
Definition bookkeeping (ev : event) : Prop :=
  match ev with
  | LocalSet _ _ | AssignNextAllowed _ _ => True
  | _ => False
  end.

Lemma emits_fail_with (reason code : string) (d : detail) :
  emits bookkeeping (fail_with w reason code d).
Proof.
  unfold fail_with. apply emits_bind; [apply emits_date_now|]. intros t.
  apply emits_bind; [apply emits_local_set; intros; exact I|].
  intros _. apply emits_ret.
Qed.

Lemma emits_conclude (reason : string) (v : option Extractor.result) :
  emits bookkeeping (conclude w reason v).
Proof.
  assert (Hfail : emits bookkeeping (report_failure w reason v)).
  { unfold report_failure. cbv zeta. apply emits_bind.
    - destruct (says_remote_limit _); [|apply emits_ret].
      apply emits_bind; [apply emits_read|]. intros fl.
      apply emits_bind; [apply emits_date_now|]. intros t.
      apply emits_assign. intros; exact I.
    - intros _. apply emits_fail_with. }
  unfold conclude. destruct v as [[err t|data]|]; try exact Hfail.
  apply emits_bind; [apply emits_local_set; intros; exact I|].
  intros _. apply emits_ret.
Qed.

Lemma Forall_weaken (P Q : event -> Prop) (evs : list event) :
  (forall ev, P ev -> Q ev) -> Forall P evs -> Forall Q evs.
Proof. intros H. apply Forall_impl. exact H. Qed.

End Emissions.

Section TabHandling.
Import Platform Worker.

(** The calls that only a refresh owning its tab may make. *)
Definition own_tab_call (ev : event) : bool :=
  match ev with
  | TabsCreate | InstallRule _ | ClearRule | TabsRemove _ => true
  | _ => false
  end.

(** The calls of the cleanup. *)
Definition cleanup_call (ev : event) : bool :=
  match ev with
  | ClearRule | TabsRemove _ => true
  | _ => false
  end.

(** The calls between the wait and the cleanup: delays, injections,
    storage writes and assignments of the floor. *)
Definition working (ev : event) : Prop := driver_event ev \/ bookkeeping ev.

Lemma existsb_none (f : event -> bool) (P : event -> Prop) (evs : list event) :
  (forall ev, P ev -> f ev = false) -> Forall P evs -> existsb f evs = false.
Proof.
  intros Hf. induction 1 as [|ev evs Hev _ IH]; [reflexivity|].
  simpl. rewrite (Hf ev Hev), IH. reflexivity.
Qed.

Lemma working_not_own (ev : event) : working ev -> own_tab_call ev = false.
Proof. destruct ev; simpl; intros [H|H]; try reflexivity; contradiction. Qed.

Lemma working_not_cleanup (ev : event) : working ev -> cleanup_call ev = false.
Proof. destruct ev; simpl; intros [H|H]; try reflexivity; contradiction. Qed.

Lemma working_not_attempt_free (evs : list event) :
  Forall bookkeeping evs -> attempts_in evs = 0%nat.
Proof.
  induction 1 as [|ev evs Hev _ IH]; [reflexivity|].
  destruct ev; simpl in *; try exact IH; contradiction.
Qed.

(** The calls under [try ... catch ... finally]: the opening calls, the
    working calls, the cleanup calls. *)
Lemma guarded_calls (w : world) (reason : string) (tabId : Z) (created : bool)
    (p : prefs) (s : state) :
  exists mid,
    calls (guarded w reason tabId created p s)
    = (opening_calls tabId created ++ mid ++ cleanup_calls tabId created p)%list /\
    Forall working mid.
Proof.
  rewrite guarded_run. cbv zeta. rewrite refresh_try_run.
  pose proof (emits_result_loop w tabId 3 3 1 None s) as Hd.
  fold (extractDashboardWithResultRetry w tabId 3) in Hd.
  assert (Hcatch : forall e s', Forall working (calls (refresh_catch w reason e s'))).
  { intros e s'. eapply Forall_weaken; [|apply (emits_fail_with w)].
    intros ev H. right. exact H. }
  assert (Hdrv : Forall working (calls (extractDashboardWithResultRetry w tabId 3 s))).
  { eapply Forall_weaken; [|exact Hd]. intros ev H. left. exact H. }
  destruct (tab_reaches_dashboard w).
  - cbv zeta.
    set (rd := extractDashboardWithResultRetry w tabId 3 s) in *.
    destruct (out rd) as [v|e] eqn:Hout.
    + assert (Hc : Forall working (calls (conclude w reason v (final rd)))).
      { eapply Forall_weaken; [|apply (emits_conclude w)]. intros ev H. right. exact H. }
      set (rc := conclude w reason v (final rd)) in *.
      cbn [out final calls].
      destruct (out rc) as [v'|e'] eqn:Hcout; cbn [out final calls].
      * exists (Sleep 120 :: calls rd ++ calls rc)%list. split.
        { rewrite <- app_assoc. reflexivity. }
        constructor; [left; exact I|]. apply Forall_app. split; assumption.
      * exists (Sleep 120 :: calls rd ++ calls rc
                  ++ calls (refresh_catch w reason e' (final rc)))%list. split.
        { rewrite <- !app_assoc. cbn [app]. rewrite <- !app_assoc. reflexivity. }
        constructor; [left; exact I|].
        apply Forall_app. split; [exact Hdrv|]. apply Forall_app. split; [exact Hc|].
        apply Hcatch.
    + cbn [out final calls].
      exists (Sleep 120 :: calls rd ++ calls (refresh_catch w reason e (final rd)))%list.
      split.
      { rewrite <- !app_assoc. cbn [app]. rewrite <- !app_assoc. reflexivity. }
      constructor; [left; exact I|]. apply Forall_app. split; [exact Hdrv | apply Hcatch].
  - cbn [out final calls].
    exists (calls (refresh_catch w reason (Js.Error "timeout_waiting_for_tab_url") s)).
    split.
    { rewrite <- !app_assoc. reflexivity. }
    apply Hcatch.
Qed.

End TabHandling.

(** X3.  A refresh that passes the rate-limit test and finds the host
    permission missing stops there: after the assignment of the gap its
    only calls are the permission check and the write of the
    [missing_host_permission] record; it reads no preference, touches no
    tab, and resolves to the tagged failure with that record once the write
    has resolved. *)
Theorem missing_permission_stops_before_tabs (w : Platform.world) (reason : string)
    (gl : Platform.globals) :
  Platform.nextAllowedRefreshAt gl <= Platform.clock w 0 ->
  Platform.permissions_contains w = Platform.Returned false ->
  let r := Worker.run_refresh w reason gl in
  let e := Platform.ErrorRecord (Platform.clock w 1) reason "missing_host_permission"
                                Platform.DAbsent in
  Platform.calls r =
    [Platform.AssignNextAllowed (Platform.nextAllowedRefreshAt gl)
                                (Platform.clock w 0 + MIN_REFRESH_GAP_MS);
     Platform.PermissionsContains;
     Platform.LocalSet (Platform.WriteLastError e) (write_resolves w 0)] /\
  existsb tab_operation (Platform.calls r) = false /\
  (write_resolves w 0 = true ->
   Platform.out r = Platform.Returned (Platform.RefreshFailed e)).
Proof.
  intros Hpass Hperm r e. subst r e.
  unfold Worker.run_refresh. rewrite refreshDashboardData_unfold. cbv zeta.
  unfold floor_of, Platform.start.
  cbn [Platform.g Platform.ticks Platform.injections Platform.local_sets].
  apply Z.ltb_ge in Hpass. rewrite Hpass.
  unfold after_gate, Worker.hasRightCodesPermission.
  assert (H1 : forall s, Platform.call Platform.PermissionsContains
                           (Platform.permissions_contains w) s
               = Platform.Res (Platform.Returned false) s [Platform.PermissionsContains]).
  { intros s. unfold Platform.call. rewrite Hperm. reflexivity. }
  rewrite (bind_returned _ _ _ _ _ _ (H1 _)). cbn [negb].
  rewrite fail_with_run. cbv zeta.
  cbn [Platform.g Platform.ticks Platform.injections Platform.local_sets].
  unfold write_resolves.
  destruct (Platform.storage_local_set w 0);
    cbn [Platform.out Platform.final Platform.calls app];
    repeat split; intros; try discriminate.
Qed.

(** X4.  A refresh that finds a dashboard tab already open only borrows
    it: it creates no tab, installs and removes no blocking rule, and never
    closes the tab, however the refresh ends. *)
Theorem existing_tab_is_only_borrowed (w : Platform.world) (reason : string)
    (gl : Platform.globals) (slot : sync_slot) (tabId : Z) :
  Platform.nextAllowedRefreshAt gl <= Platform.clock w 0 ->
  acquires w slot tabId false ->
  existsb own_tab_call (Platform.calls (Worker.run_refresh w reason gl)) = false.
Proof.
  intros Hpass Hacq.
  rewrite (run_refresh_acquired w reason gl slot tabId false Hpass Hacq).
  cbv zeta. cbn [Platform.calls].
  match goal with |- context [guarded w reason tabId false ?p ?s] =>
    destruct (guarded_calls w reason tabId false p s) as [mid [Hcalls Hmid]] end.
  rewrite Hcalls. unfold acquisition_calls, opening_calls, cleanup_calls.
  cbn [app andb existsb own_tab_call orb]. rewrite app_nil_r.
  apply existsb_none with (P := working); [apply working_not_own | exact Hmid].
Qed.

(** X5.  A refresh that created its tab always ends with the cleanup,
    whether it resolves to data, to a failure, or throws: its last calls
    are the removal of the blocking rule and then, when [closeTempTab] is
    set, the removal of the tab; no such call happens earlier. *)
Theorem temporary_tab_is_always_cleaned_up (w : Platform.world) (reason : string)
    (gl : Platform.globals) (slot : sync_slot) (tabId : Z) :
  Platform.nextAllowedRefreshAt gl <= Platform.clock w 0 ->
  acquires w slot tabId true ->
  exists pre,
    Platform.calls (Worker.run_refresh w reason gl)
    = (pre ++ Platform.ClearRule ::
         (if Js.truthy (closeTempTab (Background.getPrefs slot))
          then [Platform.TabsRemove tabId] else []))%list /\
    existsb cleanup_call pre = false.
Proof.
  intros Hpass Hacq.
  rewrite (run_refresh_acquired w reason gl slot tabId true Hpass Hacq).
  cbv zeta. cbn [Platform.calls].
  match goal with |- context [guarded w reason tabId true ?p ?s] =>
    destruct (guarded_calls w reason tabId true p s) as [mid [Hcalls Hmid]] end.
  rewrite Hcalls. unfold acquisition_calls, opening_calls, cleanup_calls.
  cbn [app andb].
  exists (Platform.AssignNextAllowed (Platform.nextAllowedRefreshAt gl)
            (Platform.clock w 0 + MIN_REFRESH_GAP_MS)
          :: Platform.PermissionsContains :: Platform.StorageSyncGet
          :: Platform.TabsQuery :: Platform.TabsCreate
          :: Platform.InstallRule tabId :: Platform.WaitForTabUrl tabId :: mid).
  split.
  - cbn [app]. reflexivity.
  - cbn [existsb cleanup_call orb].
    apply existsb_none with (P := working); [apply working_not_cleanup | exact Hmid].
Qed.

(** X6.  When the tab does not reach the dashboard before the timeout of
    [waitForTabUrl], the refresh injects nothing and waits for nothing
    else: it writes the [refresh_exception] record whose detail is
    [timeout_waiting_for_tab_url], runs the cleanup, and resolves to the
    tagged failure with that record. *)
Theorem readiness_timeout_is_reported (w : Platform.world) (reason : string)
    (gl : Platform.globals) (slot : sync_slot) (tabId : Z) (created : bool) :
  Platform.nextAllowedRefreshAt gl <= Platform.clock w 0 ->
  acquires w slot tabId created ->
  Platform.tab_reaches_dashboard w = false ->
  write_resolves w 0 = true ->
  let r := Worker.run_refresh w reason gl in
  let e := Platform.ErrorRecord (Platform.clock w 1) reason "refresh_exception"
             (Platform.DString "timeout_waiting_for_tab_url") in
  Platform.out r = Platform.Returned (Platform.RefreshFailed e) /\
  Platform.calls r =
    (Platform.AssignNextAllowed (Platform.nextAllowedRefreshAt gl)
                                (Platform.clock w 0 + MIN_REFRESH_GAP_MS)
     :: acquisition_calls created ++ opening_calls tabId created
        ++ Platform.LocalSet (Platform.WriteLastError e) true
        :: cleanup_calls tabId created (Background.getPrefs slot))%list /\
  attempts_in (Platform.calls r) = 0%nat /\
  sleeps (Platform.calls r) = [].
Proof.
  intros Hpass Hacq Hslow Hwrite r e. subst r.
  rewrite (run_refresh_acquired w reason gl slot tabId created Hpass Hacq).
  cbv zeta. rewrite guarded_run. cbv zeta. rewrite refresh_try_run. rewrite Hslow.
  cbn [Platform.out Platform.final Platform.calls].
  unfold Worker.refresh_catch. rewrite fail_with_run. cbv zeta.
  cbn [Platform.g Platform.ticks Platform.injections Platform.local_sets].
  unfold write_resolves in Hwrite.
  destruct (Platform.storage_local_set w 0); [|discriminate].
  cbn [Platform.out Platform.final Platform.calls].
  assert (Hmsg : Js.message_or_string (Js.Error "timeout_waiting_for_tab_url")
                 = "timeout_waiting_for_tab_url") by reflexivity.
  rewrite Hmsg. fold e.
  split; [reflexivity|]. split.
  { rewrite <- !app_assoc. reflexivity. }
  unfold acquisition_calls, opening_calls, cleanup_calls.
  destruct created; cbn [app andb];
    destruct (Js.truthy (closeTempTab (Background.getPrefs slot))); split; reflexivity.
Qed.

Section RefreshExamples.
Import Platform Worker.

(** A platform on which everything works: no dashboard tab is open, and
    the extractor runs in a page that shows the balance. *)
Definition ready_world : world :=
  {| clock := fun k => 1000 + Z.of_nat k;
     permissions_contains := Returned true;
     storage_sync_get := Returned SlotMissing;
     tabs_query := Returned [];
     tabs_create := Returned (Some (Tab (Some 7) ""));
     install_rule := Returned tt;
     tab_reaches_dashboard := true;
     tabs_get := fun _ => Returned (Some (Tab (Some 7) DASHBOARD_URL));
     execute_script := fun _ =>
       Returned (Some (Extractor.extractRightCodesDashboard 1000 page_balance_only));
     storage_local_set := fun _ => Returned tt;
     clear_rule := Returned tt;
     tabs_remove := Returned tt |}.

(** The cache after an earlier failure. *)
Definition stale_globals : globals :=
  Globals 0 (LocalStorage None
               (Some (ErrorRecord 5 "alarm" "extract_failed" (DString "main_not_found")))).

Lemma success_replaces_snapshot_and_clears_error_witness :
  storage_local (g (final (run_refresh ready_world "manual" stale_globals)))
  = LocalStorage (Some (empty_snapshot_with 1000 page_balance_only "12.50")) None.
Proof.
  apply (success_replaces_snapshot_and_clears_error ready_world "manual" stale_globals).
  vm_compute. reflexivity.
Defined.

(** The user has the dashboard open in tab 42; the page is not ready. *)
Definition open_tab_world : world :=
  {| clock := fun k => 1000 + Z.of_nat k;
     permissions_contains := Returned true;
     storage_sync_get := Returned SlotMissing;
     tabs_query := Returned [Tab None "about:blank"; Tab (Some 42) DASHBOARD_URL];
     tabs_create := Thrown (Js.Error "No current window");
     install_rule := Returned tt;
     tab_reaches_dashboard := true;
     tabs_get := fun _ => Returned (Some (Tab (Some 42) DASHBOARD_URL));
     execute_script := fun _ => Returned (Some (Extractor.Failure "main_not_found" 0));
     storage_local_set := fun _ => Returned tt;
     clear_rule := Returned tt;
     tabs_remove := Returned tt |}.

Lemma existing_tab_is_only_borrowed_witness :
  existsb own_tab_call (calls (run_refresh open_tab_world "manual" fresh_globals)) = false.
Proof.
  apply (existing_tab_is_only_borrowed open_tab_world "manual" fresh_globals SlotMissing 42).
  - vm_compute. discriminate.
  - split; [reflexivity|]. split; [reflexivity|].
    eexists. split; [reflexivity|]. eexists. split; reflexivity.
Defined.

Lemma temporary_tab_is_always_cleaned_up_witness :
  exists pre,
    calls (run_refresh ready_world "manual" fresh_globals)
    = (pre ++ [ClearRule; TabsRemove 7])%list /\
    existsb cleanup_call pre = false.
Proof.
  apply (temporary_tab_is_always_cleaned_up ready_world "manual" fresh_globals SlotMissing 7).
  - vm_compute. discriminate.
  - split; [reflexivity|]. split; [reflexivity|].
    eexists. split; [reflexivity|]. split; [reflexivity|].
    eexists. split; reflexivity.
Defined.

(** The browser refuses host access. *)
Definition no_permission_world : world :=
  {| clock := fun k => 1000 + Z.of_nat k;
     permissions_contains := Returned false;
     storage_sync_get := Returned SlotMissing;
     tabs_query := Returned [];
     tabs_create := Returned (Some (Tab (Some 7) ""));
     install_rule := Returned tt;
     tab_reaches_dashboard := true;
     tabs_get := fun _ => Returned (Some (Tab (Some 7) DASHBOARD_URL));
     execute_script := fun _ => Returned None;
     storage_local_set := fun _ => Returned tt;
     clear_rule := Returned tt;
     tabs_remove := Returned tt |}.

Lemma missing_permission_stops_before_tabs_witness :
  existsb tab_operation (calls (run_refresh no_permission_world "alarm" fresh_globals))
  = false.
Proof.
  apply (missing_permission_stops_before_tabs no_permission_world "alarm" fresh_globals).
  - vm_compute. discriminate.
  - reflexivity.
Defined.

(** The created tab never shows the dashboard (a redirect to the login,
    say). *)
Definition slow_tab_world : world :=
  {| clock := fun k => 1000 + Z.of_nat k;
     permissions_contains := Returned true;
     storage_sync_get := Returned SlotMissing;
     tabs_query := Returned [];
     tabs_create := Returned (Some (Tab (Some 7) ""));
     install_rule := Thrown (Js.Error "rule limit");
     tab_reaches_dashboard := false;
     tabs_get := fun _ => Returned (Some (Tab (Some 7) DASHBOARD_URL));
     execute_script := fun _ => Returned None;
     storage_local_set := fun _ => Returned tt;
     clear_rule := Returned tt;
     tabs_remove := Thrown (Js.Error "No tab with id: 7");
  |}.

Lemma readiness_timeout_is_reported_witness :
  out (run_refresh slow_tab_world "manual" fresh_globals)
  = Returned (RefreshFailed
      (ErrorRecord 1001 "manual" "refresh_exception"
                   (DString "timeout_waiting_for_tab_url"))).
Proof.
  apply (readiness_timeout_is_reported slow_tab_world "manual" fresh_globals SlotMissing 7 true).
  - vm_compute. discriminate.
  - split; [reflexivity|]. split; [reflexivity|].
    eexists. split; [reflexivity|]. split; [reflexivity|].
    eexists. split; reflexivity.
  - reflexivity.
  - reflexivity.
Defined.

End RefreshExamples.

(* ===================================================================== *)
(** * The budget of a refresh: injections and delays *)
(* ===================================================================== *)

Section Budget.
Import Platform Worker.

Variable w : world.

(** The time that a run spends in [sleep], in milliseconds. *)
Definition total_sleep (evs : list event) : Z := fold_right Z.add 0 (sleeps evs).

(** No run of [m] sleeps longer than [b] in all or injects more than [n]
    times. *)
Definition spends {A} (b : Z) (n : nat) (m : M A) : Prop :=
  forall s, total_sleep (calls (m s)) <= b /\ (attempts_in (calls (m s)) <= n)%nat.

(** A call that is neither a delay nor an injection. *)
Definition free_call (ev : event) : Prop :=
  match ev with
  | Sleep _ | TabsGet _ => False
  | _ => True
  end.

Lemma total_sleep_app (a b : list event) :
  total_sleep (a ++ b) = total_sleep a + total_sleep b.
Proof.
  unfold total_sleep. rewrite sleeps_app, fold_right_app.
  induction (sleeps a) as [|x l IH]; simpl; lia.
Qed.

Lemma free_calls_cost_nothing (evs : list event) :
  Forall free_call evs -> total_sleep evs = 0 /\ attempts_in evs = 0%nat.
Proof.
  induction 1 as [|ev evs Hev _ [IH1 IH2]]; [split; reflexivity|].
  destruct ev; simpl in *; try contradiction; split; assumption.
Qed.

Lemma spends_free {A} (m : M A) : emits free_call m -> spends 0 0 m.
Proof.
  intros Hm s. destruct (free_calls_cost_nothing _ (Hm s)) as [H1 H2].
  rewrite H1, H2. split; lia.
Qed.

Lemma spends_weaken {A} (b b' : Z) (n n' : nat) (m : M A) :
  b <= b' -> (n <= n')%nat -> spends b n m -> spends b' n' m.
Proof. intros Hb Hn Hm s. destruct (Hm s). split; lia. Qed.

Lemma spends_bind {A B} (b1 b2 : Z) (n1 n2 : nat) (m : M A) (k : A -> M B) :
  0 <= b2 -> spends b1 n1 m -> (forall a, spends b2 n2 (k a)) ->
  spends (b1 + b2) (n1 + n2) (bind m k).
Proof.
  intros Hb Hm Hk s. unfold bind. destruct (Hm s) as [H1 H2].
  destruct (out (m s)) as [a|e]; cbn [calls].
  - destruct (Hk a (final (m s))) as [H3 H4].
    rewrite total_sleep_app, attempts_in_app. split; lia.
  - split; lia.
Qed.

Lemma spends_try_catch {A} (b1 b2 : Z) (n1 n2 : nat) (m : M A) (h : Js.exn -> M A) :
  0 <= b2 -> spends b1 n1 m -> (forall e, spends b2 n2 (h e)) ->
  spends (b1 + b2) (n1 + n2) (try_catch m h).
Proof.
  intros Hb Hm Hh s. unfold try_catch. destruct (Hm s) as [H1 H2].
  destruct (out (m s)) as [a|e]; cbn [calls].
  - split; lia.
  - destruct (Hh e (final (m s))) as [H3 H4].
    rewrite total_sleep_app, attempts_in_app. split; lia.
Qed.

Lemma spends_finally {A} (b : Z) (n : nat) (m : M A) (f : M unit) :
  spends b n m -> spends 0 0 f -> spends b n (finally m f).
Proof.
  intros Hm Hf s. unfold finally.
  destruct (Hm s) as [H1 H2]. destruct (Hf (final (m s))) as [H3 H4].
  destruct (out (f (final (m s)))); cbn [calls];
    rewrite total_sleep_app, attempts_in_app; split; lia.
Qed.

Lemma spends_throw {A} (b : Z) (n : nat) (e : Js.exn) : 0 <= b -> spends b n (@throw A e).
Proof. intros Hb s. cbn [throw calls]. unfold total_sleep. cbn. split; lia. Qed.

Lemma spends_ret {A} (b : Z) (n : nat) (a : A) : 0 <= b -> spends b n (ret a).
Proof. intros Hb s. cbn [ret calls]. unfold total_sleep. cbn. split; lia. Qed.

Lemma spends_sleep (ms : Z) : spends ms 0 (sleep ms).
Proof. intros s. unfold total_sleep. simpl. split; lia. Qed.

Lemma spends_inject_once (tabId : Z) : spends 0 1 (inject_once w tabId).
Proof.
  intros s. destruct (inject_once_run w tabId s) as [_ [_ [Hsl [Hat _]]]].
  unfold total_sleep. rewrite Hsl, Hat. simpl. split; lia.
Qed.

(** The delays that remain from the turn [attempt] with [left] turns to
    go: [unit] times the number of each turn but the last. *)
Fixpoint backoff (unit : Z) (left attempt : nat) : Z :=
  match left with
  | O => 0
  | S left' =>
      match left' with
      | O => 0
      | S _ => unit * Z.of_nat attempt + backoff unit left' (S attempt)
      end
  end.

Lemma backoff_nonneg (unit : Z) (left attempt : nat) :
  0 <= unit -> 0 <= backoff unit left attempt.
Proof.
  intros Hu. revert attempt. induction left as [|left IH]; intros attempt; simpl; [lia|].
  destruct left as [|left']; [lia|]. specialize (IH (S attempt)). nia.
Qed.

Lemma spends_extract_loop (tabId : Z) (maxAttempts : nat) :
  forall left attempt lastErr,
    (attempt + left = S maxAttempts)%nat ->
    spends (backoff 220 left attempt) left
           (extract_loop w left tabId maxAttempts attempt lastErr).
Proof.
  induction left as [|left IH]; intros attempt lastErr Hsum; cbn [extract_loop].
  - apply spends_throw. simpl. lia.
  - assert (Hle : (attempt <=? maxAttempts)%nat = true) by (apply Nat.leb_le; lia).
    rewrite Hle.
    pose proof (backoff_nonneg 220 (S left) attempt ltac:(lia)) as Hnn.
    apply (spends_weaken (0 + backoff 220 (S left) attempt) _ (1 + left) _);
      [lia | lia |].
    apply spends_try_catch; [exact Hnn | apply spends_inject_once |].
    intros e. destruct (negb (retryable e) || (attempt =? maxAttempts)%nat)%bool eqn:Hstop.
    + apply spends_throw. exact Hnn.
    + apply orb_false_iff in Hstop. destruct Hstop as [_ Hmore].
      apply Nat.eqb_neq in Hmore.
      destruct left as [|left']; [lia|].
      change (backoff 220 (S (S left')) attempt)
        with (220 * Z.of_nat attempt + backoff 220 (S left') (S attempt)).
      change (S left') with (0 + S left')%nat at 2.
      apply spends_bind.
      * apply backoff_nonneg. lia.
      * apply spends_sleep.
      * intros _. apply IH. lia.
Qed.

Lemma spends_executeExtractWithRetry (tabId : Z) :
  spends 1320 4 (executeExtractWithRetry w tabId 4).
Proof. apply (spends_extract_loop tabId 4 4 1 None). reflexivity. Qed.

(** The budget of the result-level loop: each turn one run of the inner
    driver, and a delay after each turn but the last. *)
Fixpoint result_budget (left attempt : nat) : Z :=
  match left with
  | O => 0
  | S left' =>
      1320 + match left' with
             | O => 0
             | S _ => 300 * Z.of_nat attempt + result_budget left' (S attempt)
             end
  end.

Lemma result_budget_nonneg (left attempt : nat) : 0 <= result_budget left attempt.
Proof.
  revert attempt. induction left as [|left IH]; intros attempt; simpl; [lia|].
  destruct left as [|left']; [lia|]. specialize (IH (S attempt)). lia.
Qed.

Lemma spends_result_loop (tabId : Z) (maxAttempts : nat) :
  forall left attempt lastResult,
    (attempt + left = S maxAttempts)%nat ->
    spends (result_budget left attempt) (4 * left)
           (result_loop w left tabId maxAttempts attempt lastResult).
Proof.
  induction left as [|left IH]; intros attempt lastResult Hsum; cbn [result_loop].
  - apply spends_ret. simpl. lia.
  - assert (Hle : (attempt <=? maxAttempts)%nat = true) by (apply Nat.leb_le; lia).
    rewrite Hle.
    set (rest := match left with
                 | O => 0
                 | S _ => 300 * Z.of_nat attempt + result_budget left (S attempt)
                 end).
    assert (Hrest : 0 <= rest).
    { subst rest. destruct left; [lia|].
      pose proof (result_budget_nonneg (S left) (S attempt)). lia. }
    apply (spends_weaken (1320 + rest) _ (4 + 4 * left) _);
      [subst rest; cbn [result_budget]; lia | lia |].
    apply spends_bind; [exact Hrest | apply spends_executeExtractWithRetry |].
    intros result.
    assert (Hdone : forall v : option Extractor.result, spends rest (4 * left) (ret v)).
    { intros v. apply spends_ret. exact Hrest. }
    destruct (result_ok result); [apply Hdone|].
    destruct (negb (retryableResult result) || (attempt =? maxAttempts)%nat)%bool eqn:Hstop;
      [apply Hdone|].
    apply orb_false_iff in Hstop. destruct Hstop as [_ Hmore].
    apply Nat.eqb_neq in Hmore.
    destruct left as [|left']; [lia|]. subst rest.
    apply (spends_weaken (300 * Z.of_nat attempt + result_budget (S left') (S attempt)) _
                         (0 + 4 * S left') _); [lia | lia |].
    apply spends_bind.
    + apply result_budget_nonneg.
    + apply spends_sleep.
    + intros _. apply IH. lia.
Qed.

Lemma spends_extractDashboardWithResultRetry (tabId : Z) :
  spends 4860 12 (extractDashboardWithResultRetry w tabId 3).
Proof. apply (spends_result_loop tabId 3 3 1 None). reflexivity. Qed.

Lemma bookkeeping_free (ev : event) : bookkeeping ev -> free_call ev.
Proof. destruct ev; simpl; tauto. Qed.

Lemma spends_fail_with (reason code : string) (d : detail) :
  spends 0 0 (fail_with w reason code d).
Proof.
  apply spends_free. intros s.
  eapply Forall_weaken; [apply bookkeeping_free | apply (emits_fail_with w)].
Qed.

Lemma spends_refresh_try (reason : string) (tabId : Z) (created : bool) :
  spends 4980 12 (refresh_try w reason tabId created).
Proof.
  rewrite refresh_try_branch. fold (conclude w reason).
  apply (spends_weaken (0 + (0 + (120 + (4860 + 0)))) _ (0 + (0 + (0 + (12 + 0)))) _);
    [lia | lia |].
  apply spends_bind; [lia | |].
  { apply spends_free. destruct created; [|apply emits_ret].
    apply emits_try_catch; [apply emits_call; exact I | intros; apply emits_ret]. }
  intros _. apply spends_bind; [lia | |].
  { apply spends_free. unfold waitForTabUrl.
    apply emits_bind; [apply emits_log; exact I|].
    intros _. destruct (tab_reaches_dashboard w); [apply emits_ret | apply emits_throw]. }
  intros _. apply spends_bind; [lia | apply spends_sleep |].
  intros _. apply spends_bind; [lia | apply spends_extractDashboardWithResultRetry |].
  intros v. apply spends_free. intros s.
  eapply Forall_weaken; [apply bookkeeping_free | apply (emits_conclude w)].
Qed.

Lemma spends_after_gate (reason : string) : spends 4980 12 (after_gate w reason).
Proof.
  unfold after_gate.
  apply (spends_weaken (0 + 4980) _ (0 + 12) _); [lia | lia |].
  apply spends_bind; [lia | apply spends_free, emits_call; exact I |].
  intros hasPerm.
  destruct (negb hasPerm).
  { apply (spends_weaken 0 _ 0 _); [lia | lia | apply spends_fail_with]. }
  apply (spends_weaken (0 + 4980) _ (0 + 12) _); [lia | lia |].
  apply spends_bind; [lia | |].
  { apply spends_free. unfold getPrefs.
    apply emits_bind; [apply emits_call; exact I | intros; apply emits_ret]. }
  intros prefs.
  apply (spends_weaken (0 + 4980) _ (0 + 12) _); [lia | lia |].
  apply spends_bind; [lia | |].
  { apply spends_free. unfold findExistingDashboardTab.
    apply emits_bind; [apply emits_call; exact I | intros; apply emits_ret]. }
  intros found.
  apply (spends_weaken (0 + 4980) _ (0 + 12) _); [lia | lia |].
  apply spends_bind; [lia | |].
  { apply spends_free. destruct found; [apply emits_ret|].
    apply emits_bind; [apply emits_call; exact I | intros; apply emits_ret]. }
  intros [tab created]. destruct (usable_id tab) as [tabId|].
  2:{ apply (spends_weaken 0 _ 0 _); [lia | lia | apply spends_fail_with]. }
  apply spends_finally.
  - apply (spends_weaken (4980 + 0) _ (12 + 0) _); [lia | lia |].
    apply spends_try_catch; [lia | apply spends_refresh_try |].
    intros e. apply spends_fail_with.
  - intros s. rewrite refresh_finally_run. cbn [calls]. unfold cleanup_calls.
    destruct created; cbn [andb app];
      destruct (Js.truthy (closeTempTab prefs)); unfold total_sleep; simpl; split; lia.
Qed.

End Budget.

(** X7.  Whatever the platform answers, one refresh injects the extractor
    at most 12 times and spends at most 4980 ms in its own delays (the
    settle delay of 120 ms and the two back-offs); the two nested retry
    drivers together inject at most 12 times and back off for at most
    4860 ms, the inner one alone at most 4 times and 1320 ms. *)
Theorem refresh_retry_budget (w : Platform.world) (reason : string) (gl : Platform.globals) :
  let r := Worker.run_refresh w reason gl in
  (attempts_in (Platform.calls r) <= 12)%nat /\
  total_sleep (Platform.calls r) <= 4980 /\
  (forall tabId s,
     let rd := Worker.extractDashboardWithResultRetry w tabId 3 s in
     (attempts_in (Platform.calls rd) <= 12)%nat /\ total_sleep (Platform.calls rd) <= 4860) /\
  (forall tabId s,
     let ri := Worker.executeExtractWithRetry w tabId 4 s in
     (attempts_in (Platform.calls ri) <= 4)%nat /\ total_sleep (Platform.calls ri) <= 1320).
Proof.
  intros r. split; [|split; [|split]].
  - subst r. unfold Worker.run_refresh. rewrite refreshDashboardData_unfold. cbv zeta.
    destruct (_ <? _).
    + match goal with |- context [Worker.fail_with ?a ?b ?c ?d ?s] =>
        destruct (spends_fail_with a b c d s) as [_ H] end. lia.
    + match goal with |- context [after_gate w reason ?s] =>
        destruct (spends_after_gate w reason s) as [_ H] end.
      cbn [Platform.calls attempts_in]. exact H.
  - subst r. unfold Worker.run_refresh. rewrite refreshDashboardData_unfold. cbv zeta.
    destruct (_ <? _).
    + match goal with |- context [Worker.fail_with ?a ?b ?c ?d ?s] =>
        destruct (spends_fail_with a b c d s) as [H _] end. lia.
    + match goal with |- context [after_gate w reason ?s] =>
        destruct (spends_after_gate w reason s) as [H _] end.
      cbn [Platform.calls]. unfold total_sleep in *. cbn [sleeps]. exact H.
  - intros tabId s. cbv zeta.
    destruct (spends_extractDashboardWithResultRetry w tabId s). split; assumption.
  - intros tabId s. cbv zeta.
    destruct (spends_executeExtractWithRetry w tabId s). split; assumption.
Qed.

(** X8.  The caps of the two retry drivers are parameters.  With a cap of
    0 neither driver injects anything: [executeExtractWithRetry] throws
    [Error("extract_retry_failed")] and [extractDashboardWithResultRetry]
    resolves to [null].  With a cap [m >= 1] the first driver makes between
    1 and [m] attempts, backs off 220 ms times the number of each failed
    attempt, retries only after a transient failure, and ends as its last
    attempt ended. *)
Theorem retry_drivers_any_cap (w : Platform.world) (tabId : Z) (m : nat)
    (s : Platform.state) :
  let r := Worker.executeExtractWithRetry w tabId m s in
  (Worker.executeExtractWithRetry w tabId 0 s
   = Platform.Res (Platform.Thrown (Js.Error "extract_retry_failed")) s []) /\
  (Worker.extractDashboardWithResultRetry w tabId 0 s
   = Platform.Res (Platform.Returned None) s []) /\
  ((1 <= m)%nat ->
   exists n,
     (1 <= n <= m)%nat /\
     attempts_in (Platform.calls r) = n /\
     sleeps (Platform.calls r) = List.map (fun k => 220 * Z.of_nat k) (seq 1 (n - 1)) /\
     (forall k, (k < n - 1)%nat -> transient w (Platform.injections s + k) = true) /\
     Platform.out r = attempt_answer w (Platform.injections s + (n - 1)) /\
     ((n < m)%nat -> transient w (Platform.injections s + (n - 1)) = false)).
Proof.
  intros r. split; [reflexivity|]. split; [reflexivity|].
  intros Hm.
  destruct (extract_loop_run w tabId m m 1 None s Hm ltac:(lia))
    as [n [Hn [_ [Hat [Hsl [Htr [Hout [Hstop _]]]]]]]].
  exists n. repeat split; try lia; assumption.
Qed.

(* ===================================================================== *)
(** * The alarm synchronizer and the preference writer *)
(* ===================================================================== *)

From Stdlib Require QArith.

Module Alarms.
Import Platform.

(** A JavaScript number as far as [Number.isFinite] and the comparison
    with 0 can tell: the exact value of a finite double is a rational. *)
Inductive number :=
| NaN
| Infinity (negative : bool)
| Finite (q : QArith_base.Q).

Definition isFinite (n : number) : bool :=
  match n with Finite _ => true | _ => false end.

(** [n <= 0]; false for [NaN]. *)
Definition le_zero (n : number) : bool :=
  match n with
  | NaN => false
  | Infinity negative => negative
  | Finite q => QArith_base.Qle_bool q (QArith_base.inject_Z 0)
  end.

Section Sync.

(** [Number(s)] for a string is left open: it is the conversion of the
    language, whatever it answers. *)
Variable number_of_string : string -> number.

(** [Number(v)]. *)
Definition Number (v : Js.value) : number :=
  match v with
  | Js.VUndefined => NaN
  | Js.VNull => Finite (QArith_base.inject_Z 0)
  | Js.VBool b => Finite (QArith_base.inject_Z (if b then 1 else 0))
  | Js.VNumber n => Finite (QArith_base.inject_Z n)
  | Js.VString s => number_of_string s
  end.

(** The calls of the synchronizer. *)
Inductive alarm_call :=
| SyncGet                              (* [chrome.storage.sync.get] *)
| AlarmsClear                          (* [chrome.alarms.clear(AUTO_REFRESH_ALARM)] *)
| AlarmsCreate (periodInMinutes : number).

(** [syncAlarmWithPrefs()]: how it ends and the calls it makes, for the
    answers of the two awaited calls. *)
Definition syncAlarmWithPrefs (sync_get : outcome sync_slot) (alarms_clear : outcome bool)
  : outcome unit * list alarm_call :=
  match sync_get with
  | Thrown e => (Thrown e, [SyncGet])
  | Returned slot =>
      let prefs := Background.getPrefs slot in
      match alarms_clear with
      | Thrown e => (Thrown e, [SyncGet; AlarmsClear])
      | Returned _ =>
          if negb (Js.truthy (autoRefresh prefs)) then (Returned tt, [SyncGet; AlarmsClear])
          else
            let minutes := Number (refreshMinutes prefs) in
            if (negb (isFinite minutes) || le_zero minutes)%bool
            then (Returned tt, [SyncGet; AlarmsClear])
            else (Returned tt, [SyncGet; AlarmsClear; AlarmsCreate minutes])
      end
  end.

End Sync.

End Alarms.

Module Popup.

(** [{ ...prefs, ...partial }]: a key of [partial] overrides. *)
Definition spread (p : prefs) (partial : stored_prefs) : stored_prefs :=
  StoredPrefs (Some (default (autoRefresh p) (s_autoRefresh partial)))
              (Some (default (autoRefreshExplicit p) (s_autoRefreshExplicit partial)))
              (Some (default (refreshMinutes p) (s_refreshMinutes partial)))
              (Some (default (closeTempTab p) (s_closeTempTab partial))).

(** [setPrefs(partial)] between its read and its write: what it stores
    under [rcdm_prefs], given what is there. *)
Definition setPrefs (partial : stored_prefs) (slot : sync_slot) : sync_slot :=
  SlotObject (spread (UI.getPrefs slot) partial).

(** The object that the toggle of the popup passes to [setPrefs]. *)
Definition toggle (checked : bool) : stored_prefs :=
  StoredPrefs (Some (Js.VBool checked)) (Some (Js.VBool true)) None None.

(** The object that the interval selector passes to [setPrefs]. *)
Definition select_minutes (minutes : Js.value) : stored_prefs :=
  StoredPrefs None None (Some minutes) None.

End Popup.

Section Preferences.
Import Alarms Popup.

(** [getPrefs] on an object that holds the four keys. *)
Lemma getPrefs_full_object (a b c d : Js.value) :
  UI.getPrefs (SlotObject (StoredPrefs (Some a) (Some b) (Some c) (Some d)))
  = if Js.truthy b then Prefs a b c d else Prefs (Js.VBool false) b c d.
Proof. unfold UI.getPrefs. simpl. destruct (Js.truthy b); reflexivity. Qed.

(** What [getPrefs] returns after [setPrefs(partial)]: each key of the
    partial object, else the key as it was read; [autoRefresh] under the
    guard of the explicit flag. *)
Lemma getPrefs_after_setPrefs (partial : stored_prefs) (slot : sync_slot) :
  let before := UI.getPrefs slot in
  let after := UI.getPrefs (setPrefs partial slot) in
  autoRefreshExplicit after
    = default (autoRefreshExplicit before) (s_autoRefreshExplicit partial) /\
  refreshMinutes after = default (refreshMinutes before) (s_refreshMinutes partial) /\
  closeTempTab after = default (closeTempTab before) (s_closeTempTab partial) /\
  autoRefresh after
    = if Js.truthy (autoRefreshExplicit after)
      then default (autoRefresh before) (s_autoRefresh partial)
      else Js.VBool false.
Proof.
  intros before after. subst after. unfold setPrefs, spread. fold before.
  rewrite getPrefs_full_object.
  destruct (Js.truthy (default (autoRefreshExplicit before)
                               (s_autoRefreshExplicit partial))) eqn:Hflag;
    cbn [autoRefresh autoRefreshExplicit refreshMinutes closeTempTab];
    rewrite Hflag; repeat split.
Qed.

(** What [getPrefs] returns obeys the guard: without the explicit flag
    [autoRefresh] is [false]. *)
Lemma getPrefs_guarded (slot : sync_slot) :
  Js.truthy (autoRefreshExplicit (UI.getPrefs slot)) = false ->
  autoRefresh (UI.getPrefs slot) = Js.VBool false.
Proof.
  unfold UI.getPrefs.
  destruct (negb (Js.truthy (autoRefreshExplicit (spread_over_defaults (stored_object slot)))))
    eqn:Hflag; cbn [autoRefresh autoRefreshExplicit]; [reflexivity|].
  apply negb_false_iff in Hflag. congruence.
Qed.

Lemma prefs_eq (p q : prefs) :
  autoRefresh p = autoRefresh q -> autoRefreshExplicit p = autoRefreshExplicit q ->
  refreshMinutes p = refreshMinutes q -> closeTempTab p = closeTempTab q -> p = q.
Proof. destruct p, q. simpl. intros; subst; reflexivity. Qed.

(** X9.  Writing preferences and reading them back: after
    [setPrefs(partial)], [getPrefs] returns every key of [partial] as
    given and every other key as it was read before, except that
    [autoRefresh] is [false] whenever the resulting [autoRefreshExplicit] is
    falsy; [setPrefs({})] changes nothing of what [getPrefs] returns. *)
Theorem setPrefs_getPrefs_round_trip (partial : stored_prefs) (slot : sync_slot) :
  let before := UI.getPrefs slot in
  let after := UI.getPrefs (setPrefs partial slot) in
  autoRefreshExplicit after
    = default (autoRefreshExplicit before) (s_autoRefreshExplicit partial) /\
  refreshMinutes after = default (refreshMinutes before) (s_refreshMinutes partial) /\
  closeTempTab after = default (closeTempTab before) (s_closeTempTab partial) /\
  autoRefresh after
    = (if Js.truthy (autoRefreshExplicit after)
       then default (autoRefresh before) (s_autoRefresh partial)
       else Js.VBool false) /\
  UI.getPrefs (setPrefs empty_object slot) = before.
Proof.
  intros before after.
  destruct (getPrefs_after_setPrefs partial slot) as [H1 [H2 [H3 H4]]].
  fold before in H1, H2, H3, H4. fold after in H1, H2, H3, H4.
  repeat split; try assumption.
  destruct (getPrefs_after_setPrefs empty_object slot) as [E1 [E2 [E3 E4]]].
  fold before in E1, E2, E3, E4. cbn [empty_object s_autoRefresh s_autoRefreshExplicit
    s_refreshMinutes s_closeTempTab default] in E1, E2, E3, E4.
  apply prefs_eq; try assumption.
  rewrite E4, E1.
  destruct (Js.truthy (autoRefreshExplicit before)) eqn:Hflag; [reflexivity|].
  symmetry. apply getPrefs_guarded. exact Hflag.
Qed.

(** X10.  The two controls of the popup.  The auto-refresh switch stores
    its state together with the explicit flag, so afterwards [getPrefs]
    returns [autoRefresh] exactly as switched, from any stored state, a
    legacy one included, and leaves the interval and [closeTempTab] alone.
    The interval selector stores the interval and changes neither
    [autoRefresh] nor the explicit flag: choosing an interval never opts
    in. *)
Theorem popup_controls (slot : sync_slot) (checked : bool) (minutes : Js.value) :
  let before := UI.getPrefs slot in
  let switched := UI.getPrefs (setPrefs (toggle checked) slot) in
  let selected := UI.getPrefs (setPrefs (select_minutes minutes) slot) in
  switched = Prefs (Js.VBool checked) (Js.VBool true)
                   (refreshMinutes before) (closeTempTab before) /\
  selected = Prefs (autoRefresh before) (autoRefreshExplicit before)
                   minutes (closeTempTab before).
Proof.
  intros before switched selected. split.
  - destruct (getPrefs_after_setPrefs (toggle checked) slot) as [H1 [H2 [H3 H4]]].
    fold before in H1, H2, H3, H4. fold switched in H1, H2, H3, H4.
    cbn [toggle s_autoRefresh s_autoRefreshExplicit s_refreshMinutes s_closeTempTab
         default] in H1, H2, H3, H4.
    rewrite H1 in H4. cbn [Js.truthy] in H4.
    apply prefs_eq; assumption.
  - destruct (getPrefs_after_setPrefs (select_minutes minutes) slot) as [H1 [H2 [H3 H4]]].
    fold before in H1, H2, H3, H4. fold selected in H1, H2, H3, H4.
    cbn [select_minutes s_autoRefresh s_autoRefreshExplicit s_refreshMinutes
         s_closeTempTab default] in H1, H2, H3, H4.
    apply prefs_eq; try assumption. cbn [autoRefresh].
    rewrite H4, H1.
    destruct (Js.truthy (autoRefreshExplicit before)) eqn:Hflag; [reflexivity|].
    symmetry. apply getPrefs_guarded. exact Hflag.
Qed.

(** The calls of the synchronizer when both awaited calls resolve. *)
Lemma syncAlarmWithPrefs_resolved (number_of_string : string -> number)
    (slot : sync_slot) (b : bool) :
  let p := Background.getPrefs slot in
  let minutes := Number number_of_string (refreshMinutes p) in
  syncAlarmWithPrefs number_of_string (Platform.Returned slot) (Platform.Returned b)
  = (Platform.Returned tt,
     if (Js.truthy (autoRefresh p) && isFinite minutes && negb (le_zero minutes))%bool
     then [SyncGet; AlarmsClear; AlarmsCreate minutes]
     else [SyncGet; AlarmsClear]).
Proof.
  cbv zeta. unfold syncAlarmWithPrefs.
  destruct (Js.truthy (autoRefresh (Background.getPrefs slot))); cbn [negb andb]; [|reflexivity].
  destruct (isFinite _); cbn [negb orb andb]; [|reflexivity].
  destruct (le_zero _); reflexivity.
Qed.

(** X11.  [syncAlarmWithPrefs] creates the alarm in one case only: the
    preferences were read, the old alarm was cleared, the stored
    [autoRefreshExplicit] and [autoRefresh] are both truthy, and
    [Number(refreshMinutes)] is finite and above 0; the period of the alarm
    is that number.  In particular preferences without the explicit flag
    never schedule a refresh, whatever [autoRefresh] and interval they
    hold, and when the read or the clearing rejects nothing is created. *)
Theorem alarm_needs_opt_in_and_positive_interval (number_of_string : string -> number)
    (sync_get : Platform.outcome sync_slot) (alarms_clear : Platform.outcome bool)
    (period : number) :
  In (AlarmsCreate period) (snd (syncAlarmWithPrefs number_of_string sync_get alarms_clear))
  <->
  exists slot b,
    sync_get = Platform.Returned slot /\ alarms_clear = Platform.Returned b /\
    Js.truthy (explicit_flag slot) = true /\
    Js.truthy (autoRefresh (spread_over_defaults (stored_object slot))) = true /\
    period = Number number_of_string (refreshMinutes (Background.getPrefs slot)) /\
    isFinite period = true /\ le_zero period = false.
Proof.
  split.
  - destruct sync_get as [slot|e]; [|simpl; intros [H|[]]; discriminate].
    destruct alarms_clear as [b|e]; [|simpl; intros [H|[H|[]]]; discriminate].
    rewrite syncAlarmWithPrefs_resolved. cbv zeta. cbn [snd].
    destruct (Js.truthy (autoRefresh (Background.getPrefs slot))) eqn:Hauto;
      cbn [andb]; [|simpl; intros [H|[H|[]]]; discriminate].
    destruct (isFinite _) eqn:Hfin; cbn [andb]; [|simpl; intros [H|[H|[]]]; discriminate].
    destruct (le_zero _) eqn:Hle; cbn [negb]; [simpl; intros [H|[H|[]]]; discriminate|].
    simpl. intros [H|[H|[H|[]]]]; try discriminate. inversion H; subst period.
    exists slot, b.
    assert (Hflag : Js.truthy (explicit_flag slot) = true).
    { destruct (Js.truthy (explicit_flag slot)) eqn:Hf; [reflexivity|].
      rewrite <- readers_agree in Hauto.
      rewrite getPrefs_guarded in Hauto; [discriminate|].
      rewrite readers_agree, getPrefs_keeps_explicit. exact Hf. }
    repeat split; try assumption.
    revert Hauto. unfold Background.getPrefs. fold (explicit_flag slot).
    rewrite Hflag. cbn [negb]. auto.
  - intros [slot [b [Hs [Hc [Hflag [Hauto [Hp [Hfin Hle]]]]]]]]. subst sync_get alarms_clear.
    rewrite syncAlarmWithPrefs_resolved. cbv zeta. cbn [snd].
    assert (Hauto' : Js.truthy (autoRefresh (Background.getPrefs slot)) = true).
    { unfold Background.getPrefs. fold (explicit_flag slot). rewrite Hflag. exact Hauto. }
    rewrite Hauto', <- Hp, Hfin, Hle. simpl. auto.
Qed.

(** X12.  The switch of the popup and the synchronizer together.  After
    the switch is turned off, a synchronization clears the alarm and
    creates none.  After it is turned on, a synchronization clears the alarm
    and creates one whose period is the stored interval, provided that
    interval is a finite number above 0; this holds from any stored state. *)
Theorem switch_then_sync (number_of_string : string -> number) (slot : sync_slot)
    (b : bool) :
  let minutes := Number number_of_string (refreshMinutes (UI.getPrefs slot)) in
  snd (syncAlarmWithPrefs number_of_string
         (Platform.Returned (setPrefs (toggle false) slot)) (Platform.Returned b))
  = [SyncGet; AlarmsClear] /\
  (isFinite minutes = true -> le_zero minutes = false ->
   snd (syncAlarmWithPrefs number_of_string
          (Platform.Returned (setPrefs (toggle true) slot)) (Platform.Returned b))
   = [SyncGet; AlarmsClear; AlarmsCreate minutes]).
Proof.
  intros minutes.
  assert (Hsw : forall checked,
    Background.getPrefs (setPrefs (toggle checked) slot)
    = Prefs (Js.VBool checked) (Js.VBool true)
            (refreshMinutes (UI.getPrefs slot)) (closeTempTab (UI.getPrefs slot))).
  { intros checked. rewrite <- readers_agree.
    destruct (getPrefs_after_setPrefs (toggle checked) slot) as [H1 [H2 [H3 H4]]].
    cbn [toggle s_autoRefresh s_autoRefreshExplicit s_refreshMinutes s_closeTempTab
         default] in H1, H2, H3, H4.
    rewrite H1 in H4. cbn [Js.truthy] in H4.
    apply prefs_eq; assumption. }
  split.
  - rewrite syncAlarmWithPrefs_resolved. cbv zeta. rewrite Hsw. reflexivity.
  - intros Hfin Hle.
    rewrite syncAlarmWithPrefs_resolved. cbv zeta. rewrite Hsw.
    cbn [autoRefresh refreshMinutes Js.truthy andb]. fold minutes.
    rewrite Hfin, Hle. reflexivity.
Qed.

End Preferences.

(* ===================================================================== *)
(** * Text helpers of the popup *)
(* ===================================================================== *)

From Stdlib Require DecimalString.

Module PopupText.

(** [s.replaceAll(c, rep)] for a pattern of one character. *)
Fixpoint replaceAll (c : ascii) (rep : string) (s : string) : string :=
  match s with
  | EmptyString => EmptyString
  | String a r =>
      if Ascii.eqb a c then String.append rep (replaceAll c rep r)
      else String a (replaceAll c rep r)
  end.

Definition amp : ascii := ascii_of_nat 38.
Definition lt : ascii := ascii_of_nat 60.
Definition gt : ascii := ascii_of_nat 62.
Definition quot : ascii := ascii_of_nat 34.
Definition apos : ascii := ascii_of_nat 39.

(** [escapeHtml(s)]; [None] is [null] or [undefined]. *)
Definition escapeHtml (s : option string) : string :=
  replaceAll apos "&#039;"
    (replaceAll quot "&quot;"
       (replaceAll gt "&gt;"
          (replaceAll lt "&lt;"
             (replaceAll amp "&amp;" (default "" s))))).

(** The entity of one character. *)
Definition entity (a : ascii) : string :=
  if Ascii.eqb a amp then "&amp;"
  else if Ascii.eqb a lt then "&lt;"
  else if Ascii.eqb a gt then "&gt;"
  else if Ascii.eqb a quot then "&quot;"
  else if Ascii.eqb a apos then "&#039;"
  else String a EmptyString.

(** The escape in one pass over the text. *)
Fixpoint escape_each (s : string) : string :=
  match s with
  | EmptyString => EmptyString
  | String a r => String.append (entity a) (escape_each r)
  end.

Fixpoint occurs (c : ascii) (s : string) : bool :=
  match s with
  | EmptyString => false
  | String a r => (Ascii.eqb a c || occurs c r)%bool
  end.

(** [String(n)] for an integer [n >= 0]. *)
Definition decimal (n : Z) : string :=
  DecimalString.NilZero.string_of_uint (N.to_uint (Z.to_N n)).

(** [String(n).padStart(2, "0")]. *)
Definition pad2 (n : Z) : string :=
  let d := decimal n in
  if (String.length d <? 2)%nat then String "0"%char d else d.

(** A number of the popup: [NaN], or an integer.  The integers stand for
    the doubles of the source below 2^53 in absolute value, on which
    [Math.floor], the division that it follows, [%], the additions and the
    subtractions are exact; the facts below are stated for those. *)
Inductive number :=
| NaN
| Int (z : Z).

Definition safe_integer (z : Z) : Prop := - 2 ^ 53 < z < 2 ^ 53.

(** The hours, minutes and seconds of [formatHms(ms)], for an integer
    [ms]: [Math.floor(ms / 1000)] is the quotient rounded down. *)
Definition hms (ms : Z) : Z * Z * Z :=
  let clamped := Z.max 0 (ms / 1000) in
  (clamped / 3600, (clamped mod 3600) / 60, clamped mod 60).

(** [formatHms(ms)]; every operation on [NaN] gives [NaN], which
    [String] prints as it is and [padStart] leaves alone. *)
Definition formatHms (ms : number) : string :=
  match ms with
  | NaN => "NaN:NaN:NaN"
  | Int ms =>
      let '(h, m, s) := hms ms in
      String.append (pad2 h) (String ":"%char
        (String.append (pad2 m) (String ":"%char (pad2 s))))
  end.

Definition BEIJING_OFFSET_MS : Z := 8 * 60 * 60 * 1000.
Definition msPerDay : Z := 86400000.

(** The time values of [Date]: at most 8.64e15 ms from the epoch. *)
Definition MAX_TIME : Z := 8640000000000000.

Definition in_time_range (t : Z) : bool := ((- MAX_TIME <=? t) && (t <=? MAX_TIME))%bool.

(** [Date.UTC(y, m, d + 1, 0, 0, 0, 0)] where [y], [m], [d] are
    [getUTCFullYear()], [getUTCMonth()] and [getUTCDate()] of the instant
    [t]: the first instant of the day after the day of [t], the day of an
    instant being [floor(t / msPerDay)].  ([Date.UTC] reads a year below
    100 as a year of the 20th century, so this is the source for instants
    from the year 100 on; the facts below are stated for instants since
    1970.) *)
Definition next_utc_midnight (t : Z) : Z := (t / msPerDay + 1) * msPerDay.

(** [msUntilNextBeijingMidnight(nowMs)].  Outside the range of time values
    [new Date(bjtMs)] is an invalid date, whose fields are [NaN], and
    [Date.UTC] answers [NaN] for a day beyond the range. *)
Definition msUntilNextBeijingMidnight (nowMs : Z) : number :=
  let bjtMs := nowMs + BEIJING_OFFSET_MS in
  if negb (in_time_range bjtMs) then NaN
  else
    let nextMidnightBjtMs := next_utc_midnight bjtMs in
    if negb (in_time_range nextMidnightBjtMs) then NaN
    else
      let nextMidnightRealMs := nextMidnightBjtMs - BEIJING_OFFSET_MS in
      Int (nextMidnightRealMs - nowMs).

(** [nowMs + msLeft]. *)
Definition plus (nowMs : Z) (msLeft : number) : number :=
  match msLeft with
  | NaN => NaN
  | Int z => Int (nowMs + z)
  end.

(** [getBeijingResetInfo(nowMs)], its numbers and its countdown text. *)
Definition getBeijingResetInfo (nowMs : Z) : number * number * string :=
  let msLeft := msUntilNextBeijingMidnight nowMs in
  (msLeft, plus nowMs msLeft, formatHms msLeft).

End PopupText.

Section PopupTextFacts.
Import PopupText.

Lemma text_append_assoc (a b c : string) :
  String.append a (String.append b c) = String.append (String.append a b) c.
Proof.
  induction a as [|x a IH]; [reflexivity|].
  change (String x (String.append a (String.append b c))
          = String x (String.append (String.append a b) c)).
  f_equal. exact IH.
Qed.

Lemma replaceAll_app (c : ascii) (rep a b : string) :
  replaceAll c rep (String.append a b)
  = String.append (replaceAll c rep a) (replaceAll c rep b).
Proof.
  induction a as [|x a IH]; [reflexivity|].
  change (replaceAll c rep (String x (String.append a b))
          = String.append (replaceAll c rep (String x a)) (replaceAll c rep b)).
  cbn [replaceAll]. destruct (Ascii.eqb x c); rewrite IH.
  - apply text_append_assoc.
  - reflexivity.
Qed.

Definition passes (s : string) : string :=
  replaceAll apos "&#039;"
    (replaceAll quot "&quot;"
       (replaceAll gt "&gt;" (replaceAll lt "&lt;" (replaceAll amp "&amp;" s)))).

Lemma passes_app (a b : string) :
  passes (String.append a b) = String.append (passes a) (passes b).
Proof. unfold passes. rewrite !replaceAll_app. reflexivity. Qed.

Lemma passes_one (a : ascii) : passes (String a EmptyString) = entity a.
Proof.
  unfold passes, entity.
  destruct (Ascii.eqb a amp) eqn:H1.
  { apply Ascii.eqb_eq in H1. subst a. reflexivity. }
  destruct (Ascii.eqb a lt) eqn:H2.
  { apply Ascii.eqb_eq in H2. subst a. reflexivity. }
  destruct (Ascii.eqb a gt) eqn:H3.
  { apply Ascii.eqb_eq in H3. subst a. reflexivity. }
  destruct (Ascii.eqb a quot) eqn:H4.
  { apply Ascii.eqb_eq in H4. subst a. reflexivity. }
  destruct (Ascii.eqb a apos) eqn:H5.
  { apply Ascii.eqb_eq in H5. subst a. reflexivity. }
  cbn [replaceAll]. rewrite H1. cbn [replaceAll]. rewrite H2.
  cbn [replaceAll]. rewrite H3. cbn [replaceAll]. rewrite H4.
  cbn [replaceAll]. rewrite H5. reflexivity.
Qed.

Lemma passes_each (s : string) : passes s = escape_each s.
Proof.
  induction s as [|a r IH]; [reflexivity|].
  change (String a r) with (String.append (String a EmptyString) r).
  rewrite passes_app, passes_one, IH. reflexivity.
Qed.

Lemma occurs_app (c : ascii) (a b : string) :
  occurs c (String.append a b) = (occurs c a || occurs c b)%bool.
Proof.
  induction a as [|x a IH]; [reflexivity|].
  simpl. rewrite IH. apply orb_assoc.
Qed.

Definition markup (c : ascii) : bool :=
  (Ascii.eqb c lt || Ascii.eqb c gt || Ascii.eqb c quot || Ascii.eqb c apos)%bool.

Lemma entity_clean (a c : ascii) : markup c = true -> occurs c (entity a) = false.
Proof.
  intros Hc. unfold markup in Hc.
  assert (Hcases : c = lt \/ c = gt \/ c = quot \/ c = apos).
  { repeat (apply orb_true_iff in Hc; destruct Hc as [Hc|Hc]);
      apply Ascii.eqb_eq in Hc; auto. }
  unfold entity.
  destruct (Ascii.eqb a amp) eqn:H1;
    [destruct Hcases as [->|[->|[->| ->]]]; reflexivity|].
  destruct (Ascii.eqb a lt) eqn:H2;
    [destruct Hcases as [->|[->|[->| ->]]]; reflexivity|].
  destruct (Ascii.eqb a gt) eqn:H3;
    [destruct Hcases as [->|[->|[->| ->]]]; reflexivity|].
  destruct (Ascii.eqb a quot) eqn:H4;
    [destruct Hcases as [->|[->|[->| ->]]]; reflexivity|].
  destruct (Ascii.eqb a apos) eqn:H5;
    [destruct Hcases as [->|[->|[->| ->]]]; reflexivity|].
  cbn [occurs]. rewrite orb_false_r.
  destruct Hcases as [->|[->|[->| ->]]]; assumption.
Qed.

Lemma escape_each_clean (s : string) (c : ascii) :
  markup c = true -> occurs c (escape_each s) = false.
Proof.
  intros Hc. induction s as [|a r IH]; [reflexivity|].
  cbn [escape_each]. rewrite occurs_app, IH, (entity_clean a c Hc). reflexivity.
Qed.

(** X13.  [escapeHtml] replaces each character on its own: the five
    [replaceAll] passes, the ampersand first, give the text in which every
    [&], [<], [>], double quote and apostrophe is replaced by its entity and
    every other character is kept, so no entity is escaped twice; the
    result holds no [<], [>], double quote or apostrophe; [null] and
    [undefined] give the empty text. *)
Theorem escapeHtml_escapes_each_character (s : string) :
  escapeHtml (Some s) = escape_each s /\
  (forall c, markup c = true -> occurs c (escapeHtml (Some s)) = false) /\
  escapeHtml None = EmptyString.
Proof.
  assert (H : escapeHtml (Some s) = escape_each s) by apply passes_each.
  split; [exact H|]. split; [|reflexivity].
  intros c Hc. rewrite H. apply escape_each_clean. exact Hc.
Qed.

Example escapeHtml_example :
  escapeHtml (Some "<a href='x'>R&D</a>")
  = "&lt;a href=&#039;x&#039;&gt;R&amp;D&lt;/a&gt;".
Proof. reflexivity. Qed.

End PopupTextFacts.

Section Countdown.
Import PopupText.

Lemma text_length_append (a b : string) :
  String.length (String.append a b) = (String.length a + String.length b)%nat.
Proof.
  induction a as [|x a IH]; [reflexivity|].
  change (S (String.length (String.append a b)) = S (String.length a + String.length b)).
  rewrite IH. reflexivity.
Qed.

(** Below 100 the padded number has two characters. *)
Lemma pad2_length (n : Z) : 0 <= n < 100 -> String.length (pad2 n) = 2%nat.
Proof.
  intros Hn.
  assert (Hall : forallb (fun k => Nat.eqb (String.length (pad2 (Z.of_nat k))) 2) (seq 0 100)
                 = true) by (vm_compute; reflexivity).
  rewrite forallb_forall in Hall.
  specialize (Hall (Z.to_nat n)).
  rewrite Z2Nat.id in Hall by lia.
  apply Nat.eqb_eq. apply Hall. apply in_seq. lia.
Qed.

Lemma hms_fields (ms : Z) :
  let '(h, m, s) := hms ms in
  0 <= h /\ 0 <= m < 60 /\ 0 <= s < 60 /\
  h * 3600 + m * 60 + s = Z.max 0 (ms / 1000).
Proof.
  unfold hms. set (c := Z.max 0 (ms / 1000)).
  assert (Hc : 0 <= c) by (subst c; lia).
  pose proof (Z.div_mod c 3600 ltac:(lia)) as H1.
  pose proof (Z.mod_pos_bound c 3600 ltac:(lia)) as H2.
  pose proof (Z.div_mod (c mod 3600) 60 ltac:(lia)) as H3.
  pose proof (Z.mod_pos_bound (c mod 3600) 60 ltac:(lia)) as H4.
  pose proof (Z.div_pos c 3600 Hc ltac:(lia)) as H5.
  assert (H6 : c mod 60 = (c mod 3600) mod 60).
  { pose proof (Z.mod_pos_bound (c mod 3600) 60 ltac:(lia)) as Hr.
    symmetry.
    apply (Z.mod_unique c 60 (60 * (c / 3600) + (c mod 3600) / 60)); [left; lia | lia]. }
  pose proof (Z.div_pos (c mod 3600) 60 ltac:(lia) ltac:(lia)) as H7.
  assert (H8 : (c mod 3600) / 60 < 60).
  { apply Z.div_lt_upper_bound; lia. }
  rewrite H6. repeat split; try lia.
Qed.

Lemma formatHms_length (ms : Z) :
  ms < 360000000 -> String.length (formatHms (Int ms)) = 8%nat.
Proof.
  intros Hbound. pose proof (hms_fields ms) as Hf.
  unfold formatHms. destruct (hms ms) as [[h m] s] eqn:Hhms.
  destruct Hf as [H1 [H2 [H3 H4]]].
  assert (Hh : h < 100).
  { assert (ms / 1000 < 360000).
    { apply Z.div_lt_upper_bound; lia. }
    lia. }
  rewrite text_length_append. cbn [String.length].
  rewrite text_length_append. cbn [String.length].
  rewrite !pad2_length by lia. reflexivity.
Qed.

(** X14.  For an integer below 2^53 in absolute value, [formatHms] splits
    the whole seconds of its argument, never less than 0, into hours,
    minutes below 60 and seconds below 60, each printed with at least two
    digits; any time below one second, a negative one included, gives
    "00:00:00", and below 100 hours the text has exactly eight characters.
    For [NaN] the text is "NaN:NaN:NaN". *)
Theorem formatHms_fields (ms : Z) :
  safe_integer ms ->
  (let '(h, m, s) := hms ms in
   0 <= h < 2 ^ 53 /\ 0 <= m < 60 /\ 0 <= s < 60 /\
   h * 3600 + m * 60 + s = Z.max 0 (ms / 1000) /\
   formatHms (Int ms)
   = String.append (pad2 h) (String ":"%char
       (String.append (pad2 m) (String ":"%char (pad2 s))))) /\
  (ms < 1000 -> formatHms (Int ms) = "00:00:00") /\
  (ms < 360000000 -> String.length (formatHms (Int ms)) = 8%nat) /\
  formatHms NaN = "NaN:NaN:NaN".
Proof.
  intros Hsafe. pose proof (hms_fields ms) as Hf.
  split; [|split; [|split; [|reflexivity]]].
  - unfold formatHms. destruct (hms ms) as [[h m] s].
    destruct Hf as [H1 [H2 [H3 H4]]].
    assert (Hh : h < 2 ^ 53).
    { unfold safe_integer in Hsafe.
      assert (Hq : ms / 1000 < 2 ^ 53) by (apply Z.div_lt_upper_bound; lia).
      lia. }
    repeat split; try lia.
  - intros Hsmall. unfold formatHms, hms.
    assert (Hq : ms / 1000 <= 0).
    { destruct (Z_lt_le_dec (ms / 1000) 1) as [|Hge]; [lia|].
      pose proof (Z.mul_div_le ms 1000 ltac:(lia)). lia. }
    replace (Z.max 0 (ms / 1000)) with 0 by lia. reflexivity.
  - apply formatHms_length.
Qed.

Lemma formatHms_fields_witness :
  formatHms (Int 64000999) = "17:46:40" /\
  String.length (formatHms (Int 64000999)) = 8%nat.
Proof.
  assert (Hsafe : safe_integer 64000999) by (unfold safe_integer; lia).
  destruct (formatHms_fields 64000999 Hsafe) as [Hfields [_ [Hlen _]]].
  split; [|apply Hlen; lia].
  vm_compute in Hfields. destruct Hfields as [_ [_ [_ [_ Htext]]]]. exact Htext.
Defined.

(** X15.  For an instant since 1970 whose Beijing time lies before the end
    of the time values, [msUntilNextBeijingMidnight] is the time to the
    next midnight of Beijing (UTC+8) strictly after it: the result is above
    0 and at most one day, the instant it leads to is a Beijing midnight,
    and no instant in between is one.  At a Beijing midnight itself the
    result is a whole day, and the countdown text of [getBeijingResetInfo]
    has eight characters.  From the end of the time values on, the result
    is [NaN] and the countdown text "NaN:NaN:NaN". *)
Theorem next_beijing_midnight (nowMs : Z) :
  0 <= nowMs ->
  (nowMs + BEIJING_OFFSET_MS < MAX_TIME ->
   exists msLeft,
     msUntilNextBeijingMidnight nowMs = Int msLeft /\
     0 < msLeft <= msPerDay /\
     (nowMs + msLeft + BEIJING_OFFSET_MS) mod msPerDay = 0 /\
     (forall t, nowMs < t < nowMs + msLeft -> (t + BEIJING_OFFSET_MS) mod msPerDay <> 0) /\
     ((nowMs + BEIJING_OFFSET_MS) mod msPerDay = 0 -> msLeft = msPerDay) /\
     getBeijingResetInfo nowMs
     = (Int msLeft, Int (nowMs + msLeft), formatHms (Int msLeft)) /\
     String.length (formatHms (Int msLeft)) = 8%nat) /\
  (MAX_TIME <= nowMs + BEIJING_OFFSET_MS ->
   msUntilNextBeijingMidnight nowMs = NaN /\
   getBeijingResetInfo nowMs = (NaN, NaN, "NaN:NaN:NaN")).
Proof.
  intros Hnow.
  assert (Hyes : forall t, - 8640000000000000 <= t <= 8640000000000000 ->
                           in_time_range t = true).
  { intros t Ht. unfold in_time_range, MAX_TIME.
    apply andb_true_iff. split; apply Z.leb_le; lia. }
  assert (Hno : forall t, 8640000000000000 < t -> in_time_range t = false).
  { intros t Ht. unfold in_time_range, MAX_TIME.
    apply andb_false_iff. right. apply Z.leb_gt. lia. }
  unfold getBeijingResetInfo, msUntilNextBeijingMidnight, next_utc_midnight,
    BEIJING_OFFSET_MS, msPerDay, MAX_TIME.
  cbv zeta.
  set (b := nowMs + 8 * 60 * 60 * 1000).
  pose proof (Z.div_mod b 86400000 ltac:(lia)) as Hdm.
  pose proof (Z.mod_pos_bound b 86400000 ltac:(lia)) as Hmod.
  set (q := b / 86400000) in *.
  split.
  - intros Hin.
    assert (Hq : (q + 1) * 86400000 <= 8640000000000000).
    { assert (q < 100000000) by lia. lia. }
    rewrite (Hyes b) by (subst b; lia).
    rewrite (Hyes ((q + 1) * 86400000)) by (subst b; lia).
    cbn [negb].
    exists ((q + 1) * 86400000 - 8 * 60 * 60 * 1000 - nowMs).
    assert (Hrange : 0 < (q + 1) * 86400000 - 8 * 60 * 60 * 1000 - nowMs <= 86400000).
    { subst b. lia. }
    split; [reflexivity|]. split; [exact Hrange|].
    split; [|split; [|split; [|split]]].
    + replace (nowMs + ((q + 1) * 86400000 - 8 * 60 * 60 * 1000 - nowMs)
               + 8 * 60 * 60 * 1000) with ((q + 1) * 86400000) by lia.
      apply Z.mod_mul. lia.
    + intros t Ht Hzero.
      pose proof (Z.div_mod (t + 8 * 60 * 60 * 1000) 86400000 ltac:(lia)) as Ht'.
      rewrite Hzero in Ht'.
      set (k := (t + 8 * 60 * 60 * 1000) / 86400000) in *.
      assert (q < k) by (subst b; nia).
      assert (k < q + 1) by (subst b; nia).
      lia.
    + intros Hzero. subst b. lia.
    + reflexivity.
    + apply formatHms_length. lia.
  - intros Hout.
    destruct (Z.eq_dec b 8640000000000000) as [Hb|Hb].
    + rewrite (Hyes b) by lia. cbn [negb].
      rewrite (Hno ((q + 1) * 86400000)) by lia.
      cbn [negb plus formatHms]. split; reflexivity.
    + rewrite (Hno b) by lia. cbn [negb plus formatHms]. split; reflexivity.
Qed.

Lemma next_beijing_midnight_witness :
  msUntilNextBeijingMidnight 1700000000000 = Int 64000000 /\
  getBeijingResetInfo 1700000000000 = (Int 64000000, Int 1700064000000, "17:46:40").
Proof.
  assert (Hnow : 0 <= 1700000000000) by lia.
  destruct (next_beijing_midnight 1700000000000 Hnow) as [Hin _].
  destruct Hin as [msLeft [Hleft [_ [_ [_ [_ [Hinfo _]]]]]]].
  { vm_compute. reflexivity. }
  assert (Hval : msLeft = 64000000).
  { vm_compute in Hleft. inversion Hleft. reflexivity. }
  subst msLeft. split; [exact Hleft|]. rewrite Hinfo. reflexivity.
Defined.

(** At the last time value the countdown is no number. *)
Example no_midnight_after_the_last_time_value :
  msUntilNextBeijingMidnight 8640000000000000 = NaN /\
  formatHms (msUntilNextBeijingMidnight 8640000000000000) = "NaN:NaN:NaN".
Proof. split; reflexivity. Qed.

End Countdown.

(* ===================================================================== *)
(** * More on the extractor: [normalize], the maps, the snapshot *)
(* ===================================================================== *)

Section NormalizeFacts.
Import Text.

Definition blank : ascii := " "%char.

(** The text holds no white space but single blanks; [after_space] tells
    that a blank stands right before it. *)
Fixpoint single_spaced (after_space : bool) (s : string) : bool :=
  match s with
  | EmptyString => true
  | String c r =>
      if is_space c
      then (Ascii.eqb c blank && negb after_space && single_spaced true r)%bool
      else single_spaced false r
  end.

Definition starts_with_space (s : string) : bool :=
  match s with
  | EmptyString => false
  | String c _ => is_space c
  end.

Fixpoint ends_with_space (s : string) : bool :=
  match s with
  | EmptyString => false
  | String c EmptyString => is_space c
  | String _ r => ends_with_space r
  end.

(** No wide white space character begins at any byte of the text. *)
Fixpoint no_wide (s : string) : bool :=
  match s with
  | EmptyString => true
  | String c r => (Nat.eqb (wide_width (String c r)) 0 && no_wide r)%bool
  end.

(** A normalized text: of the white space of the language it holds single
    blanks only, and none at either end. *)
Definition normalized (s : string) : bool :=
  (single_spaced false s && negb (starts_with_space s) && negb (ends_with_space s) &&
   no_wide s)%bool.

Lemma is_space_blank : is_space blank = true.
Proof. reflexivity. Qed.

Lemma wide2_bytes (a b : nat) :
  wide2 a b = true -> (194 <= a /\ 128 <= b < 192)%nat.
Proof. unfold wide2. rewrite andb_true_iff, !Nat.eqb_eq. lia. Qed.

Lemma wide3_bytes (a b c : nat) :
  wide3 a b c = true -> (194 <= a /\ 128 <= b < 192 /\ 128 <= c < 192)%nat.
Proof.
  unfold wide3. repeat rewrite ?orb_true_iff, ?andb_true_iff.
  rewrite !Nat.eqb_eq, !Nat.leb_le. lia.
Qed.

Lemma is_space_low (c : ascii) : is_space c = true -> (nat_of_ascii c < 128)%nat.
Proof.
  unfold is_space. cbv zeta.
  rewrite orb_true_iff, andb_true_iff, Nat.eqb_eq, !Nat.leb_le. lia.
Qed.

Lemma wide_width_three (a d e : ascii) (x : string) :
  wide_width (String a (String d (String e x)))
  = if wide2 (nat_of_ascii a) (nat_of_ascii d) then 1%nat
    else if wide3 (nat_of_ascii a) (nat_of_ascii d) (nat_of_ascii e) then 2%nat else 0%nat.
Proof. reflexivity. Qed.

Lemma wide_width_two (a d : ascii) :
  wide_width (String a (String d EmptyString))
  = if wide2 (nat_of_ascii a) (nat_of_ascii d) then 1%nat else 0%nat.
Proof. reflexivity. Qed.

(** A character of ASCII neither begins nor continues a wide character. *)
Lemma wide_width_head_low (a : ascii) (x : string) :
  (nat_of_ascii a < 128)%nat -> wide_width (String a x) = 0%nat.
Proof.
  intros Ha. destruct x as [|d [|e x]]; [reflexivity| |].
  - rewrite wide_width_two. destruct (wide2 _ _) eqn:H2; [|reflexivity].
    apply wide2_bytes in H2. lia.
  - rewrite wide_width_three. destruct (wide2 _ _) eqn:H2.
    + apply wide2_bytes in H2. lia.
    + destruct (wide3 _ _ _) eqn:H3; [|reflexivity]. apply wide3_bytes in H3. lia.
Qed.

Lemma wide_width_second_low (a d : ascii) (x : string) :
  (nat_of_ascii d < 128)%nat -> wide_width (String a (String d x)) = 0%nat.
Proof.
  intros Hd. destruct x as [|e x].
  - rewrite wide_width_two. destruct (wide2 _ _) eqn:H2; [|reflexivity].
    apply wide2_bytes in H2. lia.
  - rewrite wide_width_three. destruct (wide2 _ _) eqn:H2.
    + apply wide2_bytes in H2. lia.
    + destruct (wide3 _ _ _) eqn:H3; [|reflexivity]. apply wide3_bytes in H3. lia.
Qed.

Lemma wide_width_not_two (a d : ascii) (x : string) :
  wide_width (String a (String d x)) = 0%nat ->
  wide2 (nat_of_ascii a) (nat_of_ascii d) = false.
Proof.
  destruct x as [|e x]; [rewrite wide_width_two | rewrite wide_width_three];
    destruct (wide2 _ _); [discriminate | reflexivity | discriminate | reflexivity].
Qed.

Lemma wide_width_third_low (a d e : ascii) (x y : string) :
  wide_width (String a (String d y)) = 0%nat ->
  (nat_of_ascii e < 128)%nat ->
  wide_width (String a (String d (String e x))) = 0%nat.
Proof.
  intros H0 He. rewrite wide_width_three, (wide_width_not_two a d y H0).
  destruct (wide3 _ _ _) eqn:H3; [|reflexivity]. apply wide3_bytes in H3. lia.
Qed.

Lemma wide_width_short (a d : ascii) (y : string) :
  wide_width (String a (String d y)) = 0%nat ->
  wide_width (String a (String d EmptyString)) = 0%nat.
Proof.
  intros H0. rewrite wide_width_two, (wide_width_not_two a d y H0). reflexivity.
Qed.

Lemma no_wide_cons (c : ascii) (r : string) :
  no_wide (String c r) = true <-> wide_width (String c r) = 0%nat /\ no_wide r = true.
Proof.
  cbn [no_wide]. rewrite andb_true_iff, Nat.eqb_eq. reflexivity.
Qed.

Lemma blank_low : (nat_of_ascii " " < 128)%nat.
Proof. vm_compute. lia. Qed.

(** Without wide characters there is nothing to make narrow. *)
Lemma narrow_fixed (s : string) : no_wide s = true -> narrow s = s.
Proof.
  unfold narrow. induction s as [|c r IH]; [reflexivity|].
  intros H. apply no_wide_cons in H. destruct H as [H0 Hr].
  cbn [narrow_from]. rewrite H0, (IH Hr). reflexivity.
Qed.

Lemma narrow_keeps_head (c : ascii) (r : string) :
  wide_width (String c r) = 0%nat ->
  wide_width (String c (narrow_from 0 r)) = 0%nat.
Proof.
  intros H0. destruct r as [|d r']; [exact H0|].
  cbn [narrow_from]. destruct (wide_width (String d r')) as [|k] eqn:Hd.
  2:{ apply wide_width_second_low, blank_low. }
  destruct r' as [|e r'']; [exact H0|].
  cbn [narrow_from]. destruct (wide_width (String e r'')) as [|k] eqn:He.
  - rewrite wide_width_three in *. exact H0.
  - apply (wide_width_third_low _ _ _ _ _ H0), blank_low.
Qed.

Lemma no_wide_narrow (s : string) : forall k, no_wide (narrow_from k s) = true.
Proof.
  induction s as [|c r IH]; intros k; [reflexivity|].
  cbn [narrow_from]. destruct k as [|k]; [|apply IH].
  destruct (wide_width (String c r)) as [|j] eqn:H0.
  - apply no_wide_cons. split; [apply narrow_keeps_head; exact H0 | apply IH].
  - apply no_wide_cons. split; [apply wide_width_head_low, blank_low | apply IH].
Qed.

Lemma collapse_keeps_head (c : ascii) (r : string) :
  wide_width (String c r) = 0%nat ->
  wide_width (String c (collapse_spaces false r)) = 0%nat.
Proof.
  intros H0. destruct r as [|d r']; [exact H0|].
  cbn [collapse_spaces]. destruct (is_space d) eqn:Hd.
  { apply wide_width_second_low, blank_low. }
  destruct r' as [|e r'']; [exact H0|].
  cbn [collapse_spaces]. destruct (is_space e) eqn:He.
  - apply (wide_width_third_low _ _ _ _ _ H0), blank_low.
  - rewrite wide_width_three in *. exact H0.
Qed.

Lemma no_wide_collapse (s : string) :
  forall b, no_wide s = true -> no_wide (collapse_spaces b s) = true.
Proof.
  induction s as [|c r IH]; intros b H; [reflexivity|].
  apply no_wide_cons in H. destruct H as [H0 Hr].
  cbn [collapse_spaces]. destruct (is_space c) eqn:Hc.
  - destruct b; [apply IH; exact Hr|].
    apply no_wide_cons. split; [apply wide_width_head_low, blank_low | apply IH; exact Hr].
  - apply no_wide_cons. split; [apply collapse_keeps_head; exact H0 | apply IH; exact Hr].
Qed.

Lemma no_wide_skip_spaces (s : string) :
  no_wide s = true -> no_wide (skip_spaces s) = true.
Proof.
  induction s as [|c r IH]; intros H; [reflexivity|].
  cbn [skip_spaces]. destruct (is_space c); [|exact H].
  apply no_wide_cons in H. apply IH. tauto.
Qed.

Lemma trim_end_keeps_head (c : ascii) (r : string) :
  wide_width (String c r) = 0%nat ->
  wide_width (String c (trim_end r)) = 0%nat.
Proof.
  intros H0. destruct r as [|d r']; [exact H0|].
  cbn [trim_end]. destruct (is_space d && String.eqb (trim_end r') "")%bool; [reflexivity|].
  destruct r' as [|e r'']; [exact H0|].
  cbn [trim_end]. destruct (is_space e && String.eqb (trim_end r'') "")%bool.
  - apply (wide_width_short _ _ _ H0).
  - rewrite wide_width_three in *. exact H0.
Qed.

Lemma no_wide_trim_end (s : string) :
  no_wide s = true -> no_wide (trim_end s) = true.
Proof.
  induction s as [|c r IH]; intros H; [reflexivity|].
  apply no_wide_cons in H. destruct H as [H0 Hr].
  cbn [trim_end]. destruct (is_space c && String.eqb (trim_end r) "")%bool; [reflexivity|].
  apply no_wide_cons. split; [apply trim_end_keeps_head; exact H0 | apply IH; exact Hr].
Qed.

Lemma collapse_single_spaced (b : bool) (s : string) :
  single_spaced b (collapse_spaces b s) = true.
Proof.
  revert b. induction s as [|c r IH]; intros b; [reflexivity|].
  cbn [collapse_spaces]. destruct (is_space c) eqn:Hc.
  - destruct b; [apply IH|].
    cbn [single_spaced]. fold blank. rewrite is_space_blank, Ascii.eqb_refl, IH. reflexivity.
  - cbn [single_spaced]. rewrite Hc. apply IH.
Qed.

Lemma collapse_fixed (b : bool) (s : string) :
  single_spaced b s = true -> collapse_spaces b s = s.
Proof.
  revert b. induction s as [|c r IH]; intros b H; [reflexivity|].
  cbn [single_spaced collapse_spaces] in *. destruct (is_space c) eqn:Hc.
  - apply andb_true_iff in H. destruct H as [H H3].
    apply andb_true_iff in H. destruct H as [H1 H2].
    apply negb_true_iff in H2. subst b.
    apply Ascii.eqb_eq in H1. subst c. rewrite (IH true H3). reflexivity.
  - rewrite (IH false H). reflexivity.
Qed.

Lemma single_spaced_weaken (s : string) :
  single_spaced true s = true -> single_spaced false s = true.
Proof.
  destruct s as [|c r]; [reflexivity|]. cbn [single_spaced].
  destruct (is_space c); [|auto].
  rewrite andb_false_r. discriminate.
Qed.

Lemma skip_spaces_single_spaced (b : bool) (s : string) :
  single_spaced b s = true -> single_spaced false (skip_spaces s) = true.
Proof.
  revert b. induction s as [|c r IH]; intros b H; [reflexivity|].
  cbn [skip_spaces]. cbn [single_spaced] in H. destruct (is_space c) eqn:Hc.
  - apply andb_true_iff in H. destruct H as [_ H]. apply (IH true H).
  - cbn [single_spaced]. rewrite Hc. exact H.
Qed.

Lemma skip_spaces_no_lead (s : string) : starts_with_space (skip_spaces s) = false.
Proof.
  induction s as [|c r IH]; [reflexivity|].
  cbn [skip_spaces]. destruct (is_space c) eqn:Hc; [exact IH|].
  cbn [starts_with_space]. exact Hc.
Qed.

Lemma skip_spaces_fixed (s : string) : starts_with_space s = false -> skip_spaces s = s.
Proof.
  destruct s as [|c r]; [reflexivity|]. cbn [starts_with_space skip_spaces].
  intros H. rewrite H. reflexivity.
Qed.

Lemma trim_end_single_spaced (b : bool) (s : string) :
  single_spaced b s = true -> single_spaced b (trim_end s) = true.
Proof.
  revert b. induction s as [|c r IH]; intros b H; [reflexivity|].
  cbn [trim_end]. cbn [single_spaced] in H.
  destruct (is_space c && String.eqb (trim_end r) "")%bool eqn:Hdrop; [reflexivity|].
  cbn [single_spaced]. destruct (is_space c) eqn:Hc.
  - apply andb_true_iff in H. destruct H as [H1 H2]. rewrite H1. apply (IH true H2).
  - apply (IH false H).
Qed.

Lemma trim_end_no_lead (s : string) :
  starts_with_space s = false -> starts_with_space (trim_end s) = false.
Proof.
  destruct s as [|c r]; [reflexivity|]. cbn [starts_with_space trim_end].
  intros H. rewrite H. cbn [andb starts_with_space]. exact H.
Qed.

Lemma trim_end_no_trail (s : string) : ends_with_space (trim_end s) = false.
Proof.
  induction s as [|c r IH]; [reflexivity|].
  cbn [trim_end].
  destruct (is_space c && String.eqb (trim_end r) "")%bool eqn:Hdrop; [reflexivity|].
  destruct (trim_end r) as [|c' r'] eqn:Hr.
  - cbn [ends_with_space]. rewrite andb_true_r in Hdrop. exact Hdrop.
  - cbn [ends_with_space] in *. exact IH.
Qed.

Lemma trim_end_fixed (s : string) : ends_with_space s = false -> trim_end s = s.
Proof.
  induction s as [|c r IH]; [reflexivity|].
  intros H. cbn [trim_end]. destruct r as [|c' r'].
  - cbn [ends_with_space] in H. cbn [trim_end]. rewrite H. reflexivity.
  - cbn [ends_with_space] in H. rewrite (IH H). cbn [String.eqb].
    rewrite andb_false_r. reflexivity.
Qed.

Lemma normalize_normalized (s : option string) : normalized (normalize s) = true.
Proof.
  unfold normalized, normalize, trim.
  set (c := collapse_spaces false (narrow (default "" s))).
  pose proof (collapse_single_spaced false (narrow (default "" s))) as Hc. fold c in Hc.
  pose proof (skip_spaces_single_spaced false c Hc) as H1.
  assert (Hw : no_wide c = true).
  { subst c. apply no_wide_collapse. apply no_wide_narrow. }
  rewrite (trim_end_single_spaced false _ H1).
  rewrite (trim_end_no_lead _ (skip_spaces_no_lead c)).
  rewrite trim_end_no_trail.
  rewrite (no_wide_trim_end _ (no_wide_skip_spaces _ Hw)). reflexivity.
Qed.

Lemma normalize_fixed (s : string) : normalized s = true -> normalize (Some s) = s.
Proof.
  unfold normalized. intros H.
  apply andb_true_iff in H. destruct H as [H H4].
  apply andb_true_iff in H. destruct H as [H H3].
  apply andb_true_iff in H. destruct H as [H1 H2].
  apply negb_true_iff in H2, H3.
  unfold normalize, trim. change (default "" (Some s)) with s.
  rewrite (narrow_fixed s H4).
  rewrite (collapse_fixed false s H1), (skip_spaces_fixed s H2), (trim_end_fixed s H3).
  reflexivity.
Qed.

(** The no-break space between two letters, in UTF-8. *)
Definition with_no_break_space : string :=
  String "a" (String (ascii_of_nat 194) (String (ascii_of_nat 160) "b")).

(** X16.  [normalize] gives a text in which the only white space, of the
    whole class of the language, is the single blank, never two in a row
    and none at either end; it leaves such a text as it is, so normalizing
    twice is normalizing once; a missing text gives the empty text, and a
    no-break space is replaced like any other white space. *)
Theorem normalize_is_idempotent (s : option string) :
  normalized (normalize s) = true /\
  normalize (Some (normalize s)) = normalize s /\
  (forall t, normalized t = true -> normalize (Some t) = t) /\
  normalize None = EmptyString /\
  normalized with_no_break_space = false /\
  normalize (Some with_no_break_space) = "a b".
Proof.
  split; [apply normalize_normalized|].
  split; [|split; [|split; [reflexivity | split; reflexivity]]].
  - apply normalize_fixed. apply normalize_normalized.
  - intros t Ht. apply normalize_fixed. exact Ht.
Qed.

End NormalizeFacts.

Section MapFacts.
Import Dom Extractor.

(** What a total card contributes: its normalized label and its value. *)
Definition total_label (c : total_card) : string := Text.normalize (t_label c).

Definition total_value (c : total_card) : option string :=
  text_or_null (Text.normalize (t_value c)).

Definition proto_label : string := "__proto__".

Lemma add_total_other (o : totals_object) (c : total_card) (l : string) :
  total_label c <> l \/ l = EmptyString -> own (add_total o c) !! l = own o !! l.
Proof.
  intros H. unfold add_total. fold (total_label c).
  destruct (Text.nonempty (total_label c)) eqn:Hne; cbn [negb]; [|reflexivity].
  unfold assign_total.
  destruct (String.eqb (total_label c) "__proto__" && has_prototype o)%bool.
  { destruct (text_or_null _); reflexivity. }
  cbn [own]. apply lookup_insert_ne. destruct H as [H|H]; [exact H|].
  subst l. intros Heq. rewrite Heq in Hne. discriminate.
Qed.

Lemma add_total_same (o : totals_object) (c : total_card) :
  total_label c <> EmptyString ->
  total_label c <> proto_label ->
  own (add_total o c) !! total_label c = Some (total_value c).
Proof.
  intros H Hproto. unfold add_total. fold (total_label c) (total_value c).
  destruct (Text.nonempty (total_label c)) eqn:Hne; cbn [negb].
  - unfold assign_total.
    destruct (String.eqb (total_label c) "__proto__") eqn:Heq.
    + apply String.eqb_eq in Heq. contradiction.
    + cbn [andb own]. apply lookup_insert_eq.
  - unfold Text.nonempty in Hne. apply negb_false_iff, String.eqb_eq in Hne.
    contradiction.
Qed.

Lemma totals_fold_other (cards : list total_card) (o : totals_object) (l : string) :
  Forall (fun c => total_label c <> l \/ l = EmptyString) cards ->
  own (fold_left add_total cards o) !! l = own o !! l.
Proof.
  revert o. induction cards as [|c cards IH]; intros o H; [reflexivity|].
  inversion H as [|? ? Hc Hrest]; subst. cbn [fold_left].
  rewrite (IH _ Hrest). apply add_total_other. exact Hc.
Qed.

(** As long as no card labelled [__proto__] has an empty value, the
    prototype stays and [__proto__] is no key. *)
Lemma totals_fold_proto (cards : list total_card) (o : totals_object) :
  Forall (fun c => total_label c = proto_label -> total_value c <> None) cards ->
  has_prototype o = true -> own o !! proto_label = None ->
  own (fold_left add_total cards o) !! proto_label = None.
Proof.
  revert o. induction cards as [|c cards IH]; intros o H Hp Hk; [exact Hk|].
  inversion H as [|? ? Hc Hrest]; subst. cbn [fold_left].
  assert (Hstep : has_prototype (add_total o c) = true /\
                  own (add_total o c) !! proto_label = None).
  { unfold add_total. fold (total_label c) (total_value c).
    destruct (Text.nonempty (total_label c)); cbn [negb]; [|auto].
    unfold assign_total. rewrite Hp, andb_true_r.
    destruct (String.eqb (total_label c) "__proto__") eqn:Heq.
    - apply String.eqb_eq in Heq. specialize (Hc Heq).
      destruct (total_value c); [auto | congruence].
    - cbn [has_prototype own]. split; [reflexivity|].
      rewrite lookup_insert_ne; [exact Hk|].
      intros Hl. rewrite Hl in Heq. discriminate. }
  destruct Hstep as [Hp' Hk']. apply (IH _ Hrest Hp' Hk').
Qed.

(** X17.  The totals of the snapshot map each non-empty normalized label
    to the value of the last card that carries it (an empty value is
    [null]); a label that no card carries, and the empty label, are not
    keys; without a totals grid the map is empty.  The label [__proto__] is
    no ordinary key: as long as no card with this label has an empty value,
    it is not a key at all. *)
Theorem totals_last_card_wins (cards : list total_card) :
  (forall pre c post,
     cards = (pre ++ c :: post)%list ->
     total_label c <> EmptyString ->
     total_label c <> proto_label ->
     Forall (fun c' => total_label c' <> total_label c) post ->
     parse_totals (Some cards) !! total_label c = Some (total_value c)) /\
  (forall l, Forall (fun c => total_label c <> l) cards ->
             parse_totals (Some cards) !! l = None) /\
  parse_totals (Some cards) !! EmptyString = None /\
  (Forall (fun c => total_label c = proto_label -> total_value c <> None) cards ->
   parse_totals (Some cards) !! proto_label = None) /\
  parse_totals None = ∅.
Proof.
  split; [|split; [|split; [|split; [|reflexivity]]]].
  - intros pre c post Hcards Hne Hproto Hpost. subst cards.
    unfold parse_totals. rewrite fold_left_app. cbn [fold_left].
    rewrite totals_fold_other.
    + apply add_total_same; assumption.
    + eapply Forall_impl; [|exact Hpost]. intros c' Hc'. left. exact Hc'.
  - intros l Hnone. unfold parse_totals. rewrite totals_fold_other.
    + apply lookup_empty.
    + eapply Forall_impl; [|exact Hnone]. intros c' Hc'. left. exact Hc'.
  - unfold parse_totals. rewrite totals_fold_other.
    + apply lookup_empty.
    + apply Forall_forall. intros c' _. right. reflexivity.
  - intros Hproto. unfold parse_totals.
    apply totals_fold_proto; [exact Hproto | reflexivity | apply lookup_empty].
Qed.

(** A card labelled [__proto__] stores nothing, and a page with that card
    alone is not ready; after such a card with an empty value, the next one
    is stored. *)
Example proto_card_is_no_total :
  parse_totals (Some [TotalCard (Some "__proto__") (Some "5")]) = ∅ /\
  parse_totals (Some [TotalCard (Some "__proto__") None]) = ∅ /\
  parse_totals (Some [TotalCard (Some "__proto__") None;
                      TotalCard (Some "__proto__") (Some "5")])
  = {[ "__proto__" := Some "5" ]}.
Proof. split; [|split]; reflexivity. Qed.

Definition endpoints_label : string := "可用端点".

(** What a row with the label [l] and the value element [v] stores. *)
Definition row_entry (l : string) (v : value_el) : label_value :=
  if String.eqb l endpoints_label
  then LEndpoints (List.map (fun t => Endpoint (Text.normalize (Some t))) (ve_titles v))
  else LText (Text.normalize (Some (ve_text v))).

Lemma add_row_same (m : gmap string label_value) (r : row) (v : value_el) :
  Text.normalize (row_label r) <> EmptyString ->
  row_value r = Some v ->
  add_row m r !! Text.normalize (row_label r)
  = Some (row_entry (Text.normalize (row_label r)) v).
Proof.
  intros Hne Hv. unfold add_row, row_entry, endpoints_label.
  destruct (Text.nonempty (Text.normalize (row_label r))) eqn:Hn; cbn [negb].
  - rewrite Hv. destruct (String.eqb _ _); apply lookup_insert_eq.
  - unfold Text.nonempty in Hn. apply negb_false_iff, String.eqb_eq in Hn. contradiction.
Qed.

Lemma add_row_empty_label (m : gmap string label_value) (r : row) :
  add_row m r !! EmptyString = m !! EmptyString.
Proof.
  unfold add_row.
  destruct (Text.nonempty (Text.normalize (row_label r))) eqn:Hn; cbn [negb]; [|reflexivity].
  destruct (row_value r); [|reflexivity].
  assert (Hne : Text.normalize (row_label r) <> EmptyString).
  { intros Heq. rewrite Heq in Hn. discriminate. }
  destruct (String.eqb _ _); apply lookup_insert_ne; exact Hne.
Qed.

(** The values of the map have the type of their key. *)
Definition well_typed (m : gmap string label_value) : Prop :=
  forall l x, m !! l = Some x ->
    if String.eqb l endpoints_label
    then exists eps, x = LEndpoints eps
    else exists t, x = LText t.

Lemma add_row_well_typed (m : gmap string label_value) (r : row) :
  well_typed m -> well_typed (add_row m r).
Proof.
  intros Hm l x. unfold add_row.
  destruct (Text.nonempty (Text.normalize (row_label r))); cbn [negb]; [|apply Hm].
  destruct (row_value r) as [v|]; [|apply Hm].
  destruct (String.eqb (Text.normalize (row_label r)) "可用端点") eqn:Hep.
  - destruct (decide (Text.normalize (row_label r) = l)) as [Heq|Hne].
    + subst l. rewrite lookup_insert_eq. intros H. inversion H; subst.
      unfold endpoints_label. rewrite Hep. eauto.
    + rewrite lookup_insert_ne by exact Hne. apply Hm.
  - destruct (decide (Text.normalize (row_label r) = l)) as [Heq|Hne].
    + subst l. rewrite lookup_insert_eq. intros H. inversion H; subst.
      unfold endpoints_label. rewrite Hep. eauto.
    + rewrite lookup_insert_ne by exact Hne. apply Hm.
Qed.

Lemma label_map_well_typed (rows : list row) (m : gmap string label_value) :
  well_typed m -> well_typed (fold_left add_row rows m).
Proof.
  revert m. induction rows as [|r rows IH]; intros m Hm; [exact Hm|].
  cbn [fold_left]. apply IH. apply add_row_well_typed. exact Hm.
Qed.

(** X18.  The label map of a card holds, under each non-empty normalized
    label, what the last row with that label and a value element stores: the
    list of the normalized [title]s of its [span[title]] elements under
    可用端点, its normalized text under any other label.  So the values under
    可用端点 are always lists and all others always texts; rows without a
    label or without a value element store nothing. *)
Theorem label_map_last_row_wins (rows : list row) :
  (forall pre r post v,
     rows = (pre ++ r :: post)%list ->
     Text.normalize (row_label r) <> EmptyString ->
     row_value r = Some v ->
     Forall (fun r' => ~ row_is (Text.normalize (row_label r)) r') post ->
     label_map rows !! Text.normalize (row_label r)
     = Some (row_entry (Text.normalize (row_label r)) v)) /\
  (forall l, Forall (fun r => ~ row_is l r) rows -> label_map rows !! l = None) /\
  label_map rows !! EmptyString = None /\
  well_typed (label_map rows).
Proof.
  split; [|split; [|split]].
  - intros pre r post v Hrows Hne Hv Hpost. subst rows.
    unfold label_map. rewrite fold_left_app. cbn [fold_left].
    rewrite (label_map_other post _ _ Hpost).
    apply add_row_same; assumption.
  - intros l Hnone. unfold label_map. rewrite (label_map_other rows ∅ l Hnone).
    apply lookup_empty.
  - unfold label_map.
    assert (H : forall (m : gmap string label_value),
      m !! EmptyString = None -> fold_left add_row rows m !! EmptyString = None).
    { induction rows as [|r rows IH]; intros m Hm; [exact Hm|].
      cbn [fold_left]. apply IH. rewrite add_row_empty_label. exact Hm. }
    apply H. apply lookup_empty.
  - unfold label_map. apply label_map_well_typed.
    intros l x H. rewrite lookup_empty in H. discriminate.
Qed.

End MapFacts.

Section Answers.
Import Platform Worker.

Variable w : world.

Lemma bookkeeping_silent (evs : list event) :
  Forall bookkeeping evs -> sleeps evs = [] /\ attempts_in evs = 0%nat.
Proof.
  induction 1 as [|ev evs Hev _ IH]; [split; reflexivity|].
  destruct ev; simpl in Hev; try contradiction; exact IH.
Qed.

(** A result that is a success, or a failure that asks for no other try,
    comes back after the first call. *)
Lemma extractDashboardWithResultRetry_decided (tabId : Z) (s : state)
    (v : option Extractor.result) :
  attempt_answer w (injections s) = Returned v ->
  result_ok v = true \/ retryableResult v = false ->
  let r := extractDashboardWithResultRetry w tabId 3 s in
  out r = Returned v /\ final r = advance s 1 /\
  attempts_in (calls r) = 1%nat /\ sleeps (calls r) = [].
Proof.
  intros Hans Hdec r. subst r.
  unfold extractDashboardWithResultRetry. cbn [result_loop Nat.leb]. unfold bind.
  destruct (executeExtractWithRetry_returns w tabId s v Hans) as [Hout [Hfin [Hat Hsl]]].
  destruct (executeExtractWithRetry w tabId 4 s) as [o f c].
  cbn [out final calls] in *. subst o f.
  destruct (result_ok v) eqn:Hok.
  - unfold ret. cbn [out final calls]. rewrite app_nil_r. auto.
  - destruct Hdec as [Hd | Hd]; [discriminate|]. rewrite Hd. cbn [negb orb].
    unfold ret. cbn [out final calls]. rewrite app_nil_r. auto.
Qed.

(** The result-level loop has no handler: an error of the injection driver
    leaves it as it is, with no further call. *)
Lemma extractDashboardWithResultRetry_thrown (tabId : Z) (s : state) (e : Js.exn) :
  out (executeExtractWithRetry w tabId 4 s) = Thrown e ->
  extractDashboardWithResultRetry w tabId 3 s = executeExtractWithRetry w tabId 4 s.
Proof.
  unfold extractDashboardWithResultRetry. cbn [result_loop Nat.leb]. unfold bind.
  destruct (executeExtractWithRetry w tabId 4 s) as [o f c]. cbn [out final calls].
  intros Ho. subst o. reflexivity.
Qed.

Lemma conclude_out (reason : string) (v : option Extractor.result) (s : state) :
  storage_local_set w (local_sets s) = Returned tt ->
  out (conclude w reason v s) =
  Returned
    match v with
    | Some (Extractor.Success d) => RefreshOk d
    | _ => RefreshFailed
             (extract_failed_record w
                (if says_remote_limit (detail_text (detail_of v))
                 then S (ticks s) else ticks s) reason v)
    end.
Proof.
  intros Hw.
  assert (Hfail : out (report_failure w reason v s) =
    Returned (RefreshFailed
      (extract_failed_record w
         (if says_remote_limit (detail_text (detail_of v))
          then S (ticks s) else ticks s) reason v))).
  { unfold report_failure. cbv zeta.
    destruct (says_remote_limit (detail_text (detail_of v))).
    - unfold bind at 1.
      cbn [bind read_nextAllowedRefreshAt date_now assign_nextAllowedRefreshAt
           out final calls g ticks injections local_sets].
      rewrite fail_with_run. cbv zeta. cbn [ticks local_sets]. rewrite Hw.
      reflexivity.
    - unfold bind. cbn [ret out final calls app].
      rewrite fail_with_run. cbv zeta. rewrite Hw. reflexivity. }
  unfold conclude. destruct v as [[err t|d]|]; try exact Hfail.
  unfold bind, local_set, ret. rewrite Hw. reflexivity.
Qed.

(** A run whose injection driver throws [e]: the [catch] clause reports
    the message of [e], and the run made the calls of the driver after the
    settle delay and no others that wait or inject. *)
Lemma thrown_extraction_is_reported (reason : string) (tabId : Z) (created : bool)
    (p : prefs) (s : state) (e : Js.exn) :
  tab_reaches_dashboard w = true ->
  storage_local_set w (local_sets s) = Returned tt ->
  out (executeExtractWithRetry w tabId 4 s) = Thrown e ->
  let rd := executeExtractWithRetry w tabId 4 s in
  let r := guarded w reason tabId created p s in
  out r = Returned (RefreshFailed
            (ErrorRecord (clock w (ticks s)) reason "refresh_exception"
                         (DString (Js.message_or_string e)))) /\
  attempts_in (calls r) = attempts_in (calls rd) /\
  sleeps (calls r) = 120 :: sleeps (calls rd).
Proof.
  intros Hreach Hw Hthrown rd r. subst r.
  rewrite guarded_run. cbv zeta. rewrite refresh_try_run. rewrite Hreach. cbv zeta.
  rewrite (extractDashboardWithResultRetry_thrown tabId s e Hthrown). fold rd.
  destruct (executeExtractWithRetry_frame w tabId s) as [Hg [Ht [Hl _]]].
  fold rd in Hg, Ht, Hl.
  assert (Hout : out rd = Thrown e) by exact Hthrown.
  rewrite Hout. cbn [out final calls].
  unfold refresh_catch. rewrite fail_with_run. cbv zeta. rewrite Hl, Ht, Hw.
  cbn [out final calls].
  split; [reflexivity|].
  rewrite !attempts_in_app, !sleeps_app.
  unfold opening_calls, cleanup_calls.
  destruct created; cbn [app andb];
    destruct (Js.truthy (closeTempTab p)); cbn [attempts_in sleeps app];
    rewrite ?attempts_in_app, ?sleeps_app; cbn [attempts_in sleeps app];
    rewrite ?app_nil_r; split; lia || reflexivity.
Qed.

End Answers.

(** X19.  The first answer decides.  When the tab shows the dashboard and
    the first injection returns a result that is a success, or a failure
    other than [main_not_found] and [dashboard_data_not_ready] (a login
    page, a rate-limited page, no result at all), the refresh injects once,
    waits only for the settle delay of 120ms, and resolves to the snapshot
    or to the tagged failure whose record has the code [extract_failed] and
    carries the error of the result. *)
Theorem first_answer_decides (w : Platform.world) (reason : string)
    (gl : Platform.globals) (slot : sync_slot) (tabId : Z) (created : bool)
    (v : option Extractor.result) :
  Platform.nextAllowedRefreshAt gl <= Platform.clock w 0 ->
  acquires w slot tabId created ->
  Platform.tab_reaches_dashboard w = true ->
  attempt_answer w 0 = Platform.Returned v ->
  Worker.result_ok v = true \/ Worker.retryableResult v = false ->
  write_resolves w 0 = true ->
  let r := Worker.run_refresh w reason gl in
  attempts_in (Platform.calls r) = 1%nat /\
  sleeps (Platform.calls r) = [120] /\
  Platform.out r =
  Platform.Returned
    match v with
    | Some (Extractor.Success d) => Platform.RefreshOk d
    | _ => Platform.RefreshFailed
             (extract_failed_record w
                (if Worker.says_remote_limit (Worker.detail_text (Worker.detail_of v))
                 then 2 else 1) reason v)
    end.
Proof.
  intros Hpass Hacq Hreach Hans Hdec Hwrite r. subst r.
  rewrite (run_refresh_acquired w reason gl slot tabId created Hpass Hacq).
  cbv zeta. rewrite guarded_run. cbv zeta. rewrite refresh_try_run. rewrite Hreach.
  cbv zeta.
  match goal with |- context [Worker.extractDashboardWithResultRetry w tabId 3 ?s] =>
    destruct (extractDashboardWithResultRetry_decided w tabId s v Hans Hdec)
      as [Hout [Hfin [Hat Hsl]]];
    destruct (Worker.extractDashboardWithResultRetry w tabId 3 s) as [o f c]
  end.
  cbn [Platform.out Platform.final Platform.calls] in *. subst o f.
  assert (Hw : Platform.storage_local_set w 0 = Platform.Returned tt).
  { unfold write_resolves in Hwrite.
    destruct (Platform.storage_local_set w 0) as [[]|x]; [reflexivity | discriminate]. }
  match goal with |- context [conclude w reason v ?s] =>
    pose proof (conclude_out w reason v s Hw) as Hconc;
    destruct (bookkeeping_silent _ (emits_conclude w reason v s)) as [Hcs Hca];
    destruct (conclude w reason v s) as [oc fc cc]
  end.
  cbn [Platform.out Platform.final Platform.calls Platform.ticks advance] in *.
  subst oc. cbn [Platform.out Platform.final Platform.calls].
  split; [|split].
  - cbn [attempts_in]. rewrite !attempts_in_app. cbn [attempts_in].
    rewrite !attempts_in_app, Hat, Hca.
    unfold acquisition_calls, opening_calls, cleanup_calls.
    destruct created; cbn [app andb];
      destruct (Js.truthy (closeTempTab (Background.getPrefs slot))); reflexivity.
  - cbn [sleeps]. rewrite !sleeps_app. cbn [sleeps].
    rewrite !sleeps_app, Hsl, Hcs.
    unfold acquisition_calls, opening_calls, cleanup_calls.
    destruct created; cbn [app andb];
      destruct (Js.truthy (closeTempTab (Background.getPrefs slot))); reflexivity.
  - destruct v as [[err t|d]|]; reflexivity.
Qed.

(** X20.  An error thrown by the injection is not retried by the
    result-level loop and is reported by the [catch] clause: the refresh
    resolves to the tagged failure whose record has the code
    [refresh_exception] and the message of the error as its detail.  A
    failure without a transient signature ends the refresh after one
    injection and the settle delay alone; transient failures at all four
    attempts end it after four injections and the delays 120, 220, 440,
    660. *)
Theorem script_failure_is_reported (w : Platform.world) (reason : string)
    (gl : Platform.globals) (slot : sync_slot) (tabId : Z) (created : bool) :
  Platform.nextAllowedRefreshAt gl <= Platform.clock w 0 ->
  acquires w slot tabId created ->
  Platform.tab_reaches_dashboard w = true ->
  write_resolves w 0 = true ->
  let r := Worker.run_refresh w reason gl in
  let report e :=
    Platform.Returned (Platform.RefreshFailed
      (Platform.ErrorRecord (Platform.clock w 1) reason "refresh_exception"
         (Platform.DString (Js.message_or_string e)))) in
  (forall e,
     attempt_answer w 0 = Platform.Thrown e -> Worker.retryable e = false ->
     Platform.out r = report e /\
     attempts_in (Platform.calls r) = 1%nat /\
     sleeps (Platform.calls r) = [120]) /\
  (forall e,
     (forall k, (k < 4)%nat -> transient w k = true) ->
     attempt_answer w 3 = Platform.Thrown e ->
     Platform.out r = report e /\
     attempts_in (Platform.calls r) = 4%nat /\
     sleeps (Platform.calls r) = [120; 220; 440; 660]).
Proof.
  intros Hpass Hacq Hreach Hwrite r report. subst r report.
  rewrite (run_refresh_acquired w reason gl slot tabId created Hpass Hacq).
  cbv zeta. cbn [Platform.out Platform.calls].
  assert (Hw : Platform.storage_local_set w 0 = Platform.Returned tt).
  { unfold write_resolves in Hwrite.
    destruct (Platform.storage_local_set w 0) as [[]|x]; [reflexivity | discriminate]. }
  assert (Hquiet : attempts_in (acquisition_calls created) = 0%nat /\
                   sleeps (acquisition_calls created) = []).
  { destruct created; split; reflexivity. }
  destruct Hquiet as [Hqa Hqs].
  split; intros e.
  - intros Hans Hno.
    match goal with |- context [guarded w reason tabId created ?p ?s] =>
      destruct (executeExtractWithRetry_raises_at_once w tabId s e Hans Hno)
        as [Hout [Hat Hsl]];
      destruct (thrown_extraction_is_reported w reason tabId created p s e
                  Hreach Hw Hout) as [Hr [Hra Hrs]]
    end.
    rewrite Hr. split; [reflexivity|].
    cbn [attempts_in sleeps]. rewrite attempts_in_app, sleeps_app, Hqa, Hqs, Hra, Hrs, Hat, Hsl.
    split; reflexivity.
  - intros Hall Hlast.
    match goal with |- context [guarded w reason tabId created ?p ?s] =>
      destruct (executeExtractWithRetry_exhausted w tabId s e Hall Hlast)
        as [Hout [Hat Hsl]];
      destruct (thrown_extraction_is_reported w reason tabId created p s e
                  Hreach Hw Hout) as [Hr [Hra Hrs]]
    end.
    rewrite Hr. split; [reflexivity|].
    cbn [attempts_in sleeps]. rewrite attempts_in_app, sleeps_app, Hqa, Hqs, Hra, Hrs, Hat, Hsl.
    split; reflexivity.
Qed.

Section AnswerExamples.
Import Platform Worker.

(** The session has expired: the site shows its login page. *)
Definition login_page : Dom.page :=
  {| Dom.pathname := "/login";
     Dom.href := "https://www.right.codes/login";
     Dom.title := "Right Code";
     Dom.document_body := Some (Dom.Body "使用 Linux Do 登录" "使用 Linux Do 登录");
     Dom.main_el := Some "使用 Linux Do 登录";
     Dom.root_el := None;
     Dom.settled_body := Some (Dom.Body "使用 Linux Do 登录" "使用 Linux Do 登录");
     Dom.late_pathname := "/login";
     Dom.late_body := Some (Dom.Body "使用 Linux Do 登录" "使用 Linux Do 登录");
     Dom.sub_grid := None;
     Dom.totals_grid := None;
     Dom.fault := None |}.

Definition login_world : world :=
  {| clock := fun k => 1000 + Z.of_nat k;
     permissions_contains := Returned true;
     storage_sync_get := Returned SlotMissing;
     tabs_query := Returned [];
     tabs_create := Returned (Some (Tab (Some 7) ""));
     install_rule := Returned tt;
     tab_reaches_dashboard := true;
     tabs_get := fun _ => Returned (Some (Tab (Some 7) DASHBOARD_URL));
     execute_script := fun _ =>
       Returned (Some (Extractor.extractRightCodesDashboard 1000 login_page));
     storage_local_set := fun _ => Returned tt;
     clear_rule := Returned tt;
     tabs_remove := Returned tt |}.

Lemma first_answer_decides_witness :
  let r := run_refresh login_world "manual" fresh_globals in
  attempts_in (calls r) = 1%nat /\
  sleeps (calls r) = [120] /\
  out r = Returned (RefreshFailed
            (ErrorRecord 1001 "manual" "extract_failed" (DString "auth_required"))).
Proof.
  apply (first_answer_decides login_world "manual" fresh_globals SlotMissing 7 true
           (Some (Extractor.Failure "auth_required" 1000))).
  - vm_compute. discriminate.
  - split; [reflexivity|]. split; [reflexivity|].
    eexists. split; [reflexivity|]. split; [reflexivity|].
    eexists. split; reflexivity.
  - reflexivity.
  - reflexivity.
  - right. reflexivity.
  - reflexivity.
Defined.

Lemma script_failure_is_reported_witness :
  let r := run_refresh script_error_world "alarm" fresh_globals in
  out r = Returned (RefreshFailed
            (ErrorRecord 1001 "alarm" "refresh_exception"
                         (DString "Cannot read properties of null"))) /\
  attempts_in (calls r) = 1%nat /\
  sleeps (calls r) = [120].
Proof.
  assert (Hpass : nextAllowedRefreshAt fresh_globals <= clock script_error_world 0).
  { vm_compute. discriminate. }
  assert (Hacq : acquires script_error_world SlotMissing 7 true).
  { split; [reflexivity|]. split; [reflexivity|].
    eexists. split; [reflexivity|]. split; [reflexivity|].
    eexists. split; reflexivity. }
  destruct (script_failure_is_reported script_error_world "alarm" fresh_globals
              SlotMissing 7 true Hpass Hacq eq_refl eq_refl) as [Honce _].
  apply (Honce (Js.Error "Cannot read properties of null")); reflexivity.
Defined.

End AnswerExamples.

Section SnapshotFacts.
Import Dom Extractor.

Lemma balance_missing_false (text : string) :
  balance_missing (parse_balance text) = false ->
  exists m, Text.balance_match text = Some m /\
            parse_balance text = Balance (Some (String "$"%char m)) (Some (NumberOf m)).
Proof.
  unfold parse_balance. destruct (Text.balance_match text) as [m|].
  - intros _. exists m. split; reflexivity.
  - discriminate.
Qed.

(** X21.  A snapshot is never empty and never taken from a login page or
    a rate-limited page: when the extractor returns a snapshot, no read of
    the page threw, the path did not start with [/login], the page text
    carried no rate-limit phrase, the main element was found, the snapshot
    carries the time of the extraction and the address and title of the
    page, and it holds a balance matched in the text of the main element,
    or at least one subscription, or at least one total. *)
Theorem snapshot_is_never_empty (t : Z) (p : page) (d : snapshot) :
  extractRightCodesDashboard t p = Success d ->
  fault p = None /\
  starts_with (pathname p) "/login" = false /\
  says_too_many_requests (body_text p) = false /\
  (exists main,
     main_or_root p = Some main /\
     snap_balance d = parse_balance (Text.normalize (Some (main_text_source p main)))) /\
  snap_fetchedAt d = t /\ snap_url d = href p /\ snap_title d = title p /\
  subscriptions d = parse_subscriptions (sub_grid p) /\
  totals d = parse_totals (totals_grid p) /\
  ((exists m, snap_balance d = Balance (Some (String "$"%char m)) (Some (NumberOf m))) \/
   subscriptions d <> [] \/
   totals d <> ∅).
Proof.
  intros Hrun. apply success_parts in Hrun.
  destruct Hrun as [Hfault [Hlogin [Hlimit [Hsubs [Htot [Hat [Hurl [Htitle
                     [Hempty [main [Hmain Hbal]]]]]]]]]]].
  do 3 (split; [assumption|]).
  split; [exists main; split; assumption|].
  do 5 (split; [assumption|]).
  destruct (balance_missing (snap_balance d)) eqn:Hmiss.
  - destruct (subscriptions d) as [|x l] eqn:Hs.
    + right. right. cbn [andb List.length Nat.eqb] in Hempty. intros Hnone.
      rewrite Hnone, map_size_empty in Hempty. discriminate.
    + right. left. discriminate.
  - left. rewrite Hbal in Hmiss. destruct (balance_missing_false _ Hmiss) as [m [_ Hm]].
    exists m. rewrite Hbal. exact Hm.
Qed.

(** A dashboard with one subscription and one total, and no balance. *)
Definition page_with_plan : page :=
  {| pathname := "/dashboard";
     href := "https://www.right.codes/dashboard";
     title := "Right Code";
     document_body := Some (Body "Pro" "Pro");
     main_el := Some "Pro";
     root_el := None;
     settled_body := Some (Body "Pro" "Pro");
     late_pathname := "/dashboard";
     late_body := Some (Body "Pro" "Pro");
     sub_grid := Some [Card (Some "Pro") None
                         [Row (Some "剩余额度") (Some (ValueEl "$3.20 / $10.00" []))]
                         None None];
     totals_grid := Some [TotalCard (Some "总请求") (Some "128")];
     fault := None |}.

Lemma snapshot_is_never_empty_witness :
  exists d,
    extractRightCodesDashboard 1000 page_with_plan = Success d /\
    subscriptions d <> [] /\ snap_url d = "https://www.right.codes/dashboard".
Proof.
  eexists. split; [reflexivity|].
  destruct (snapshot_is_never_empty 1000 page_with_plan _ eq_refl)
    as [_ [_ [_ [_ [_ [Hurl [_ [Hsub _]]]]]]]].
  split; [rewrite Hsub; discriminate | exact Hurl].
Defined.

End SnapshotFacts.

Section Amounts.
Import Extractor.

(** A non-empty text of digits and dots: what [[0-9.]+] captures. *)
Fixpoint all_numdot (s : string) : bool :=
  match s with
  | EmptyString => true
  | String c r => (Text.is_numdot c && all_numdot r)%bool
  end.

Definition amount (m : string) : Prop := m <> EmptyString /\ all_numdot m = true.

Lemma is_numdot_not_space (c : ascii) : Text.is_numdot c = true -> Text.is_space c = false.
Proof.
  unfold Text.is_numdot, Text.is_space. cbv zeta.
  generalize (nat_of_ascii c) as n. intros n H.
  apply orb_true_iff in H.
  apply orb_false_iff. split.
  - apply Nat.eqb_neq. destruct H as [H | H].
    + apply andb_true_iff in H. destruct H as [H1 H2].
      apply Nat.leb_le in H1. lia.
    + apply Nat.eqb_eq in H. lia.
  - apply andb_false_iff. right. apply Nat.leb_gt. destruct H as [H | H].
    + apply andb_true_iff in H. destruct H as [H1 H2].
      apply Nat.leb_le in H1. lia.
    + apply Nat.eqb_eq in H. lia.
Qed.

Lemma take_numdot_run (s : string) : all_numdot (fst (Text.take_numdot s)) = true.
Proof.
  induction s as [|c r IH]; [reflexivity|]. cbn [Text.take_numdot].
  destruct (Text.is_numdot c) eqn:Hc; [|reflexivity].
  destruct (Text.take_numdot r) as [run rest]. cbn [fst all_numdot] in *.
  rewrite Hc, IH. reflexivity.
Qed.

Lemma capture_numdot_amount (s m rest : string) :
  Text.capture_numdot s = Some (m, rest) -> amount m.
Proof.
  unfold Text.capture_numdot. pose proof (take_numdot_run s) as Hrun.
  destruct (Text.take_numdot s) as [run r]. cbn [fst] in Hrun.
  destruct (Text.nonempty run) eqn:Hne; [|discriminate].
  intros H. inversion H; subst. split; [|exact Hrun].
  intros Heq. subst m. discriminate.
Qed.

Lemma search_found {A} (here : string -> option A) (s : string) (m : A) :
  Text.search here s = Some m -> exists t, here t = Some m.
Proof.
  induction s as [|c r IH]; cbn [Text.search].
  - destruct (here EmptyString) eqn:H; [|discriminate].
    intros Heq. inversion Heq; subst. eauto.
  - destruct (here (String c r)) eqn:H.
    + intros Heq. inversion Heq; subst. eauto.
    + exact IH.
Qed.

Lemma search_at_head {A} (here : string -> option A) (s : string) (m : A) :
  here s = Some m -> Text.search here s = Some m.
Proof. intros H. destruct s; cbn [Text.search]; rewrite H; reflexivity. Qed.

(** What stops the greedy run: the end of the text or another character. *)
Definition stops (r : string) : bool :=
  match r with
  | EmptyString => true
  | String c _ => negb (Text.is_numdot c)
  end.

Lemma take_numdot_app (a r : string) :
  all_numdot a = true -> stops r = true ->
  Text.take_numdot (a ++ r) = (a, r).
Proof.
  intros Ha Hr. induction a as [|c a IH].
  - change (EmptyString ++ r)%string with r.
    destruct r as [|c r]; [reflexivity|]. cbn [stops] in Hr.
    apply negb_true_iff in Hr. cbn [Text.take_numdot]. rewrite Hr. reflexivity.
  - cbn [all_numdot] in Ha. apply andb_true_iff in Ha. destruct Ha as [Hc Ha].
    change (String c a ++ r)%string with (String c (a ++ r)).
    cbn [Text.take_numdot]. rewrite Hc, (IH Ha). reflexivity.
Qed.

Lemma capture_numdot_app (a r : string) :
  amount a -> stops r = true -> Text.capture_numdot (a ++ r) = Some (a, r).
Proof.
  intros [Hne Ha] Hr. unfold Text.capture_numdot.
  rewrite (take_numdot_app a r Ha Hr).
  destruct a as [|c a]; [contradiction|]. reflexivity.
Qed.

Lemma skip_spaces_amount (a r : string) :
  amount a -> Text.skip_spaces (a ++ r) = (a ++ r)%string.
Proof.
  intros [Hne Ha]. destruct a as [|c a]; [contradiction|].
  cbn [all_numdot] in Ha. apply andb_true_iff in Ha. destruct Ha as [Hc _].
  change (String c a ++ r)%string with (String c (a ++ r)).
  cbn [Text.skip_spaces]. rewrite (is_numdot_not_space c Hc). reflexivity.
Qed.

Lemma balance_here_amount (s m : string) : Text.balance_here s = Some m -> amount m.
Proof.
  unfold Text.balance_here. intros H.
  destruct (Text.strip_prefix "余额" s) as [r1|]; [|discriminate].
  cbn [mbind option_bind] in H.
  destruct (match Text.strip_prefix ":" (Text.skip_spaces r1) with
            | Some r => Some r
            | None => Text.strip_prefix "：" (Text.skip_spaces r1)
            end) as [r3|]; [|discriminate].
  cbn [mbind option_bind] in H.
  destruct (Text.strip_prefix "$" (Text.skip_spaces r3)) as [r4|]; [|discriminate].
  cbn [mbind option_bind] in H.
  destruct (Text.capture_numdot (Text.skip_spaces r4)) as [[m' rest]|] eqn:Hc;
    [|discriminate].
  cbn in H. inversion H; subst. eapply capture_numdot_amount. exact Hc.
Qed.

Lemma quota_here_amounts (s m1 m2 : string) :
  Text.quota_here s = Some (m1, m2) -> amount m1 /\ amount m2.
Proof.
  unfold Text.quota_here. intros H.
  destruct (Text.strip_prefix "$" s) as [r1|]; [|discriminate].
  cbn [mbind option_bind] in H.
  destruct (Text.capture_numdot (Text.skip_spaces r1)) as [[a r2]|] eqn:Ha;
    [|discriminate].
  cbn [mbind option_bind] in H.
  destruct (Text.strip_prefix "/" (Text.skip_spaces r2)) as [r3|]; [|discriminate].
  cbn [mbind option_bind] in H.
  destruct (Text.strip_prefix "$" (Text.skip_spaces r3)) as [r4|]; [|discriminate].
  cbn [mbind option_bind] in H.
  destruct (Text.capture_numdot (Text.skip_spaces r4)) as [[b r5]|] eqn:Hb;
    [|discriminate].
  cbn in H. inversion H; subst.
  split; eapply capture_numdot_amount; eassumption.
Qed.

(** The canonical texts of the dashboard. *)
Definition quota_text (a b : string) : string := ("$" ++ a ++ " / $" ++ b)%string.

Definition balance_text (a : string) : string := ("余额: $" ++ a)%string.

Lemma quota_here_canonical (a b : string) :
  amount a -> amount b -> Text.quota_here (quota_text a b) = Some (a, b).
Proof.
  intros Ha Hb. unfold Text.quota_here, quota_text.
  change ("$" ++ a ++ " / $" ++ b)%string with (String "$"%char (a ++ " / $" ++ b)).
  cbn [Text.strip_prefix Ascii.eqb Bool.eqb mbind option_bind].
  rewrite (skip_spaces_amount a _ Ha).
  rewrite (capture_numdot_app a (" / $" ++ b) Ha eq_refl).
  cbn [mbind option_bind].
  change (" / $" ++ b)%string
    with (String " "%char (String "/"%char (String " "%char (String "$"%char b)))).
  change (Text.skip_spaces
            (String " "%char (String "/"%char (String " "%char (String "$"%char b)))))
    with (String "/"%char (String " "%char (String "$"%char b))).
  cbn [Text.strip_prefix Ascii.eqb Bool.eqb mbind option_bind].
  change (Text.skip_spaces (String " "%char (String "$"%char b)))
    with (String "$"%char b).
  cbn [Text.strip_prefix Ascii.eqb Bool.eqb mbind option_bind].
  assert (Hb' : b = (b ++ EmptyString)%string).
  { clear. induction b as [|c b IH]; [reflexivity|].
    change (String c b ++ EmptyString)%string with (String c (b ++ EmptyString)).
    rewrite <- IH. reflexivity. }
  rewrite Hb'. rewrite (skip_spaces_amount b EmptyString Hb).
  rewrite (capture_numdot_app b EmptyString Hb eq_refl). rewrite <- Hb'. reflexivity.
Qed.

Lemma balance_here_canonical (a : string) :
  amount a -> Text.balance_here (balance_text a) = Some a.
Proof.
  intros Ha. unfold Text.balance_here, balance_text.
  assert (Ha' : a = (a ++ EmptyString)%string).
  { clear. induction a as [|c a IH]; [reflexivity|].
    change (String c a ++ EmptyString)%string with (String c (a ++ EmptyString)).
    rewrite <- IH. reflexivity. }
  assert (H1 : Text.strip_prefix "余额" ("余额: $" ++ a) = Some (": $" ++ a)%string)
    by reflexivity.
  rewrite H1. cbn [mbind option_bind].
  assert (H2 : Text.skip_spaces (": $" ++ a) = (": $" ++ a)%string) by reflexivity.
  rewrite H2.
  assert (H3 : Text.strip_prefix ":" (": $" ++ a) = Some (" $" ++ a)%string) by reflexivity.
  rewrite H3. cbn [mbind option_bind].
  assert (H4 : Text.skip_spaces (" $" ++ a) = ("$" ++ a)%string) by reflexivity.
  rewrite H4.
  assert (H5 : Text.strip_prefix "$" ("$" ++ a) = Some a) by reflexivity.
  rewrite H5. cbn [mbind option_bind].
  rewrite Ha'. rewrite (skip_spaces_amount a EmptyString Ha).
  rewrite (capture_numdot_app a EmptyString Ha eq_refl). rewrite <- Ha'. reflexivity.
Qed.

(** X22.  The amounts that the extractor parses.  A balance of a snapshot,
    when present, is [$] followed by a non-empty text of digits and dots,
    which is also the text of its amount; the two numbers of a parsed quota
    are such texts, its currency is [$] and its raw text is the text of the
    row; and the canonical texts of the dashboard are parsed as written:
    [$a / $b] gives the quota with remaining [a] and total [b], and the
    text 余额: [$a] gives the balance [$a]. *)
Theorem parsed_amounts (a b : string) :
  (forall text raw,
     bal_raw (parse_balance text) = Some raw ->
     exists m, amount m /\ raw = String "$"%char m /\
               bal_amount (parse_balance text) = Some (NumberOf m)) /\
  (forall q x y cur raw,
     parse_quota q = Some (QuotaParsed x y cur raw) ->
     exists m1 m2, amount m1 /\ amount m2 /\ x = NumberOf m1 /\ y = NumberOf m2 /\
                   cur = "$" /\ q = Some (LText raw)) /\
  (amount a -> amount b ->
   parse_quota (Some (LText (quota_text a b)))
   = Some (QuotaParsed (NumberOf a) (NumberOf b) "$" (quota_text a b))) /\
  (amount a ->
   parse_balance (balance_text a)
   = Balance (Some (String "$"%char a)) (Some (NumberOf a))).
Proof.
  split; [|split; [|split]].
  - intros text raw. unfold parse_balance.
    destruct (Text.balance_match text) as [m|] eqn:Hm; [|discriminate].
    cbn [bal_raw bal_amount]. intros H. inversion H; subst.
    exists m. split; [|split; reflexivity].
    destruct (search_found _ _ _ Hm) as [t Ht]. exact (balance_here_amount t m Ht).
  - intros q x y cur raw. unfold parse_quota.
    destruct q as [[txt|l]|]; try discriminate.
    destruct (Text.quota_match txt) as [[m1 m2]|] eqn:Hm; [|discriminate].
    intros H. inversion H; subst.
    destruct (search_found _ _ _ Hm) as [t Ht].
    destruct (quota_here_amounts t m1 m2 Ht) as [H1 H2].
    exists m1, m2. split; [exact H1|]. split; [exact H2|]. repeat split.
  - intros Ha Hb. unfold parse_quota, Text.quota_match.
    rewrite (search_at_head _ _ _ (quota_here_canonical a b Ha Hb)). reflexivity.
  - intros Ha. unfold parse_balance, Text.balance_match.
    rewrite (search_at_head _ _ _ (balance_here_canonical a Ha)). reflexivity.
Qed.

Example parsed_amounts_example :
  parse_quota (Some (LText (quota_text "3.20" "10.00")))
  = Some (QuotaParsed (NumberOf "3.20") (NumberOf "10.00") "$" "$3.20 / $10.00") /\
  parse_balance (balance_text "12.50")
  = Balance (Some "$12.50") (Some (NumberOf "12.50")).
Proof. split; reflexivity. Qed.

End Amounts.

(* ===================================================================== *)
(** * The summary that the popup copies *)
(* ===================================================================== *)

Module PopupSummary.
Import Extractor.

Section Summary.

(** [formatTimeBeijing], which formats through [Intl.DateTimeFormat]. *)
Variable formatTimeBeijing : Z -> string.

Definition newline : string := String (ascii_of_nat 10) EmptyString.

Definition summary_keys : list string := ["累计请求"; "累计 Token"; "累计花费"].

(** [if (payload?.balance?.raw) lines.push(...)]. *)
Definition balance_line (payload : option snapshot) : list string :=
  match payload with
  | Some d =>
      match bal_raw (snap_balance d) with
      | Some raw => if Text.nonempty raw then [("余额: " ++ raw)%string] else []
      | None => []
      end
  | None => []
  end.

(** [payload?.totals || {}]. *)
Definition totals_of (payload : option snapshot) : gmap string (option string) :=
  match payload with
  | Some d => totals d
  | None => ∅
  end.

(** [if (totals[k]) lines.push(...)]. *)
Definition total_line (tot : gmap string (option string)) (k : string) : list string :=
  match tot !! k with
  | Some (Some v) => if Text.nonempty v then [(k ++ ": " ++ v)%string] else []
  | _ => []
  end.

Definition time_line (payload : option snapshot) : string :=
  ("更新时间(北京时间): " ++
   match payload with
   | Some d => formatTimeBeijing (snap_fetchedAt d)
   | None => "—"
   end)%string.

Definition summary_lines (payload : option snapshot) : list string :=
  (balance_line payload ++
   flat_map (total_line (totals_of payload)) summary_keys ++
   [time_line payload])%list.

Definition buildSummaryText (payload : option snapshot) : string :=
  String.concat newline (summary_lines payload).

End Summary.

End PopupSummary.

Section SummaryFacts.
Import Dom Extractor PopupSummary.

Variable formatTimeBeijing : Z -> string.

Lemma totals_lookup_last (pre post : list total_card) (c : total_card) :
  total_label c <> EmptyString ->
  total_label c <> proto_label ->
  Forall (fun c' => total_label c' <> total_label c) post ->
  parse_totals (Some (pre ++ c :: post)%list) !! total_label c = Some (total_value c).
Proof.
  intros Hne Hproto Hpost. unfold parse_totals. rewrite fold_left_app. cbn [fold_left].
  rewrite totals_fold_other.
  - apply add_total_same; assumption.
  - eapply Forall_impl; [|exact Hpost]. intros c' Hc'. left. exact Hc'.
Qed.

Lemma text_or_null_some (s v : string) :
  text_or_null s = Some v -> v = s /\ Text.nonempty v = true.
Proof.
  unfold text_or_null. destruct (Text.nonempty s) eqn:Hs; [|discriminate].
  intros H. inversion H; subst. auto.
Qed.

Lemma total_line_length (tot : gmap string (option string)) (k : string) :
  (length (total_line tot k) <= 1)%nat.
Proof.
  unfold total_line. destruct (tot !! k) as [[v|]|]; cbn [length]; try lia.
  destruct (Text.nonempty v); cbn [length]; lia.
Qed.

Lemma balance_line_length (payload : option snapshot) :
  (length (balance_line payload) <= 1)%nat.
Proof.
  unfold balance_line. destruct payload as [d|]; cbn [length]; try lia.
  destruct (bal_raw (snap_balance d)) as [raw|]; cbn [length]; try lia.
  destruct (Text.nonempty raw); cbn [length]; lia.
Qed.

(** X23.  The copied summary of a snapshot that the extractor returned
    shows what the dashboard showed.  Its last line is the update time,
    formatted from the time of the extraction, and at most four lines come
    before it; when the main text matched a balance [$m], the first line is
    that balance; and for each of the three summary keys, the value of the
    last total card that carries the key is shown under the key when it is
    not empty.  Without a stored snapshot the summary is the update-time
    line with a dash. *)
Theorem summary_shows_the_dashboard (t : Z) (p : page) (d : snapshot) :
  extractRightCodesDashboard t p = Success d ->
  (exists body,
     summary_lines formatTimeBeijing (Some d)
     = (body ++ [("更新时间(北京时间): " ++ formatTimeBeijing t)%string])%list /\
     (length body <= 4)%nat) /\
  (forall main m,
     main_or_root p = Some main ->
     Text.balance_match (Text.normalize (Some (main_text_source p main))) = Some m ->
     exists rest,
       summary_lines formatTimeBeijing (Some d) = (("余额: $" ++ m)%string :: rest)) /\
  (forall pre c post v,
     totals_grid p = Some (pre ++ c :: post)%list ->
     In (total_label c) summary_keys ->
     Forall (fun c' => total_label c' <> total_label c) post ->
     total_value c = Some v ->
     In (total_label c ++ ": " ++ v)%string (summary_lines formatTimeBeijing (Some d))) /\
  buildSummaryText formatTimeBeijing None = "更新时间(北京时间): —".
Proof.
  intros Hrun. apply success_parts in Hrun.
  destruct Hrun as [_ [_ [_ [_ [Htot [Hat [_ [_ [_ [main [Hmain Hbal]]]]]]]]]]].
  split; [|split; [|split; [|reflexivity]]].
  - exists (balance_line (Some d) ++
            flat_map (total_line (totals_of (Some d))) summary_keys)%list.
    split.
    + unfold summary_lines, time_line. rewrite Hat. rewrite app_assoc. reflexivity.
    + rewrite length_app. unfold summary_keys. cbn [flat_map].
      rewrite !length_app. cbn [length].
      pose proof (total_line_length (totals_of (Some d)) "累计请求").
      pose proof (total_line_length (totals_of (Some d)) "累计 Token").
      pose proof (total_line_length (totals_of (Some d)) "累计花费").
      pose proof (balance_line_length (Some d)).
      lia.
  - intros main' m Hmain' Hm. rewrite Hmain in Hmain'. inversion Hmain'; subst main'.
    unfold summary_lines, balance_line. rewrite Hbal. unfold parse_balance.
    rewrite Hm. cbn [bal_raw]. cbn [Text.nonempty String.eqb negb].
    eexists. reflexivity.
  - intros pre c post v Hgrid Hkey Hpost Hv.
    unfold summary_lines. apply in_or_app. right. apply in_or_app. left.
    apply in_flat_map. exists (total_label c). split; [exact Hkey|].
    unfold totals_of, total_line. rewrite Htot, Hgrid.
    assert (Hne : total_label c <> EmptyString).
    { intros Heq. rewrite Heq in Hkey. unfold summary_keys in Hkey.
      cbn [In] in Hkey. intuition discriminate. }
    assert (Hproto : total_label c <> proto_label).
    { intros Heq. rewrite Heq in Hkey. unfold summary_keys in Hkey.
      cbn [In] in Hkey. intuition discriminate. }
    rewrite (totals_lookup_last pre post c Hne Hproto Hpost). rewrite Hv.
    unfold total_value in Hv. apply text_or_null_some in Hv.
    destruct Hv as [_ Hv]. rewrite Hv. left. reflexivity.
Qed.

End SummaryFacts.

Section SummaryExample.
Import Dom Extractor PopupSummary.

(** A dashboard with a balance and two totals. *)
Definition page_with_totals : page :=
  {| pathname := "/dashboard";
     href := "https://www.right.codes/dashboard";
     title := "Right Code";
     document_body := Some (Body "余额: $12.50" "余额: $12.50");
     main_el := Some "余额: $12.50";
     root_el := None;
     settled_body := Some (Body "余额: $12.50" "余额: $12.50");
     late_pathname := "/dashboard";
     late_body := Some (Body "余额: $12.50" "余额: $12.50");
     sub_grid := None;
     totals_grid := Some [TotalCard (Some " 累计请求 ") (Some "128");
                          TotalCard (Some "累计花费") (Some "$3.20")];
     fault := None |}.

Lemma summary_shows_the_dashboard_witness :
  exists d,
    extractRightCodesDashboard 1000 page_with_totals = Success d /\
    In "累计请求: 128"
       (summary_lines (fun _ => "1970-01-01 08:00:01") (Some d)).
Proof.
  eexists. split; [reflexivity|].
  destruct (summary_shows_the_dashboard (fun _ => "1970-01-01 08:00:01")
              1000 page_with_totals _ eq_refl) as [_ [_ [Htot _]]].
  apply (Htot [] (TotalCard (Some " 累计请求 ") (Some "128"))
              [TotalCard (Some "累计花费") (Some "$3.20")] "128").
  - reflexivity.
  - left. reflexivity.
  - repeat constructor. vm_compute. discriminate.
  - reflexivity.
Defined.

End SummaryExample.
